(** * SyncTeams workflow SDK: transport and orchestration layers

    A shallow embedding of [src/http.ts] (the transport layer: header
    merging, per-attempt timeout, retry loop with exponential backoff),
    [src/errors.ts] (the structured error) and [src/client.ts] (the
    workflow client: validation, polling loop, approval loop), followed by
    the properties of these functions.

    Modelling conventions.
    - JavaScript strings are [string]s of ASCII characters; [toUpperCase],
      [toLowerCase] and [trim] are the ASCII restrictions of the JavaScript
      methods.
    - JavaScript numbers that hold attempt counts, delays, timeouts, HTTP
      statuses and clock readings are integers of [Z] (the range in which
      double arithmetic is exact).
    - An [async] function is a state-passing function: the state records
      what the function did to the outside world (calls issued, delays
      slept, callbacks fired) and the outside world answers through oracles
      indexed by the number of calls made so far.
    - A thrown exception is the [Threw] case of [Outcome]. *)

From Stdlib Require Import ZArith List String Ascii Bool Lia DecimalString.
Import ListNotations.
Set Warnings "-register-all".
Local Open Scope list_scope.
Local Open Scope string_scope.
Local Open Scope Z_scope.

(* ------------------------------------------------------------------ *)
(** ** JavaScript string primitives used by the sources *)

Module Js.

Definition is_lower (c : ascii) : bool :=
  let n := N_of_ascii c in ((97 <=? n) && (n <=? 122))%N.

Definition is_upper (c : ascii) : bool :=
  let n := N_of_ascii c in ((65 <=? n) && (n <=? 90))%N.

Definition upper_ascii (c : ascii) : ascii :=
  if is_lower c then ascii_of_N (N_of_ascii c - 32) else c.

Definition lower_ascii (c : ascii) : ascii :=
  if is_upper c then ascii_of_N (N_of_ascii c + 32) else c.

Fixpoint toUpperCase (s : string) : string :=
  match s with
  | EmptyString => EmptyString
  | String c r => String (upper_ascii c) (toUpperCase r)
  end.

Fixpoint toLowerCase (s : string) : string :=
  match s with
  | EmptyString => EmptyString
  | String c r => String (lower_ascii c) (toLowerCase r)
  end.

(** [hay.includes(needle)] *)
Fixpoint includes (hay needle : string) : bool :=
  prefix needle hay
  || match hay with
     | EmptyString => false
     | String _ r => includes r needle
     end.

(** [s.startsWith(p)] *)
Definition startsWith (s p : string) : bool := prefix p s.

(** White space removed by [trim]: TAB, LF, VT, FF, CR and SPACE. *)
Definition is_space (c : ascii) : bool :=
  match N_of_ascii c with
  | 9%N | 10%N | 11%N | 12%N | 13%N | 32%N => true
  | _ => false
  end.

Fixpoint dropSpaces (l : list ascii) : list ascii :=
  match l with
  | c :: r => if is_space c then dropSpaces r else l
  | [] => []
  end.

Definition trim (s : string) : string :=
  string_of_list_ascii
    (rev (dropSpaces (rev (dropSpaces (list_ascii_of_string s))))).

(** [String(n)] for an integer [n]. *)
Definition numberToString (n : Z) : string :=
  NilZero.string_of_int (Z.to_int n).

(** [o ?? d], and the default of a destructured option: [None] is
    [undefined]. *)
Definition orElse {A : Type} (o : option A) (d : A) : A :=
  match o with Some a => a | None => d end.

(** A JSON value, as produced by [JSON.parse]. *)
Inductive Json : Type :=
| JNull
| JBool (b : bool)
| JNum (n : Z)
| JStr (s : string)
| JArr (items : list Json)
| JObj (fields : list (string * Json)).

(** [o[k]] on a parsed object; [None] is [undefined]. *)
Fixpoint field (k : string) (fields : list (string * Json)) : option Json :=
  match fields with
  | [] => None
  | (k', v) :: r => if String.eqb k' k then Some v else field k r
  end.

End Js.

(* ------------------------------------------------------------------ *)
(** ** Plain objects used as [Record<string, string>]

    Keys are compared exactly (case-sensitively); assigning to an existing
    key keeps its position, assigning to a new key appends it.  Keys are
    assumed not to be array indices, so [Object.entries] enumerates them in
    insertion order. *)

Module JsObject.

Definition t : Type := list (string * string).

Definition empty : t := [].

(** [o[k] = v] *)
Fixpoint assign (o : t) (k v : string) : t :=
  match o with
  | [] => [(k, v)]
  | (k', v') :: r =>
      if String.eqb k' k then (k', v) :: r else (k', v') :: assign r k v
  end.

(** [Object.entries(o)] *)
Definition entries (o : t) : list (string * string) := o.

(** [o[k]]; [None] is [undefined]. *)
Fixpoint lookup (o : t) (k : string) : option string :=
  match o with
  | [] => None
  | (k', v) :: r => if String.eqb k' k then Some v else lookup r k
  end.

End JsObject.

(* ------------------------------------------------------------------ *)
(** ** The Fetch [Headers] class

    A header list keeps the pairs in insertion order with the name as first
    written; names match case-insensitively.  Names and values are assumed
    valid (no [TypeError]) and values already free of surrounding white
    space. *)

Module Headers.

Definition t : Type := list (string * string).

Definition name_eqb (a b : string) : bool :=
  String.eqb (Js.toLowerCase a) (Js.toLowerCase b).

Definition matches (name : string) (p : string * string) : bool :=
  name_eqb (fst p) name.

Definition contains (h : t) (name : string) : bool :=
  existsb (matches name) h.

(** [headers.append(name, value)]: the pair is added at the end, under the
    spelling of the first header of that name when there is one. *)
Definition append (h : t) (name value : string) : t :=
  match find (matches name) h with
  | Some (n, _) => (h ++ [(n, value)])%list
  | None => (h ++ [(name, value)])%list
  end.

(** [headers.set(name, value)]: the first header of that name takes the
    value and the others are removed; a new name is appended. *)
Fixpoint set (h : t) (name value : string) : t :=
  match h with
  | [] => [(name, value)]
  | (n, v) :: r =>
      if name_eqb n name
      then (n, value) :: filter (fun p => negb (matches name p)) r
      else (n, v) :: set r name value
  end.

Definition values_of (h : t) (name : string) : list string :=
  map snd (filter (matches name) h).

(** [headers.get(name)]: the values of all headers of that name joined by
    a comma and a space; [None] is [null]. *)
Definition get (h : t) (name : string) : option string :=
  if contains h name then Some (String.concat ", " (values_of h name))
  else None.

(** [new Headers(record)]: every entry is appended. *)
Definition ofRecord (o : JsObject.t) : t :=
  fold_left (fun h kv => append h (fst kv) (snd kv)) (JsObject.entries o) [].

Fixpoint insert_sorted (n : string) (l : list string) : list string :=
  match l with
  | [] => [n]
  | m :: r =>
      if String.eqb n m then l
      else if String.ltb n m then n :: l
      else m :: insert_sorted n r
  end.

Definition sorted_names (h : t) : list string :=
  fold_left (fun acc p => insert_sorted (Js.toLowerCase (fst p)) acc) h [].

(** The pairs visited by [headers.forEach] (value first in the callback,
    key second): lower-cased names in sorted order, each with its combined
    value, except [set-cookie] whose values stay separate. *)
Definition iteration (h : t) : list (string * string) :=
  flat_map
    (fun n =>
       if String.eqb n "set-cookie"
       then map (fun v => (n, v)) (values_of h n)
       else match get h n with
            | Some v => [(n, v)]
            | None => []
            end)
    (sorted_names h).

End Headers.

(* ------------------------------------------------------------------ *)
(** ** errors.ts *)

Module Errors.
Import Js.

Record WorkflowAPIErrorRequest : Type := {
  req_method : string;
  req_url : string;
  req_body : option Json          (* [None] is [undefined] *)
}.

(** What a [catch] clause can receive.  [Error] stands for an instance of
    [Error] that is neither a [DOMException] nor a [WorkflowAPIError]
    (a [TypeError] of fetch for instance); [Thrown] is a value that is not
    an instance of [Error], known by whether it is [null]/[undefined] and
    by its [String(...)] rendering. *)
Inductive JsError : Type :=
| Error (message : string)
| DOMException (name message : string)
| WorkflowAPIError (message : string) (status : Z) (statusText : string)
    (headers : JsObject.t) (data : Json) (request : WorkflowAPIErrorRequest)
    (cause : option JsError)
| Thrown (nullish : bool) (rendering : string).

(** [error instanceof Error ? Some error.message : None] *)
Definition message_of (e : JsError) : option string :=
  match e with
  | Error m => Some m
  | DOMException _ m => Some m
  | WorkflowAPIError m _ _ _ _ _ _ => Some m
  | Thrown _ _ => None
  end.

(** [error instanceof DOMException && error.name === 'AbortError'] *)
Definition isAbortError (e : JsError) : bool :=
  match e with
  | DOMException name _ => String.eqb name "AbortError"
  | _ => false
  end.

Definition isWorkflowAPIError (e : JsError) : bool :=
  match e with
  | WorkflowAPIError _ _ _ _ _ _ _ => true
  | _ => false
  end.

Inductive HeadersOrRecord : Type :=
| AsHeaders (h : Headers.t)
| AsRecord (o : JsObject.t).

Definition normalizeHeaders (headers : option HeadersOrRecord) : JsObject.t :=
  match headers with
  | None => JsObject.empty
  | Some (AsHeaders h) =>
      fold_left (fun normalized kv => JsObject.assign normalized (fst kv) (snd kv))
        (Headers.iteration h) JsObject.empty
  | Some (AsRecord o) => o
  end.

Record WorkflowAPIErrorInit : Type := {
  init_message : string;
  init_status : Z;
  init_statusText : option string;
  init_headers : option HeadersOrRecord;
  init_data : option Json;
  init_request : WorkflowAPIErrorRequest;
  init_cause : option JsError
}.

(** [new WorkflowAPIError(init)] *)
Definition newWorkflowAPIError (init : WorkflowAPIErrorInit) : JsError :=
  WorkflowAPIError
    init.(init_message)
    init.(init_status)
    (match init.(init_statusText) with Some t => t | None => "" end)
    (normalizeHeaders init.(init_headers))
    (match init.(init_data) with Some d => d | None => JNull end)
    init.(init_request)
    init.(init_cause).

(** The result of awaiting a promise: it resolved, it rejected, or the
    model ran out of fuel before the loop ended. *)
Inductive Outcome (A : Type) : Type :=
| Returned (a : A)
| Threw (e : JsError)
| OutOfFuel.

Arguments Returned {A} a.
Arguments Threw {A} e.
Arguments OutOfFuel {A}.

End Errors.

(* ------------------------------------------------------------------ *)
(** ** http.ts: configuration, headers and classification *)

Module Http.
Import Js Errors.

Definition DEFAULT_RETRYABLE_STATUSES : list Z := [408; 425; 429].
Definition SDK_VERSION : string := "0.1.0".
Definition DEFAULT_REQUEST_TIMEOUT_MS : Z := 30000.

(** [WorkflowClientRetryConfig]: every field is optional. *)
Record WorkflowClientRetryConfig : Type := {
  opt_maxAttempts : option Z;
  opt_initialDelayMs : option Z;
  opt_backoffFactor : option Z;
  opt_maxDelayMs : option Z;
  opt_retryOnStatuses : option (list Z)
}.

(** [Required<WorkflowClientRetryConfig>] *)
Record RetryConfig : Type := {
  maxAttempts : Z;
  initialDelayMs : Z;
  backoffFactor : Z;
  maxDelayMs : Z;
  retryOnStatuses : list Z
}.

Fixpoint range_from (value : Z) (count : nat) : list Z :=
  match count with
  | O => []
  | S n => value :: range_from (value + 1) n
  end.

Definition range (start endInclusive : Z) : list Z :=
  range_from start (Z.to_nat (endInclusive - start + 1)).

Definition builtinRetry : RetryConfig := {|
  maxAttempts := 3;
  initialDelayMs := 1000;
  backoffFactor := 2;
  maxDelayMs := 30000;
  retryOnStatuses := (DEFAULT_RETRYABLE_STATUSES ++ range 500 599)%list
|}.

Definition normalizeRetryConfig
    (retry : option WorkflowClientRetryConfig) (fallback : option RetryConfig)
    : RetryConfig :=
  let base := orElse fallback builtinRetry in
  match retry with
  | None => base
  | Some r => {|
      maxAttempts := Z.max (orElse r.(opt_maxAttempts) base.(maxAttempts)) 1;
      initialDelayMs := orElse r.(opt_initialDelayMs) base.(initialDelayMs);
      backoffFactor := orElse r.(opt_backoffFactor) base.(backoffFactor);
      maxDelayMs := orElse r.(opt_maxDelayMs) base.(maxDelayMs);
      retryOnStatuses :=
        match r.(opt_retryOnStatuses) with
        | Some (s :: l) => s :: l
        | _ => base.(retryOnStatuses)
        end
    |}
  end.

Definition buildUserAgent (userAgentSuffix : option string) : string :=
  let base := "syncteams-sdk/" ++ SDK_VERSION in
  match userAgentSuffix with
  | None | Some "" => base
  | Some suffix => trim (base ++ " " ++ suffix)
  end.

Definition buildDefaultHeaders
    (apiKey : string) (overrides : option JsObject.t)
    (userAgentSuffix : option string) : JsObject.t :=
  let headers : JsObject.t :=
    [ ("Accept", "application/json");
      ("User-Agent", buildUserAgent userAgentSuffix);
      ("x-api-key", apiKey) ] in
  match overrides with
  | Some o =>
      fold_left (fun hs kv => JsObject.assign hs (fst kv) (snd kv))
        (JsObject.entries o) headers
  | None => headers
  end.

Record HttpClientOptions : Type := {
  opt_baseUrl : string;
  opt_apiKey : string;
  opt_timeoutMs : option Z;
  opt_defaultHeaders : option JsObject.t;
  opt_retry : option WorkflowClientRetryConfig;
  opt_userAgentSuffix : option string
}.

Record HttpClient : Type := {
  baseUrl : string;
  apiKey : string;
  defaultHeaders : JsObject.t;
  defaultTimeout : Z;
  defaultRetry : RetryConfig
}.

Fixpoint dropSlashes (l : list ascii) : list ascii :=
  match l with
  | c :: r => if Ascii.eqb c "/" then dropSlashes r else l
  | [] => []
  end.

(** [s.replace(/\/+$/, '')] *)
Definition stripTrailingSlashes (s : string) : string :=
  string_of_list_ascii (rev (dropSlashes (rev (list_ascii_of_string s)))).

(** [new HttpClient(options)]; the fetch implementation is the oracle of
    the attempt loop below. *)
Definition newHttpClient (options : HttpClientOptions) : HttpClient := {|
  baseUrl := stripTrailingSlashes options.(opt_baseUrl);
  apiKey := options.(opt_apiKey);
  defaultHeaders :=
    buildDefaultHeaders options.(opt_apiKey) options.(opt_defaultHeaders)
      options.(opt_userAgentSuffix);
  defaultTimeout := orElse options.(opt_timeoutMs) DEFAULT_REQUEST_TIMEOUT_MS;
  defaultRetry := normalizeRetryConfig options.(opt_retry) None
|}.

(** The request body as the source tests it: a JSON-like value (string,
    number, boolean, [null], array or plain object) or one of the platform
    classes.  [None] is [undefined]. *)
Inductive Body : Type :=
| BJson (j : Json)
| BURLSearchParams (rendered : string)
| BArrayBuffer
| BBlob
| BFormData.

Definition isNullish (body : option Body) : bool :=
  match body with
  | None | Some (BJson JNull) => true
  | _ => false
  end.

(** [typeof body === 'object'] for a body that is not nullish. *)
Definition typeofObject (body : option Body) : bool :=
  match body with
  | None => false
  | Some (BJson (JArr _)) | Some (BJson (JObj _)) => true
  | Some (BJson _) => false
  | Some _ => true
  end.

Definition isBinary (body : option Body) : bool :=
  match body with
  | Some BArrayBuffer | Some BBlob | Some BFormData => true
  | _ => false
  end.

(** [HeadersInit] *)
Inductive HeadersInit : Type :=
| HInstance (h : Headers.t)
| HArray (pairs : list (string * string))
| HRecord (o : JsObject.t).

Definition setAll (headers : Headers.t) (pairs : list (string * string))
    : Headers.t :=
  fold_left (fun hs kv => Headers.set hs (fst kv) (snd kv)) pairs headers.

Definition mergeHeaders (this : HttpClient)
    (customHeaders : option HeadersInit) (body : option Body) : Headers.t :=
  let headers := Headers.ofRecord this.(defaultHeaders) in
  let headers :=
    match customHeaders with
    | Some (HInstance h) => setAll headers (Headers.iteration h)
    | Some (HArray pairs) => setAll headers pairs
    | Some (HRecord o) => setAll headers (JsObject.entries o)
    | None => headers
    end in
  if negb (isNullish body) && typeofObject body && negb (isBinary body)
     && match Headers.get headers "content-type" with
        | None => true
        | Some _ => false
        end
  then Headers.set headers "Content-Type" "application/json"
  else headers.

Definition resolveUrl (this : HttpClient) (path : string) : string :=
  let lower := toLowerCase path in
  if startsWith lower "http://" || startsWith lower "https://" then path
  else this.(baseUrl) ++ (if startsWith path "/" then "" else "/") ++ path.

Definition shouldRetry (status : Z) (retry : RetryConfig) : bool :=
  existsb (Z.eqb status) retry.(retryOnStatuses).

(** The delay computed by [delayWithBackoff]. *)
Definition backoffDelay (attempt : Z) (retry : RetryConfig) : Z :=
  let exponent := Z.max 0 (attempt - 1) in
  let rawDelay := retry.(initialDelayMs) * retry.(backoffFactor) ^ exponent in
  Z.min rawDelay retry.(maxDelayMs).

Definition retryableMessages : list string :=
  ["ECONNRESET"; "ENOTFOUND"; "EAI_AGAIN"; "ETIMEDOUT"; "socket hang up"].

Definition isRetryableNetworkError (error : JsError) : bool :=
  match error with
  | Thrown true _ => false
  | _ =>
      if isAbortError error then true
      else
        match message_of error with
        | Some message =>
            existsb (fun msg => includes (toUpperCase message) msg)
              retryableMessages
        | None => false
        end
  end.

(** *** Responses, the fetch oracle and the attempt loop *)

Record Response : Type := {
  resp_status : Z;
  resp_statusText : string;
  resp_headers : Headers.t;
  resp_json : Json + JsError;      (* what [response.json()] settles to *)
  resp_text : string + JsError     (* what [response.text()] settles to *)
}.

(** [response.ok] *)
Definition ok (response : Response) : bool :=
  (200 <=? response.(resp_status)) && (response.(resp_status) <=? 299).

(** What the outside world does during one call of [performRequest]: how
    the promise of [fetchImpl] settles, whether the timeout timer had fired
    by then, and whether the caller's signal was aborted by then. *)
Record Attempt : Type := {
  settled : Response + JsError;
  timerFired : bool;
  callerAborted : bool
}.

(** The fetch implementation: the answer to the n-th call (from 0). *)
Definition Fetch : Type := nat -> Attempt.

Record RequestOptions : Type := {
  ro_method : option string;
  ro_headers : option HeadersInit;
  ro_body : option Body;
  ro_retry : option WorkflowClientRetryConfig;
  ro_timeoutMs : option Z;
  ro_signal : bool                 (* an [AbortSignal] was supplied *)
}.

Record NormalizedRequestInit : Type := {
  n_method : string;
  n_timeoutMs : Z;
  n_retry : RetryConfig;
  n_signal : bool
}.

Definition normalizeInit (this : HttpClient) (init : RequestOptions)
    : NormalizedRequestInit := {|
  n_method := toUpperCase (orElse init.(ro_method) "GET");
  n_timeoutMs := orElse init.(ro_timeoutMs) this.(defaultTimeout);
  n_retry := normalizeRetryConfig init.(ro_retry) (Some this.(defaultRetry));
  n_signal := init.(ro_signal)
|}.

Definition prepareDebugBody (body : option Body) : option Json :=
  match body with
  | None | Some (BJson JNull) => None
  | Some (BJson j) => Some j
  | Some (BURLSearchParams rendered) => Some (JStr rendered)
  | Some BArrayBuffer | Some BBlob | Some BFormData => Some (JObj [])
  end.

Definition isJsonResponse (response : Response) : bool :=
  includes (orElse (Headers.get response.(resp_headers) "content-type") "")
    "application/json".

Definition parseSuccessResponse
    (response : Response) (request : WorkflowAPIErrorRequest)
    : Json + JsError :=
  if response.(resp_status) =? 204 then inl JNull
  else if negb (isJsonResponse response) then
    match response.(resp_text) with
    | inl text => inl (JStr text)
    | inr error => inr error
    end
  else
    match response.(resp_json) with
    | inl value => inl value
    | inr error =>
        inr (newWorkflowAPIError {|
          init_message := "Failed to parse JSON response";
          init_status := response.(resp_status);
          init_statusText := Some response.(resp_statusText);
          init_data := Some JNull;
          init_headers := Some (AsHeaders response.(resp_headers));
          init_request := request;
          init_cause := Some error |})
    end.

(** [error instanceof Error ? error.message : String(error)] *)
Definition describe (error : JsError) : string :=
  match error with
  | Thrown _ rendering => rendering
  | _ => orElse (message_of error) ""
  end.

Definition parseErrorBody (response : Response) : Json :=
  if isJsonResponse response then
    match response.(resp_json) with
    | inl value => value
    | inr error => JObj [("parseError", JStr (describe error))]
    end
  else
    match response.(resp_text) with
    | inl "" => JNull
    | inl text => JStr text
    | inr error => JObj [("parseError", JStr (describe error))]
    end.

Definition buildErrorMessage (response : Response) (data : Json) : string :=
  let plain :=
    numberToString response.(resp_status) ++ " " ++ response.(resp_statusText) in
  match data with
  | JStr "" => plain
  | JStr text => plain ++ ": " ++ text
  | JObj fields =>
      let message :=
        match field "message" fields with
        | None | Some JNull => field "error" fields
        | Some m => Some m
        end in
      match message with
      | Some (JStr "") => plain
      | Some (JStr m) => plain ++ ": " ++ m
      | _ => plain
      end
  | _ => plain
  end.

Definition toWorkflowError
    (response : Response) (requestDescriptor : WorkflowAPIErrorRequest)
    : JsError :=
  let data := parseErrorBody response in
  newWorkflowAPIError {|
    init_message := buildErrorMessage response data;
    init_status := response.(resp_status);
    init_statusText := Some response.(resp_statusText);
    init_headers := Some (AsHeaders response.(resp_headers));
    init_data := Some data;
    init_request := requestDescriptor;
    init_cause := None |}.

(** [performRequest]: the caller's signal aborts the controller as well, so
    [controller.signal.aborted] holds when the timer fired or the caller
    aborted. *)
Definition performRequest (a : Attempt) (url method : string)
    (signal : bool) (timeoutMs : Z) : Response + JsError :=
  match a.(settled) with
  | inl response => inl response
  | inr error =>
      let externalAborted := signal && a.(callerAborted) in
      let controllerAborted := a.(timerFired) || externalAborted in
      if controllerAborted then
        if externalAborted then inr error
        else
          inr (Error ("Request aborted after " ++ numberToString timeoutMs
                      ++ "ms (" ++ method ++ " " ++ url ++ ")"))
      else inr error
  end.

(** What [request] did to the outside world, in order. *)
Record FetchCall : Type := {
  call_url : string;
  call_method : string;
  call_headers : Headers.t
}.

Record Trace : Type := {
  calls : list FetchCall;          (* one per attempt *)
  sleeps : list Z                  (* the delays of [delayWithBackoff] *)
}.

Definition start : Trace := {| calls := []; sleeps := [] |}.

Definition logCall (c : FetchCall) (t : Trace) : Trace :=
  {| calls := (t.(calls) ++ [c])%list; sleeps := t.(sleeps) |}.

Definition delayWithBackoff (attempt : Z) (retry : RetryConfig) (t : Trace)
    : Trace :=
  {| calls := t.(calls);
     sleeps := (t.(sleeps) ++ [backoffDelay attempt retry])%list |}.

(** How the [try] block of one iteration ends. *)
Inductive Tried : Type :=
| Resolved (value : Json)
| Continue
| Raised (error : JsError).

Section Request.

Variable fetchImpl : Fetch.
Variable url : string.
Variable headers : Headers.t.
Variable resolved : NormalizedRequestInit.
Variable requestDescriptor : WorkflowAPIErrorRequest.

Let maxAttempts' : Z := resolved.(n_retry).(maxAttempts).

Definition tryAttempt (attempt : Z) (a : Attempt) : Tried :=
  match performRequest a url resolved.(n_method) resolved.(n_signal)
          resolved.(n_timeoutMs) with
  | inl response =>
      if ok response then
        match parseSuccessResponse response requestDescriptor with
        | inl value => Resolved value
        | inr error => Raised error
        end
      else
        let error := toWorkflowError response requestDescriptor in
        if (attempt <? maxAttempts')
           && shouldRetry response.(resp_status) resolved.(n_retry)
        then Continue
        else Raised error
  | inr error => Raised error
  end.

(** The [for] loop of [request]; [fuel] bounds the number of iterations. *)
Fixpoint attemptLoop (fuel : nat) (attempt : Z) (t : Trace)
    : Outcome Json * Trace :=
  if attempt <=? maxAttempts' then
    match fuel with
    | O => (OutOfFuel, t)
    | S fuel' =>
        let a := fetchImpl (List.length t.(calls)) in
        let t := logCall {| call_url := url;
                            call_method := resolved.(n_method);
                            call_headers := headers |} t in
        match tryAttempt attempt a with
        | Resolved value => (Returned value, t)
        | Continue =>
            attemptLoop fuel' (attempt + 1)
              (delayWithBackoff attempt resolved.(n_retry) t)
        | Raised error =>
            if isWorkflowAPIError error then (Threw error, t)
            else if (attempt <? maxAttempts')
                    && isRetryableNetworkError error
                    && (resolved.(n_retry).(maxAttempts) >? 1)
            then
              attemptLoop fuel' (attempt + 1)
                (delayWithBackoff attempt resolved.(n_retry) t)
            else
              (Threw (newWorkflowAPIError {|
                 init_message :=
                   orElse (message_of error) "Request failed without a message";
                 init_status := 0;
                 init_statusText := Some "NETWORK_ERROR";
                 init_data := Some JNull;
                 init_headers := Some (AsRecord JsObject.empty);
                 init_request := requestDescriptor;
                 init_cause := Some error |}), t)
        end
    end
  else
    (Threw (newWorkflowAPIError {|
       init_message := "Exceeded maximum retry attempts";
       init_status := 0;
       init_statusText := Some "RETRY_EXHAUSTED";
       init_data := Some JNull;
       init_headers := Some (AsRecord JsObject.empty);
       init_request := requestDescriptor;
       init_cause := None |}), t).

End Request.

(** [HttpClient.request]: the loop starts at attempt 1 and runs at most
    [maxAttempts] iterations, which is the fuel it is given.  The
    statements before the loop are taken not to throw: header names and
    values are valid and the body is one that [JSON.stringify] accepts, so
    [mergeHeaders] and [serializeBody] return; an error of theirs would
    leave [request] as it is, outside the [try] of the loop. *)
Definition request (this : HttpClient) (fetchImpl : Fetch)
    (path : string) (init : RequestOptions) (t : Trace)
    : Outcome Json * Trace :=
  let resolved := normalizeInit this init in
  let url := resolveUrl this path in
  let body := init.(ro_body) in
  let headers := mergeHeaders this init.(ro_headers) body in
  let requestDescriptor := {|
    req_method := toUpperCase resolved.(n_method);
    req_url := url;
    req_body := prepareDebugBody body |} in
  attemptLoop fetchImpl url headers resolved requestDescriptor
    (Z.to_nat resolved.(n_retry).(maxAttempts)) 1 t.

(** *** The body handed to fetch *)

(** What [serializeBody] returns: the body object itself or a text. *)
Inductive BodyInit : Type :=
| SentAsIs (b : Body)
| SentText (text : string).

(** [serializeBody(body, headers)]; [stringify] is [JSON.stringify] and
    [None] is [undefined]. *)
Definition serializeBody (stringify : Json -> string)
    (body : option Body) (headers : Headers.t) : option BodyInit :=
  match body with
  | None | Some (BJson JNull) => None
  | Some (BURLSearchParams rendered) => Some (SentAsIs (BURLSearchParams rendered))
  | Some BBlob => Some (SentAsIs BBlob)
  | Some BFormData => Some (SentAsIs BFormData)
  | Some BArrayBuffer => Some (SentAsIs BArrayBuffer)
  | Some (BJson j) =>
      if typeofObject body
         && match Headers.get headers "Content-Type" with
            | Some contentType => includes contentType "application/json"
            | None => false
            end
      then Some (SentText (stringify j))
      else
        match j with
        | JStr text => Some (SentText text)
        | _ => Some (SentText (stringify j))
        end
  end.

End Http.

(* ------------------------------------------------------------------ *)
(** ** client.ts: the workflow client over an abstract transport

    [this.http.request] is an oracle here: the client only depends on how
    each transport call settles.  The callbacks supplied by the caller
    ([onUpdate], [onWaiting]) are assumed to return normally. *)

Module Client.
Import Js Errors.

Inductive WorkflowStatus : Type :=
| QUEUED | PENDING | RUNNING | WAITING | CANCELED | FAILED | COMPLETED.

Inductive ApprovalDecision : Type := APPROVE | REJECT.

(** The string value of the enum member. *)
Definition statusName (s : WorkflowStatus) : string :=
  match s with
  | QUEUED => "QUEUED" | PENDING => "PENDING" | RUNNING => "RUNNING"
  | WAITING => "WAITING" | CANCELED => "CANCELED" | FAILED => "FAILED"
  | COMPLETED => "COMPLETED"
  end.

Definition decisionName (d : ApprovalDecision) : string :=
  match d with APPROVE => "APPROVE" | REJECT => "REJECT" end.

Definition status_eqb (a b : WorkflowStatus) : bool :=
  match a, b with
  | QUEUED, QUEUED | PENDING, PENDING | RUNNING, RUNNING
  | WAITING, WAITING | CANCELED, CANCELED | FAILED, FAILED
  | COMPLETED, COMPLETED => true
  | _, _ => false
  end.

Definition DEFAULT_POLL_INTERVAL_MS : Z := 2000.
Definition DEFAULT_MAX_WAIT_TIME_MS : Z := 10 * 60 * 1000.

Definition TERMINAL_STATUSES : list WorkflowStatus :=
  [COMPLETED; FAILED; CANCELED].

Record TaskStatusResponse : Type := {
  taskId : string;
  status : WorkflowStatus;
  eventLogs : option (list Json)
}.

(** The arguments of one call of [this.http.request]. *)
Record HttpRequest : Type := {
  path : string;
  method : string;
  body : option Json
}.

Record AbortSignal : Type := {
  reason : JsError                 (* [signal.reason] *)
}.

(** The outside world of the client. *)
Record World : Type := {
  http : nat -> TaskStatusResponse + JsError;
      (* how the n-th transport call settles *)
  now : nat -> Z;                  (* the n-th reading of [Date.now()] *)
  aborted : nat -> bool;           (* the n-th look at the signal's state *)
  onWaiting : nat -> bool          (* what the n-th call of the handler returns *)
}.

(** What the client did so far. *)
Record St : Type := {
  requests : list HttpRequest;     (* transport calls, in order *)
  updates : list TaskStatusResponse;   (* arguments of [onUpdate], in order *)
  waits : list TaskStatusResponse; (* arguments of [onWaiting], in order *)
  slept : list Z;                  (* timers that ran to their end *)
  clockReads : nat;
  signalLooks : nat
}.

Definition initial : St := {|
  requests := []; updates := []; waits := []; slept := [];
  clockReads := 0%nat; signalLooks := 0%nat |}.

(** *** A state and exception monad for the asynchronous code *)

Definition M (A : Type) : Type := St -> Outcome A * St.

Definition ret {A : Type} (a : A) : M A := fun st => (Returned a, st).

Definition throw {A : Type} (e : JsError) : M A := fun st => (Threw e, st).

Definition bind {A B : Type} (m : M A) (k : A -> M B) : M B :=
  fun st =>
    match m st with
    | (Returned a, st') => k a st'
    | (Threw e, st') => (Threw e, st')
    | (OutOfFuel, st') => (OutOfFuel, st')
    end.

Notation "x <- m ;; k" := (bind m (fun x => k))
  (at level 61, m at next level, right associativity).
Notation "m ;;; k" := (bind m (fun _ => k))
  (at level 61, right associativity).

Section WithWorld.

Variable world : World.

(** [await this.http.request(path, { method, body })] *)
Definition httpRequest (r : HttpRequest) : M TaskStatusResponse :=
  fun st =>
    let st' := {|
      requests := (st.(requests) ++ [r])%list;
      updates := st.(updates); waits := st.(waits); slept := st.(slept);
      clockReads := st.(clockReads); signalLooks := st.(signalLooks) |} in
    match world.(http) (List.length st.(requests)) with
    | inl response => (Returned response, st')
    | inr error => (Threw error, st')
    end.

(** [Date.now()] *)
Definition dateNow : M Z :=
  fun st =>
    (Returned (world.(now) st.(clockReads)),
     {| requests := st.(requests); updates := st.(updates);
        waits := st.(waits); slept := st.(slept);
        clockReads := S st.(clockReads); signalLooks := st.(signalLooks) |}).

(** [signal.aborted] *)
Definition lookAborted : M bool :=
  fun st =>
    (Returned (world.(aborted) st.(signalLooks)),
     {| requests := st.(requests); updates := st.(updates);
        waits := st.(waits); slept := st.(slept);
        clockReads := st.(clockReads); signalLooks := S st.(signalLooks) |}).

(** The timer of [setTimeout(resolve, ms)] ran to its end. *)
Definition timerElapsed (ms : Z) : M unit :=
  fun st =>
    (Returned tt,
     {| requests := st.(requests); updates := st.(updates);
        waits := st.(waits); slept := (st.(slept) ++ [ms])%list;
        clockReads := st.(clockReads); signalLooks := st.(signalLooks) |}).

(** [onUpdate?.(status)] *)
Definition fireOnUpdate (onUpdate : bool) (s : TaskStatusResponse) : M unit :=
  fun st =>
    (Returned tt,
     if onUpdate then
       {| requests := st.(requests);
          updates := (st.(updates) ++ [s])%list;
          waits := st.(waits); slept := st.(slept);
          clockReads := st.(clockReads); signalLooks := st.(signalLooks) |}
     else st).

(** [await onWaiting(current)] *)
Definition callOnWaiting (current : TaskStatusResponse) : M bool :=
  fun st =>
    (Returned (world.(onWaiting) (List.length st.(waits))),
     {| requests := st.(requests); updates := st.(updates);
        waits := (st.(waits) ++ [current])%list; slept := st.(slept);
        clockReads := st.(clockReads); signalLooks := st.(signalLooks) |}).

Definition abortedError (signal : AbortSignal) : JsError :=
  if isAbortError signal.(reason) then signal.(reason)
  else DOMException "AbortError" "The operation was aborted".

(** [sleep(ms, signal)]: with a signal, the promise rejects when the signal
    is already aborted or is aborted before the timer ends. *)
Definition sleep (ms : Z) (signal : option AbortSignal) : M unit :=
  match signal with
  | None => timerElapsed ms
  | Some sig =>
      already <- lookAborted ;;
      if already : bool then throw (abortedError sig)
      else
        during <- lookAborted ;;
        if during : bool then throw (abortedError sig)
        else timerElapsed ms
  end.

Definition assertString (value field : string) : M unit :=
  if String.eqb (trim value) "" then
    throw (Error (field ++ " must be a non-empty string"))
  else ret tt.

(** [new URLSearchParams({ taskId }).toString()] after the [taskId=]: the
    form-urlencoded serialisation of the value. *)
Definition hexDigit (n : N) : ascii :=
  if (n <? 10)%N then ascii_of_N (48 + n) else ascii_of_N (55 + n).

Definition formByte (c : ascii) : string :=
  let n := N_of_ascii c in
  if is_lower c || is_upper c || ((48 <=? n) && (n <=? 57))%N
     || (n =? 42)%N || (n =? 45)%N || (n =? 46)%N || (n =? 95)%N
  then String c ""
  else if (n =? 32)%N then "+"
  else String "%" (String (hexDigit (n / 16)) (String (hexDigit (n mod 16)) "")).

Fixpoint formEncode (s : string) : string :=
  match s with
  | EmptyString => ""
  | String c r => formByte c ++ formEncode r
  end.

Record ExecuteWorkflowInput : Type := {
  workflowId : string;
  input : option Json;     (* [None]: a value [JSON.stringify] throws on *)
  uniqueId : option string
}.

Definition ensureSerializable (value : option Json) (field : string)
    : M Json :=
  match value with
  | Some j => ret j
  | None => throw (Error (field ++ " must be JSON serializable"))
  end.

Definition optionalField (k : string) (v : option string)
    : list (string * Json) :=
  match v with
  | Some s => [(k, JStr s)]
  | None => []
  end.

Definition executeWorkflow (i : ExecuteWorkflowInput) : M TaskStatusResponse :=
  assertString i.(workflowId) "workflowId" ;;;
  value <- ensureSerializable i.(input) "input" ;;
  let payload :=
    JObj ([("workflowId", JStr i.(workflowId))]
          ++ optionalField "uniqueId" i.(uniqueId)
          ++ [("input", value)])%list in
  httpRequest {| path := "/api/v1"; method := "POST"; body := Some payload |}.

Definition getTaskStatus (taskId : string) : M TaskStatusResponse :=
  assertString taskId "taskId" ;;;
  let query := "taskId=" ++ formEncode taskId in
  httpRequest {| path := "/api/v1/status?" ++ query;
                 method := "GET"; body := None |}.

Record ContinueTaskInput : Type := {
  ct_taskId : string;
  ct_decision : ApprovalDecision;
  ct_message : option string
}.

(** [!message] *)
Definition missing (message : option string) : bool :=
  match message with
  | None | Some "" => true
  | Some _ => false
  end.

Definition continueTask (params : ContinueTaskInput) : M TaskStatusResponse :=
  assertString params.(ct_taskId) "taskId" ;;;
  match params.(ct_decision) with
  | REJECT =>
      if missing params.(ct_message)
      then throw (Error "message is required when decision is REJECT")
      else ret tt
  | APPROVE => ret tt
  end ;;;
  let payload :=
    JObj ([("taskId", JStr params.(ct_taskId));
           ("type", JStr (decisionName params.(ct_decision)))]
          ++ optionalField "message" params.(ct_message))%list in
  httpRequest {| path := "/api/v1/continue"; method := "POST";
                 body := Some payload |}.

Record WaitForCompletionOptions : Type := {
  pollIntervalMs : option Z;
  maxWaitTimeMs : option Z;
  terminalStatuses : option (list WorkflowStatus);
  exitOnWaiting : option bool;
  signal : option AbortSignal;
  onUpdate : bool                  (* a callback was supplied *)
}.

(** [terminalSet.has(s)] *)
Definition has (terminalSet : list WorkflowStatus) (s : WorkflowStatus)
    : bool :=
  existsb (status_eqb s) terminalSet.

Definition differs (s : WorkflowStatus) (lastStatus : option WorkflowStatus)
    : bool :=
  match lastStatus with
  | Some l => negb (status_eqb s l)
  | None => true
  end.

Definition pollTimeoutError (maxWait : Z) (task : string)
    (last : WorkflowStatus) : JsError :=
  newWorkflowAPIError {|
    init_message :=
      "Timed out after " ++ numberToString maxWait
      ++ "ms waiting for task " ++ task;
    init_status := 0;
    init_statusText := Some "POLL_TIMEOUT";
    init_data :=
      Some (JObj [("taskId", JStr task);
                  ("lastStatus", JStr (statusName last))]);
    init_headers := Some (AsRecord JsObject.empty);
    init_request := {| req_method := "GET";
                       req_url := "/api/v1/status?taskId=" ++ task;
                       req_body := None |};
    init_cause := None |}.

Section Polling.

Variable task : string.
Variable options : WaitForCompletionOptions.
Variable startedAt : Z.

Let interval : Z := orElse options.(pollIntervalMs) DEFAULT_POLL_INTERVAL_MS.
Let maxWait : Z := orElse options.(maxWaitTimeMs) DEFAULT_MAX_WAIT_TIME_MS.
Let terminalSet : list WorkflowStatus :=
  orElse options.(terminalStatuses) TERMINAL_STATUSES.
Let exitWaiting : bool := orElse options.(exitOnWaiting) false.

(** [if (signal?.aborted) throw abortedError(signal)] *)
Definition throwIfAborted : M unit :=
  match options.(signal) with
  | Some sig =>
      stop <- lookAborted ;;
      if stop : bool then throw (abortedError sig) else ret tt
  | None => ret tt
  end.

(** The [while (true)] loop of [waitForCompletion]; one unit of fuel per
    iteration. *)
Fixpoint pollLoop (fuel : nat) (lastStatus : option WorkflowStatus)
    : M TaskStatusResponse :=
  match fuel with
  | O => fun st => (OutOfFuel, st)
  | S fuel' =>
      throwIfAborted ;;;
      current <- getTaskStatus task ;;
      let changed := differs current.(status) lastStatus in
      (if changed then fireOnUpdate options.(onUpdate) current else ret tt) ;;;
      let lastStatus :=
        if changed then Some current.(status) else lastStatus in
      let isTerminal := has terminalSet current.(status) in
      let isWaiting := status_eqb current.(status) WAITING in
      if isTerminal || (isWaiting && exitWaiting) then ret current
      else
        t <- dateNow ;;
        let elapsed := t - startedAt in
        if elapsed >=? maxWait then
          throw (pollTimeoutError maxWait task current.(status))
        else
          sleep interval options.(signal) ;;;
          pollLoop fuel' lastStatus
  end.

End Polling.

Definition waitForCompletion (fuel : nat) (task : string)
    (options : WaitForCompletionOptions) : M TaskStatusResponse :=
  assertString task "taskId" ;;;
  startedAt <- dateNow ;;
  pollLoop task options startedAt fuel None.

Record ExecuteAndWaitOptions : Type := {
  waitOptions : WaitForCompletionOptions;
  withOnWaiting : bool             (* an [onWaiting] handler was supplied *)
}.

Definition forceExitOnWaiting (o : WaitForCompletionOptions)
    : WaitForCompletionOptions := {|
  pollIntervalMs := o.(pollIntervalMs);
  maxWaitTimeMs := o.(maxWaitTimeMs);
  terminalStatuses := o.(terminalStatuses);
  exitOnWaiting := Some true;
  signal := o.(signal);
  onUpdate := o.(onUpdate) |}.

Definition unexpectedExit : JsError :=
  Error "Unexpected: executeAndWait exited without returning".

(** The [while (continuePolling)] loop of [executeAndWait], followed by
    [afterLoop], the statement that stands after the loop.  One unit of
    fuel per iteration, and [pollFuel] for each wait. *)
Fixpoint resumeLoop (afterLoop : M TaskStatusResponse) (pollFuel : nat)
    (task : string) (o : WaitForCompletionOptions)
    (fuel : nat) (continuePolling : bool) : M TaskStatusResponse :=
  if continuePolling then
    match fuel with
    | O => fun st => (OutOfFuel, st)
    | S fuel' =>
        current <- waitForCompletion pollFuel task (forceExitOnWaiting o) ;;
        if negb (status_eqb current.(status) WAITING) then ret current
        else
          continuePolling <- callOnWaiting current ;;
          if negb continuePolling then ret current
          else resumeLoop afterLoop pollFuel task o fuel' continuePolling
    end
  else afterLoop.

(** [executeAndWait] with the statement after the loop left open. *)
Definition executeAndWaitWith (afterLoop : M TaskStatusResponse)
    (fuel : nat) (i : ExecuteWorkflowInput) (options : ExecuteAndWaitOptions)
    : M TaskStatusResponse :=
  started <- executeWorkflow i ;;
  if negb options.(withOnWaiting) then
    waitForCompletion fuel started.(taskId) options.(waitOptions)
  else
    let continuePolling := true in
    resumeLoop afterLoop fuel started.(taskId) options.(waitOptions)
      fuel continuePolling.

(** [executeAndWait]: after the loop the source throws. *)
Definition executeAndWait : nat -> ExecuteWorkflowInput ->
    ExecuteAndWaitOptions -> M TaskStatusResponse :=
  executeAndWaitWith (throw unexpectedExit).

End WithWorld.

End Client.

(* ------------------------------------------------------------------ *)
(** ** client.ts: the constructor of [WorkflowClient] *)

Module Construct.
Import Js Errors Http.

Definition DEFAULT_BASE_URL : string := "https://api.syncteams.studio".

Record WorkflowClientOptions : Type := {
  wc_baseUrl : option string;
  wc_apiKey : string;
  wc_timeoutMs : option Z;
  wc_defaultHeaders : option JsObject.t;
  wc_retry : option WorkflowClientRetryConfig;
  wc_userAgentSuffix : option string
}.

(** [new WorkflowClient(options)]: the transport client it holds, or the
    error it throws. *)
Definition newWorkflowClient (options : WorkflowClientOptions)
    : HttpClient + JsError :=
  if String.eqb options.(wc_apiKey) "" then
    inr (Error "apiKey is required when constructing WorkflowClient")
  else
    inl (newHttpClient {|
      opt_baseUrl := orElse options.(wc_baseUrl) DEFAULT_BASE_URL;
      opt_apiKey := options.(wc_apiKey);
      opt_timeoutMs := options.(wc_timeoutMs);
      opt_defaultHeaders := options.(wc_defaultHeaders);
      opt_retry := options.(wc_retry);
      opt_userAgentSuffix := options.(wc_userAgentSuffix) |}).

End Construct.

(* ------------------------------------------------------------------ *)
(** ** Concrete requests used by the evaluation lemmas *)

Module Scenario.
Import Js Errors Http.

Definition plainOptions : HttpClientOptions := {|
  opt_baseUrl := "https://api.example.com";
  opt_apiKey := "sts_test_key";
  opt_timeoutMs := None;
  opt_defaultHeaders := None;
  opt_retry := None;
  opt_userAgentSuffix := None |}.

(** A client with the default timeout (30 s) and the default retry policy
    (3 attempts, 1 s initial delay, factor 2). *)
Definition plainClient : HttpClient := newHttpClient plainOptions.

Definition statusPath : string := "/api/v1/status?taskId=task-1".

Definition getOptions (withSignal : bool) : RequestOptions := {|
  ro_method := Some "GET";
  ro_headers := None;
  ro_body := None;
  ro_retry := None;
  ro_timeoutMs := None;
  ro_signal := withSignal |}.

(** What fetch rejects with when its signal is aborted. *)
Definition fetchAbort : JsError :=
  DOMException "AbortError" "This operation was aborted".

(** Every call hangs until the timeout timer aborts it; the caller does
    not cancel. *)
Definition alwaysTimesOut : Fetch :=
  fun _ => {| settled := inr fetchAbort;
              timerFired := true;
              callerAborted := false |}.

(** The caller aborts its signal during the first call; the timer never
    fires. *)
Definition callerCancels : Fetch :=
  fun _ => {| settled := inr fetchAbort;
              timerFired := false;
              callerAborted := true |}.

Definition serverError (text : string) : Response := {|
  resp_status := 500;
  resp_statusText := "Internal Server Error";
  resp_headers := [("content-type", "text/plain")];
  resp_json := inr (Error "Unexpected token");
  resp_text := inl text |}.

Definition alwaysServerError : Fetch :=
  fun n => {| settled := inl (serverError "boom");
              timerFired := false;
              callerAborted := false |}.

(** Three attempts, but only 429 is retried. *)
Definition only429 : WorkflowClientRetryConfig := {|
  opt_maxAttempts := Some 3;
  opt_initialDelayMs := None;
  opt_backoffFactor := None;
  opt_maxDelayMs := None;
  opt_retryOnStatuses := Some [429] |}.

Definition only429Options : RequestOptions := {|
  ro_method := Some "GET";
  ro_headers := None;
  ro_body := None;
  ro_retry := Some only429;
  ro_timeoutMs := None;
  ro_signal := false |}.

(** A client whose custom headers spell [Accept] in lower case. *)
Definition lowerAcceptClient : HttpClient :=
  newHttpClient {|
    opt_baseUrl := "https://api.example.com";
    opt_apiKey := "sts_test_key";
    opt_timeoutMs := None;
    opt_defaultHeaders := Some [("accept", "text/plain")];
    opt_retry := None;
    opt_userAgentSuffix := None |}.

End Scenario.

(* ------------------------------------------------------------------ *)
(** ** Specification-side definitions for the transport layer *)

Module HttpSpec.
Import Http.

(** The value of the last pair of [pairs] whose name matches [name]
    case-insensitively. *)
Definition lastValue (name : string) (pairs : list (string * string))
    : option string :=
  fold_left
    (fun acc kv => if Headers.name_eqb (fst kv) name then Some (snd kv) else acc)
    pairs None.

(** The message of the error that [performRequest] throws on a timeout. *)
Definition timeoutMessage (timeoutMs : Z) (method url : string) : string :=
  "Request aborted after " ++ Js.numberToString timeoutMs
  ++ "ms (" ++ method ++ " " ++ url ++ ")".

End HttpSpec.

(* ------------------------------------------------------------------ *)
(** ** Specification-side definitions for the client *)

Module ClientSpec.
Import Js Errors Client.

Definition statusRequest (task : string) : HttpRequest :=
  {| path := "/api/v1/status?" ++ ("taskId=" ++ formEncode task);
     method := "GET"; body := None |}.

Fixpoint observedFrom (world : World) (q : nat) (k : nat)
    : list TaskStatusResponse :=
  match k with
  | O => []
  | S k' =>
      match world.(http) q with
      | inl r => r :: observedFrom world (S q) k'
      | inr _ => observedFrom world (S q) k'
      end
  end.

(** The records that open a run of equal statuses: a record is kept when
    its status differs from the status of the record just before it
    ([previous]; the first record is always kept). *)
Fixpoint changes (previous : option WorkflowStatus)
    (l : list TaskStatusResponse) : list TaskStatusResponse :=
  match l with
  | [] => []
  | r :: rest =>
      ((if differs r.(status) previous then [r] else [])
       ++ changes (Some r.(status)) rest)%list
  end.

Definition stopping (options : WaitForCompletionOptions)
    (r : TaskStatusResponse) : bool :=
  has (orElse options.(terminalStatuses) TERMINAL_STATUSES) r.(status)
  || (status_eqb r.(status) WAITING && orElse options.(exitOnWaiting) false).

Definition maxWaitOf (options : WaitForCompletionOptions) : Z :=
  orElse options.(maxWaitTimeMs) DEFAULT_MAX_WAIT_TIME_MS.

(** The loop went past its last status call: there was none, or it was
    answered with a record that does not stop the wait. *)
Definition lastContinues (world : World) (options : WaitForCompletionOptions)
    (q k : nat) : Prop :=
  k = 0%nat
  \/ exists j r, k = S j /\ world.(http) (q + j)%nat = inl r
                 /\ stopping options r = false.

(** How a run of the polling loop that issued [k] status calls, the first
    being call number [q], can end. *)
Definition pollExit (world : World) (task : string)
    (options : WaitForCompletionOptions) (q k : nat)
    (out : Outcome TaskStatusResponse) : Prop :=
  match out with
  | Returned r =>
      exists j, k = S j /\ world.(http) (q + j)%nat = inl r
                /\ stopping options r = true
  | Threw e =>
      (exists sig, options.(signal) = Some sig /\ e = abortedError sig
                   /\ lastContinues world options q k)
      \/ (e = Error "taskId must be a non-empty string" /\ trim task = ""
          /\ lastContinues world options q k)
      \/ (exists j, k = S j /\ world.(http) (q + j)%nat = inr e)
      \/ (exists j r, k = S j /\ world.(http) (q + j)%nat = inl r
                      /\ stopping options r = false
                      /\ e = pollTimeoutError (maxWaitOf options) task
                               r.(status))
  | OutOfFuel => lastContinues world options q k
  end.

(** The error has the shape of the poll-timeout error. *)
Definition isPollTimeout (e : JsError) : bool :=
  match e with
  | WorkflowAPIError _ status statusText _ _ _ _ =>
      (status =? 0) && String.eqb statusText "POLL_TIMEOUT"
  | _ => false
  end.

(** The parts of the state that only transport calls, callbacks and clock
    readings change. *)
Definition sameLog (st st' : St) : Prop :=
  st'.(requests) = st.(requests) /\ st'.(updates) = st.(updates)
  /\ st'.(waits) = st.(waits) /\ st'.(clockReads) = st.(clockReads).

(** The wait is not cancelled: no signal was supplied, or the signal is
    never seen aborted. *)
Definition uncancelled (world : World) (signal : option AbortSignal) : Prop :=
  signal = None \/ forall n, world.(aborted) n = false.

(** *** Concrete worlds used by the witnesses *)

Definition record (s : WorkflowStatus) : TaskStatusResponse :=
  {| taskId := "task-1"; status := s; eventLogs := Some [] |}.

Definition noMoreReplies : JsError :=
  Error "Unexpected fetch call with no resolvers remaining".

(** The clock advances by one millisecond per reading, the signal is never
    aborted and the handler always resumes. *)
Definition worldOf (replies : list (TaskStatusResponse + JsError)) : World := {|
  http := fun n => nth n replies (inr noMoreReplies);
  now := fun n => Z.of_nat n;
  aborted := fun _ => false;
  onWaiting := fun _ => true |}.

Definition converging : World :=
  worldOf [inl (record PENDING); inl (record RUNNING); inl (record COMPLETED)].

Definition stillRunning : World :=
  worldOf [inl (record PENDING); inl (record RUNNING); inl (record RUNNING)].

Definition doneAtOnce : World := worldOf [inl (record COMPLETED)].

Definition approval : World :=
  worldOf [inl (record PENDING); inl (record WAITING); inl (record RUNNING);
           inl (record COMPLETED)].

Definition waitOptionsOf (maxWait : option Z) : WaitForCompletionOptions := {|
  pollIntervalMs := Some 0;
  maxWaitTimeMs := maxWait;
  terminalStatuses := None;
  exitOnWaiting := None;
  signal := None;
  onUpdate := true |}.

Definition workflowInput : ExecuteWorkflowInput :=
  {| workflowId := "workflow-1"; input := Some (JObj []); uniqueId := None |}.

(** *** The rounds of the resume loop

    A round is one wait with [exitOnWaiting] forced, followed by a call of
    the handler when the wait returned a WAITING record. *)

Section Rounds.

Variable world : World.
Variable pollFuel : nat.
Variable task : string.
Variable o : WaitForCompletionOptions.

Definition roundWait : M TaskStatusResponse :=
  waitForCompletion world pollFuel task (forceExitOnWaiting o).

(** The state once the handler was called on [w]. *)
Definition handlerCalled (w : TaskStatusResponse) (st : St) : St :=
  snd (callOnWaiting world w st).

(** The round that starts at [st] is followed by another one: its wait
    returns a WAITING record and the handler answers true.  The result is
    the state at which the next round starts. *)
Definition resumes (st : St) : option St :=
  match roundWait st with
  | (Returned w, st1) =>
      if status_eqb w.(status) WAITING
         && world.(onWaiting) (List.length st1.(waits))
      then Some (handlerCalled w st1)
      else None
  | _ => None
  end.

(** [n] rounds in a row, each followed by another one. *)
Fixpoint resumed (n : nat) (st : St) : option St :=
  match n with
  | O => Some st
  | S n' =>
      match resumes st with
      | Some st' => resumed n' st'
      | None => None
      end
  end.

(** What a round that is not followed by another one gives: the record of
    its wait, the handler having been called when that record is WAITING,
    or the failure of its wait. *)
Definition lastRound (st : St) : Outcome TaskStatusResponse * St :=
  match roundWait st with
  | (Returned r, st1) =>
      (Returned r,
       if status_eqb r.(status) WAITING then handlerCalled r st1 else st1)
  | failed => failed
  end.

End Rounds.

End ClientSpec.

(* ------------------------------------------------------------------ *)
(** ** Specification-side definitions for retries *)

Module RetrySpec.
Import Js Errors Http.

(** The attempt fails in a way that the loop answers, while attempts
    remain, by sleeping and trying again: a failure status of
    [retryOnStatuses], or a thrown error that is classified as a transient
    network error. *)
Definition retried (url : string) (resolved : NormalizedRequestInit)
    (a : Attempt) : bool :=
  match performRequest a url resolved.(n_method) resolved.(n_signal)
          resolved.(n_timeoutMs) with
  | inl response =>
      negb (ok response)
      && shouldRetry response.(resp_status) resolved.(n_retry)
  | inr error =>
      negb (isWorkflowAPIError error) && isRetryableNetworkError error
  end.

(** The error [request] throws when the attempt is the last one. *)
Definition finalError (url : string) (resolved : NormalizedRequestInit)
    (requestDescriptor : WorkflowAPIErrorRequest) (a : Attempt) : JsError :=
  match performRequest a url resolved.(n_method) resolved.(n_signal)
          resolved.(n_timeoutMs) with
  | inl response => toWorkflowError response requestDescriptor
  | inr error =>
      newWorkflowAPIError {|
        init_message :=
          orElse (message_of error) "Request failed without a message";
        init_status := 0;
        init_statusText := Some "NETWORK_ERROR";
        init_data := Some JNull;
        init_headers := Some (AsRecord JsObject.empty);
        init_request := requestDescriptor;
        init_cause := Some error |}
  end.

(** The request descriptor that [request] attaches to its errors. *)
Definition descriptorOf (this : HttpClient) (path : string)
    (init : RequestOptions) : WorkflowAPIErrorRequest := {|
  req_method := toUpperCase (normalizeInit this init).(n_method);
  req_url := resolveUrl this path;
  req_body := prepareDebugBody init.(ro_body) |}.

(** *** Concrete fetch worlds *)

Definition okJson (value : Json) : Response := {|
  resp_status := 200;
  resp_statusText := "OK";
  resp_headers := [("content-type", "application/json")];
  resp_json := inl value;
  resp_text := inl "" |}.

Definition response (status : Z) (statusText text : string) : Response := {|
  resp_status := status;
  resp_statusText := statusText;
  resp_headers := [("content-type", "text/plain")];
  resp_json := inr (Error "Unexpected token");
  resp_text := inl text |}.

Definition answered (r : Response) : Attempt :=
  {| settled := inl r; timerFired := false; callerAborted := false |}.

Definition failed (e : JsError) : Attempt :=
  {| settled := inr e; timerFired := false; callerAborted := false |}.

(** A 503, then a connection reset, then a JSON success. *)
Definition recovers : Fetch :=
  fun n =>
    match n with
    | 0%nat => answered (response 503 "Service Unavailable" "busy")
    | 1%nat => failed (Error "read ECONNRESET")
    | _ => answered (okJson (JObj [("taskId", JStr "task-1")]))
    end.

(** The connection is reset on every call. *)
Definition alwaysReset : Fetch := fun _ => failed (Error "read ECONNRESET").

Definition notFound : Fetch :=
  fun _ => answered (response 404 "Not Found" "no such task").

(** A 200 that announces JSON and whose body does not parse. *)
Definition garbled : Response := {|
  resp_status := 200;
  resp_statusText := "OK";
  resp_headers := [("Content-Type", "application/json; charset=utf-8")];
  resp_json := inr (Error "Unexpected end of JSON input");
  resp_text := inl "{" |}.

End RetrySpec.

(* ------------------------------------------------------------------ *)
(** ** Specification-side definitions for headers and classification *)

Module MergeSpec.
Import Js Errors Http.

(** Some pair of [pairs] has a name that matches [name]
    case-insensitively. *)
Definition mentions (name : string) (pairs : list (string * string)) : bool :=
  existsb (fun kv => Headers.name_eqb (fst kv) name) pairs.

(** The body is an object for [typeof] and none of the binary classes. *)
Definition structured (body : option Body) : bool :=
  typeofObject body && negb (isBinary body).

Definition upperMarkers : list string :=
  ["ECONNRESET"; "ENOTFOUND"; "EAI_AGAIN"; "ETIMEDOUT"].

(** Options that give the API key only. *)
Definition keyOnly (key : string) : Construct.WorkflowClientOptions := {|
  Construct.wc_baseUrl := None;
  Construct.wc_apiKey := key;
  Construct.wc_timeoutMs := None;
  Construct.wc_defaultHeaders := None;
  Construct.wc_retry := None;
  Construct.wc_userAgentSuffix := None |}.

End MergeSpec.

(* ------------------------------------------------------------------ *)
(** ** Specification-side definitions for the client operations *)

Module OperationSpec.
Import Js Errors Client ClientSpec.

(** What a transport call settles to, as the outcome of the operation that
    awaits it. *)
Definition settle (reply : TaskStatusResponse + JsError)
    : Outcome TaskStatusResponse :=
  match reply with
  | inl r => Returned r
  | inr e => Threw e
  end.

(** The body of the trigger call. *)
Definition triggerPayload (i : ExecuteWorkflowInput) (value : Json) : Json :=
  JObj ([("workflowId", JStr i.(workflowId))]
        ++ optionalField "uniqueId" i.(uniqueId)
        ++ [("input", value)])%list.

Definition triggerRequest (i : ExecuteWorkflowInput) (value : Json)
    : HttpRequest :=
  {| path := "/api/v1"; method := "POST";
     body := Some (triggerPayload i value) |}.

Definition continueRequest (params : ContinueTaskInput) : HttpRequest :=
  {| path := "/api/v1/continue"; method := "POST";
     body :=
       Some (JObj ([("taskId", JStr params.(ct_taskId));
                    ("type", JStr (decisionName params.(ct_decision)))]
                   ++ optionalField "message" params.(ct_message))%list) |}.

Definition blankTaskId : JsError := Error "taskId must be a non-empty string".

(** *** Concrete worlds with a signal *)

Definition userAbort : AbortSignal :=
  {| reason := DOMException "AbortError" "cancelled by the user" |}.

(** The signal is seen aborted from its [k]-th look on. *)
Definition abortedFrom (k : nat) (replies : list (TaskStatusResponse + JsError))
    : World := {|
  http := fun n => nth n replies (inr noMoreReplies);
  now := fun n => Z.of_nat n;
  aborted := fun n => Nat.leb k n;
  onWaiting := fun _ => true |}.

Definition signalledOptions : WaitForCompletionOptions := {|
  pollIntervalMs := Some 0;
  maxWaitTimeMs := None;
  terminalStatuses := None;
  exitOnWaiting := None;
  signal := Some userAbort;
  onUpdate := true |}.

Definition approveTask : ContinueTaskInput :=
  {| ct_taskId := "task-1"; ct_decision := APPROVE; ct_message := None |}.

End OperationSpec.

(* ------------------------------------------------------------------ *)
(** ** Properties of the [Headers] model *)

Module HeadersProofs.
Import Headers.

Lemma name_eqb_true : forall a b,
  name_eqb a b = true <-> Js.toLowerCase a = Js.toLowerCase b.
Proof. intros a b. unfold name_eqb. apply String.eqb_eq. Qed.

Lemma name_eqb_left : forall a b c,
  name_eqb a b = true -> name_eqb a c = name_eqb b c.
Proof.
  intros a b c H. apply name_eqb_true in H. unfold name_eqb. rewrite H.
  reflexivity.
Qed.

Lemma name_eqb_right : forall a b c,
  name_eqb a b = true -> name_eqb c a = name_eqb c b.
Proof.
  intros a b c H. apply name_eqb_true in H. unfold name_eqb. rewrite H.
  reflexivity.
Qed.

Lemma values_of_cons : forall n v h name,
  values_of ((n, v) :: h) name
  = if name_eqb n name then v :: values_of h name else values_of h name.
Proof.
  intros n v h name. unfold values_of. cbn [filter]. unfold matches at 1.
  cbn [fst]. destruct (name_eqb n name); reflexivity.
Qed.

(** [get] gives the values of the name, joined, when there are any. *)
Lemma get_values : forall h name,
  get h name
  = match values_of h name with
    | [] => None
    | l => Some (String.concat ", " l)
    end.
Proof.
  intros h name. unfold get.
  induction h as [|[n v] h IH].
  - reflexivity.
  - rewrite values_of_cons. unfold contains. cbn [existsb].
    unfold matches at 1. cbn [fst].
    destruct (name_eqb n name); cbn [orb]; [reflexivity|].
    exact IH.
Qed.

Lemma values_of_removed : forall h name name',
  values_of (filter (fun p => negb (matches name p)) h) name'
  = if name_eqb name name' then [] else values_of h name'.
Proof.
  intros h name name'.
  induction h as [|[n v] h IH].
  - destruct (name_eqb name name'); reflexivity.
  - cbn [filter]. unfold matches at 1. cbn [fst].
    destruct (name_eqb n name) eqn:E; cbn [negb].
    + rewrite IH, values_of_cons, (name_eqb_left _ _ name' E).
      destruct (name_eqb name name'); reflexivity.
    + rewrite !values_of_cons, IH.
      destruct (name_eqb name name') eqn:E'; [|reflexivity].
      rewrite <- (name_eqb_right _ _ n E'), E. reflexivity.
Qed.

(** After [set], the name has the new value alone and the other names
    keep theirs. *)
Lemma values_of_set : forall h name v name',
  values_of (set h name v) name'
  = if name_eqb name name' then [v] else values_of h name'.
Proof.
  intros h name v name'.
  induction h as [|[n x] h IH].
  - cbn [set]. rewrite values_of_cons.
    destruct (name_eqb name name'); reflexivity.
  - cbn [set]. destruct (name_eqb n name) eqn:E.
    + rewrite !values_of_cons, values_of_removed,
        (name_eqb_left _ _ name' E).
      destruct (name_eqb name name'); reflexivity.
    + rewrite !values_of_cons, IH.
      destruct (name_eqb name name') eqn:E'; [|reflexivity].
      rewrite <- (name_eqb_right _ _ n E'), E. reflexivity.
Qed.

End HeadersProofs.

(* ------------------------------------------------------------------ *)
(** ** Properties of the transport layer *)

Module HttpProofs.
Import Js Errors Http HttpSpec Scenario HeadersProofs.

Lemma values_of_name : forall h a b,
  Headers.name_eqb a b = true ->
  Headers.values_of h a = Headers.values_of h b.
Proof.
  intros h a b H. unfold Headers.values_of. f_equal.
  apply filter_ext. intros [n v]. unfold Headers.matches. cbn [fst].
  apply name_eqb_right. exact H.
Qed.

Lemma lastValue_snoc : forall name pairs k v,
  lastValue name (pairs ++ [(k, v)])
  = if Headers.name_eqb k name then Some v else lastValue name pairs.
Proof.
  intros name pairs k v. unfold lastValue. rewrite fold_left_app.
  reflexivity.
Qed.

(** After the per-call pairs are set one by one, a name that occurs among
    them has the value of its last occurrence, alone. *)
Lemma values_of_setAll : forall pairs h name,
  Headers.values_of (setAll h pairs) name
  = match lastValue name pairs with
    | Some v => [v]
    | None => Headers.values_of h name
    end.
Proof.
  induction pairs as [|[k v] pairs IH] using rev_ind; intros h name.
  - reflexivity.
  - rewrite lastValue_snoc. unfold setAll. rewrite fold_left_app.
    cbn [fold_left fst snd]. rewrite values_of_set.
    destruct (Headers.name_eqb k name); [reflexivity|]. apply IH.
Qed.

(** Per-call headers given as pairs or as a record replace whatever the
    client holds under the same name, compared case-insensitively: the
    request is sent with the value of the last per-call entry of that
    name. *)
Lemma per_call_header_wins :
  forall (this : HttpClient) (pairs : list (string * string))
         (body : option Body) (name v : string),
    lastValue name pairs = Some v ->
    Headers.get (mergeHeaders this (Some (HArray pairs)) body) name = Some v
    /\ Headers.get (mergeHeaders this (Some (HRecord pairs)) body) name
       = Some v.
Proof.
  intros this pairs body name v Hlast.
  assert (G : forall h,
            Headers.values_of h name = [v] ->
            Headers.get
              (if negb (isNullish body) && typeofObject body
                  && negb (isBinary body)
                  && match Headers.get h "content-type" with
                     | None => true
                     | Some _ => false
                     end
               then Headers.set h "Content-Type" "application/json"
               else h) name = Some v).
  { intros h Hv.
    destruct (negb (isNullish body) && typeofObject body
              && negb (isBinary body)); cbn [andb];
      [|rewrite get_values, Hv; reflexivity].
    destruct (Headers.get h "content-type") eqn:Hct;
      [rewrite get_values, Hv; reflexivity|].
    rewrite get_values, values_of_set.
    destruct (Headers.name_eqb "Content-Type" name) eqn:E.
    - rewrite get_values in Hct.
      rewrite (values_of_name h "content-type" name E), Hv in Hct.
      discriminate.
    - rewrite Hv. reflexivity. }
  unfold mergeHeaders. split; apply G; unfold JsObject.entries;
    rewrite values_of_setAll, Hlast; reflexivity.
Qed.

(** A call whose first attempt is aborted by the timeout timer, the
    caller's signal not being aborted, ends after that attempt, without a
    backoff sleep, unless the message of the timeout error happens to hold
    one of the retryable markers. *)
Lemma timeout_fails_after_one_attempt :
  forall (this : HttpClient) (fetchImpl : Fetch) (path : string)
         (init : RequestOptions) (e : JsError),
    let resolved := normalizeInit this init in
    let message :=
      timeoutMessage resolved.(n_timeoutMs) resolved.(n_method)
        (resolveUrl this path) in
    1 <= resolved.(n_retry).(maxAttempts) ->
    (fetchImpl 0%nat).(settled) = inr e ->
    (fetchImpl 0%nat).(timerFired) = true ->
    init.(ro_signal) && (fetchImpl 0%nat).(callerAborted) = false ->
    isRetryableNetworkError (Error message) = false ->
    exists descriptor t,
      request this fetchImpl path init start
      = (Threw (WorkflowAPIError message 0 "NETWORK_ERROR" [] JNull
                  descriptor (Some (Error message))), t)
      /\ List.length t.(calls) = 1%nat
      /\ t.(sleeps) = [].
Proof.
  intros this fetchImpl path init e resolved message Hmax Hset Htimer Hsig Hcls.
  unfold request. fold resolved.
  destruct (Z.to_nat (maxAttempts (n_retry resolved))) as [|fuel] eqn:Hfuel;
    [lia|].
  cbn [attemptLoop].
  replace (1 <=? maxAttempts (n_retry resolved)) with true
    by (symmetry; apply Z.leb_le; lia).
  unfold tryAttempt, performRequest. cbn [calls start List.length].
  rewrite Hset, Htimer. cbn [n_signal resolved normalizeInit].
  rewrite Hsig. cbn [orb].
  fold resolved. fold (timeoutMessage (n_timeoutMs resolved)
                         (n_method resolved) (resolveUrl this path)).
  fold message. cbn [isWorkflowAPIError].
  rewrite Hcls, andb_false_r. cbn [andb].
  do 2 eexists. split; [reflexivity|]. split; reflexivity.
Qed.


Section Loop.

Variable fetchImpl : Fetch.
Variable url : string.
Variable headers : Headers.t.
Variable resolved : NormalizedRequestInit.
Variable requestDescriptor : WorkflowAPIErrorRequest.

Local Abbreviation loop :=
  (attemptLoop fetchImpl url headers resolved requestDescriptor).
Local Abbreviation thisCall :=
  {| call_url := url; call_method := resolved.(n_method);
     call_headers := headers |}.

(** A retryable status before the last attempt: sleep, then go on. *)
Lemma attemptLoop_retry_status :
  forall fuel attempt t response,
    attempt < resolved.(n_retry).(maxAttempts) ->
    (fetchImpl (List.length t.(calls))).(settled) = inl response ->
    ok response = false ->
    shouldRetry response.(resp_status) resolved.(n_retry) = true ->
    loop (S fuel) attempt t
    = loop fuel (attempt + 1)
        (delayWithBackoff attempt resolved.(n_retry) (logCall thisCall t)).
Proof.
  intros fuel attempt t response Hlt Hsettled Hok Hretry.
  cbn [attemptLoop].
  replace (attempt <=? maxAttempts (n_retry resolved)) with true
    by (symmetry; apply Z.leb_le; lia).
  unfold tryAttempt, performRequest. rewrite Hsettled, Hok, Hretry.
  replace (attempt <? maxAttempts (n_retry resolved)) with true
    by (symmetry; apply Z.ltb_lt; lia).
  reflexivity.
Qed.

(** A failure status on the last attempt: the error of that response. *)
Lemma attemptLoop_last_status :
  forall fuel t response,
    (fetchImpl (List.length t.(calls))).(settled) = inl response ->
    ok response = false ->
    loop (S fuel) resolved.(n_retry).(maxAttempts) t
    = (Threw (toWorkflowError response requestDescriptor),
       logCall thisCall t).
Proof.
  intros fuel t response Hsettled Hok.
  cbn [attemptLoop].
  rewrite Z.leb_refl.
  unfold tryAttempt, performRequest. rewrite Hsettled, Hok.
  rewrite Z.ltb_irrefl. reflexivity.
Qed.

(** Whatever [request] throws is a [WorkflowAPIError]. *)
Lemma attemptLoop_throws_WorkflowAPIError :
  forall fuel attempt t e t',
    loop fuel attempt t = (Threw e, t') -> isWorkflowAPIError e = true.
Proof.
  induction fuel as [|fuel IH]; intros attempt t e t'; cbn [attemptLoop].
  - destruct (attempt <=? _); intros H; inversion H; reflexivity.
  - destruct (attempt <=? _); [|intros H; inversion H; reflexivity].
    destruct (tryAttempt _ _ _ _ _) as [v| |error].
    + discriminate.
    + apply IH.
    + destruct (isWorkflowAPIError error) eqn:Hw.
      * intros H; inversion H; subst; exact Hw.
      * destruct (_ && _ && _); [apply IH|].
        intros H; inversion H; reflexivity.
Qed.

End Loop.

Lemma ok_500 : forall r, r.(resp_status) = 500 -> ok r = false.
Proof. intros r H. unfold ok. rewrite H. reflexivity. Qed.


(** Once the headers are merged and the body is serialised, no failure
    leaves [request] unwrapped: whatever its loop throws is a
    [WorkflowAPIError], so an abort error of the caller's signal never
    reaches the caller as it is. *)
Lemma request_throws_WorkflowAPIError :
  forall this fetchImpl path init t e t',
    request this fetchImpl path init t = (Threw e, t') ->
    isWorkflowAPIError e = true.
Proof.
  intros this fetchImpl path init t e t'. unfold request.
  apply attemptLoop_throws_WorkflowAPIError.
Qed.

(** The loop never runs out of the fuel [request] gives it. *)
Lemma attemptLoop_enough_fuel :
  forall fetchImpl url headers resolved d fuel attempt t,
    resolved.(n_retry).(maxAttempts) - attempt + 1 <= Z.of_nat fuel ->
    fst (attemptLoop fetchImpl url headers resolved d fuel attempt t)
    <> OutOfFuel.
Proof.
  intros fetchImpl url headers resolved d.
  induction fuel as [|fuel IH]; intros attempt t Hfuel; cbn [attemptLoop].
  - replace (attempt <=? _) with false
      by (symmetry; apply Z.leb_gt; lia).
    discriminate.
  - destruct (attempt <=? _); [|discriminate].
    destruct (tryAttempt _ _ _ _ _) as [v| |error]; cbn [fst].
    + discriminate.
    + apply IH. lia.
    + destruct (isWorkflowAPIError error); [discriminate|].
      destruct (_ && _ && _); [apply IH; lia|discriminate].
Qed.

Lemma request_terminates :
  forall this fetchImpl path init t,
    fst (request this fetchImpl path init t) <> OutOfFuel.
Proof.
  intros. unfold request. apply attemptLoop_enough_fuel. lia.
Qed.

(** C1 (evaluation at the failing input).  A GET of the status of task-1
    under the default policy (3 attempts) whose first call is aborted by
    the 30 s timeout timer, the caller's signal not being set: [request]
    makes one call, sleeps no backoff delay and fails at once with the
    status-0 NETWORK_ERROR error. *)
Theorem C1_timeout_fails_without_retry :
  (normalizeInit plainClient (getOptions false)).(n_retry).(maxAttempts) = 3
  /\ (alwaysTimesOut 0%nat).(timerFired) = true
  /\ (alwaysTimesOut 0%nat).(callerAborted) = false
  /\ exists timeoutError descriptor t,
       request plainClient alwaysTimesOut statusPath (getOptions false) start
       = (Threw (WorkflowAPIError
                   "Request aborted after 30000ms (GET https://api.example.com/api/v1/status?taskId=task-1)"
                   0 "NETWORK_ERROR" [] JNull descriptor (Some timeoutError)),
          t)
       /\ isRetryableNetworkError timeoutError = false
       /\ List.length t.(calls) = 1%nat
       /\ t.(sleeps) = [].
Proof.
  repeat split.
  do 3 eexists. vm_compute. repeat split.
Qed.

(** C2 (evaluation at the failing input).  The same GET with a signal that
    the caller aborts during the first call: the abort error of fetch is
    classified as retryable, [request] sleeps 1000 ms and 2000 ms, calls
    fetch three times, and then throws a status-0 NETWORK_ERROR
    [WorkflowAPIError] that holds the abort error as its cause. *)
Theorem C2_caller_abort_retried_and_wrapped :
  (callerCancels 0%nat).(callerAborted) = true
  /\ isRetryableNetworkError fetchAbort = true
  /\ exists descriptor t,
       request plainClient callerCancels statusPath (getOptions true) start
       = (Threw (WorkflowAPIError "This operation was aborted"
                   0 "NETWORK_ERROR" [] JNull descriptor (Some fetchAbort)),
          t)
       /\ List.length t.(calls) = 3%nat
       /\ t.(sleeps) = [1000; 2000].
Proof.
  repeat split.
  do 2 eexists. vm_compute. repeat split.
Qed.

(** C3 as stated fails: with [maxAttempts] = 3 and a policy that retries
    429 only, a server that answers 500 to every call is called once. *)
Lemma C3_counterexample :
  (normalizeInit plainClient only429Options).(n_retry).(maxAttempts) = 3
  /\ (forall n, exists r,
        (alwaysServerError n).(settled) = inl r /\ r.(resp_status) = 500)
  /\ List.length
       (snd (request plainClient alwaysServerError statusPath
               only429Options start)).(calls) = 1%nat.
Proof.
  split; [reflexivity|]. split.
  - intros n. eexists. split; reflexivity.
  - vm_compute. reflexivity.
Qed.

(** C3 (amended).  Under a policy with [maxAttempts] = 3 whose
    [retryOnStatuses] contains 500, a call that receives HTTP 500 on each
    attempt makes exactly three fetch calls, sleeps
    min(initialDelayMs * backoffFactor^(n-1), maxDelayMs) before
    re-attempt n = 1 and n = 2, and throws the [WorkflowAPIError] built
    from the third response: its status, status text, headers and parsed
    body. *)
Theorem C3_three_attempts_on_retryable_500 :
  forall (this : HttpClient) (fetchImpl : Fetch) (path : string)
         (init : RequestOptions) (r1 r2 r3 : Response),
    let retry := (normalizeInit this init).(n_retry) in
    retry.(maxAttempts) = 3 ->
    shouldRetry 500 retry = true ->
    (fetchImpl 0%nat).(settled) = inl r1 -> r1.(resp_status) = 500 ->
    (fetchImpl 1%nat).(settled) = inl r2 -> r2.(resp_status) = 500 ->
    (fetchImpl 2%nat).(settled) = inl r3 -> r3.(resp_status) = 500 ->
    exists message descriptor t,
      request this fetchImpl path init start
      = (Threw (WorkflowAPIError message 500 r3.(resp_statusText)
                  (normalizeHeaders (Some (AsHeaders r3.(resp_headers))))
                  (parseErrorBody r3) descriptor None),
         t)
      /\ List.length t.(calls) = 3%nat
      /\ t.(sleeps)
         = map (fun n =>
                  Z.min (retry.(initialDelayMs) * retry.(backoffFactor) ^ (n - 1))
                        retry.(maxDelayMs))
             [1; 2].
Proof.
  intros this fetchImpl path init r1 r2 r3 retry Hmax Hretry
         H1 S1 H2 S2 H3 S3.
  unfold request. fold retry. rewrite Hmax.
  change (Z.to_nat 3) with 3%nat.
  rewrite (attemptLoop_retry_status _ _ _ _ _ 2 1 start r1);
    [ | fold retry; lia | exact H1 | apply ok_500; exact S1
      | rewrite S1; exact Hretry ].
  rewrite (attemptLoop_retry_status _ _ _ _ _ 1 2 _ r2);
    [ | fold retry; lia | exact H2 | apply ok_500; exact S2
      | rewrite S2; exact Hretry ].
  replace (2 + 1) with (maxAttempts (n_retry (normalizeInit this init)))
    by (fold retry; lia).
  rewrite (attemptLoop_last_status _ _ _ _ _ 0 _ r3);
    [ | exact H3 | apply ok_500; exact S3 ].
  unfold toWorkflowError, newWorkflowAPIError. cbn [init_message init_status
    init_statusText init_headers init_data init_request init_cause].
  rewrite S3.
  do 3 eexists. split; [reflexivity|]. split; reflexivity.
Qed.

Lemma C3_three_attempts_on_retryable_500_witness :
  exists message descriptor t,
    request plainClient alwaysServerError statusPath (getOptions false) start
    = (Threw (WorkflowAPIError message 500 "Internal Server Error"
                (normalizeHeaders (Some (AsHeaders [("content-type", "text/plain")])))
                (parseErrorBody (serverError "boom")) descriptor None),
       t)
    /\ List.length t.(calls) = 3%nat
    /\ t.(sleeps) = [1000; 2000].
Proof.
  apply (C3_three_attempts_on_retryable_500 plainClient alwaysServerError
           statusPath (getOptions false)
           (serverError "boom") (serverError "boom") (serverError "boom"));
    reflexivity.
Defined.

(** C8 (evaluation at the failing input).  The client is built with the
    custom header [accept: text/plain]; a request without headers of its
    own is sent with the built-in default and the custom value combined
    under [Accept], not with the custom value alone. *)
Theorem C8_custom_header_in_other_case_is_combined :
  plainClient.(defaultHeaders)
  = [("Accept", "application/json");
     ("User-Agent", "syncteams-sdk/0.1.0");
     ("x-api-key", "sts_test_key")]
  /\ lowerAcceptClient.(defaultHeaders)
     = [("Accept", "application/json");
        ("User-Agent", "syncteams-sdk/0.1.0");
        ("x-api-key", "sts_test_key");
        ("accept", "text/plain")]
  /\ Headers.get (mergeHeaders lowerAcceptClient None None) "Accept"
     = Some "application/json, text/plain".
Proof. repeat split. Qed.

End HttpProofs.

(* ------------------------------------------------------------------ *)
(** ** Properties of the workflow client *)

Module ClientProofs.
Import Js Errors Client ClientSpec.

Section Primitives.

Variable world : World.

Lemma sameLog_refl : forall st, sameLog st st.
Proof. intros st. repeat split. Qed.

Lemma sameLog_trans :
  forall a b c, sameLog a b -> sameLog b c -> sameLog a c.
Proof.
  unfold sameLog. intros a b c (H1 & H2 & H3 & H4) (K1 & K2 & K3 & K4).
  repeat split; congruence.
Qed.

Lemma lookAborted_sameLog :
  forall st, sameLog st (snd (lookAborted world st)).
Proof. intros st. repeat split. Qed.

Lemma sleep_inv :
  forall ms sig st o st',
    sleep world ms sig st = (o, st') ->
    sameLog st st'
    /\ (o = Returned tt
        \/ exists s, sig = Some s /\ o = Threw (abortedError s)).
Proof.
  intros ms [s|] st o st'; unfold sleep.
  - unfold bind, lookAborted, throw, timerElapsed. cbn.
    destruct (aborted world (signalLooks st)); cbn.
    + intros H; inversion H; subst. split; [repeat split|eauto].
    + destruct (aborted world (S (signalLooks st))); cbn;
        intros H; inversion H; subst; (split; [repeat split|eauto]).
  - unfold timerElapsed. intros H; inversion H; subst.
    split; [repeat split|auto].
Qed.

Lemma assertString_inv :
  forall value field st o st',
    assertString value field st = (o, st') ->
    st' = st
    /\ ((o = Returned tt /\ trim value <> "")
        \/ (o = Threw (Error (field ++ " must be a non-empty string"))
            /\ trim value = "")).
Proof.
  intros value field st o st'. unfold assertString.
  destruct (String.eqb_spec (trim value) ""); unfold throw, ret;
    intros H; inversion H; subst; auto.
Qed.

Lemma getTaskStatus_inv :
  forall task st o st',
    getTaskStatus world task st = (o, st') ->
    (st' = st /\ trim task = ""
     /\ o = Threw (Error "taskId must be a non-empty string"))
    \/ (st'.(requests) = (st.(requests) ++ [statusRequest task])%list
        /\ st'.(updates) = st.(updates) /\ st'.(waits) = st.(waits)
        /\ st'.(clockReads) = st.(clockReads)
        /\ match world.(http) (List.length st.(requests)) with
           | inl r => o = Returned r
           | inr e => o = Threw e
           end).
Proof.
  intros task st o st'. unfold getTaskStatus, bind.
  destruct (assertString task "taskId" st) as [a st1] eqn:Ha.
  apply assertString_inv in Ha. destruct Ha as [-> [[-> Hne]|[-> He]]].
  - unfold httpRequest. right.
    destruct (http world (List.length (requests st))) eqn:Hh;
      inversion H; subst; cbn; repeat split; reflexivity.
  - intros H; inversion H; subst. left. auto.
Qed.

Lemma bind_inv :
  forall (A B : Type) (m : M A) (k : A -> M B) st out st',
    bind m k st = (out, st') ->
    (exists a st1, m st = (Returned a, st1) /\ k a st1 = (out, st'))
    \/ (exists e, m st = (Threw e, st') /\ out = Threw e)
    \/ (m st = (OutOfFuel, st') /\ out = OutOfFuel).
Proof.
  intros A B m k st out st'. unfold bind.
  destruct (m st) as [[a|e|] st1]; intros H.
  - left. eauto.
  - inversion H; subst. right; left. eauto.
  - inversion H; subst. right; right. auto.
Qed.

Lemma dateNow_inv :
  forall st o st',
    dateNow world st = (o, st') ->
    o = Returned (world.(now) st.(clockReads))
    /\ st'.(requests) = st.(requests) /\ st'.(updates) = st.(updates)
    /\ st'.(waits) = st.(waits) /\ st'.(clockReads) = S st.(clockReads).
Proof.
  intros st o st'. unfold dateNow. intros H; inversion H; subst.
  repeat split.
Qed.

Lemma fireOnUpdate_inv :
  forall (changed onUpdate : bool) r st o st',
    (if changed then fireOnUpdate onUpdate r else ret tt) st = (o, st') ->
    o = Returned tt
    /\ st'.(requests) = st.(requests)
    /\ st'.(updates)
       = (st.(updates) ++ (if changed && onUpdate then [r] else []))%list
    /\ st'.(waits) = st.(waits) /\ st'.(clockReads) = st.(clockReads).
Proof.
  intros [|] [|] r st o st'; unfold fireOnUpdate, ret;
    intros H; inversion H; subst; cbn; rewrite ?app_nil_r; repeat split.
Qed.

Lemma bind_returned :
  forall (A B : Type) (m : M A) (k : A -> M B) st a st1,
    m st = (Returned a, st1) -> bind m k st = k a st1.
Proof. intros A B m k st a st1 H. unfold bind. rewrite H. reflexivity. Qed.

Lemma sleep_uncancelled :
  forall ms sig st,
    uncancelled world sig ->
    exists st', sleep world ms sig st = (Returned tt, st') /\ sameLog st st'.
Proof.
  intros ms [s|] st [Hq|Hq]; unfold sleep; try discriminate.
  - unfold bind, lookAborted, timerElapsed. cbn. rewrite !Hq.
    eexists. split; [reflexivity|repeat split].
  - unfold timerElapsed. eexists. split; [reflexivity|repeat split].
  - unfold timerElapsed. eexists. split; [reflexivity|repeat split].
Qed.

Lemma getTaskStatus_returned :
  forall task st r,
    trim task <> "" ->
    world.(http) (List.length st.(requests)) = inl r ->
    exists st',
      getTaskStatus world task st = (Returned r, st')
      /\ st'.(requests) = (st.(requests) ++ [statusRequest task])%list
      /\ st'.(updates) = st.(updates) /\ st'.(waits) = st.(waits)
      /\ st'.(clockReads) = st.(clockReads).
Proof.
  intros task st r Hne Hh. unfold getTaskStatus, bind, assertString.
  destruct (String.eqb_spec (trim task) ""); [contradiction|].
  unfold ret, httpRequest. rewrite Hh.
  eexists. split; [reflexivity|repeat split].
Qed.

End Primitives.

Section Poll.

Variable world : World.
Variable task : string.
Variable options : WaitForCompletionOptions.
Variable startedAt : Z.

Local Abbreviation loop := (pollLoop world task options startedAt).

Lemma throwIfAborted_inv :
  forall st o st',
    throwIfAborted world options st = (o, st') ->
    sameLog st st'
    /\ (o = Returned tt
        \/ exists sig, options.(signal) = Some sig
                       /\ o = Threw (abortedError sig)).
Proof.
  intros st o st'. unfold throwIfAborted.
  destruct (signal options) as [sig|].
  - unfold bind, lookAborted, throw, ret.
    destruct (aborted world (signalLooks st));
      intros H; inversion H; subst; (split; [repeat split|eauto]).
  - unfold ret. intros H; inversion H; subst.
    split; [apply sameLog_refl|auto].
Qed.

Lemma lastContinues_shift :
  forall q k r,
    world.(http) q = inl r -> stopping options r = false ->
    lastContinues world options (S q) k ->
    lastContinues world options q (S k).
Proof.
  intros q k r Hh Hs [->|(j & r' & -> & Hh' & Hs')]; right.
  - exists 0%nat, r. rewrite Nat.add_0_r. auto.
  - exists (S j), r'. rewrite Nat.add_succ_r. auto.
Qed.

Lemma pollExit_shift :
  forall q k r out,
    world.(http) q = inl r -> stopping options r = false ->
    pollExit world task options (S q) k out ->
    pollExit world task options q (S k) out.
Proof.
  intros q k r0 [r|e|] Hq Hs0; cbn [pollExit].
  - intros (j & -> & Hh & Hs). exists (S j).
    rewrite Nat.add_succ_r. auto.
  - intros [(sig & H1 & H2 & H3)|[(H1 & H2 & H3)
           |[(j & -> & Hh)|(j & r & -> & Hh & Hs & He)]]].
    + left. exists sig. eauto using lastContinues_shift.
    + right; left. eauto using lastContinues_shift.
    + right; right; left. exists (S j). rewrite Nat.add_succ_r. auto.
    + right; right; right. exists (S j), r. rewrite Nat.add_succ_r. auto.
  - eauto using lastContinues_shift.
Qed.

Lemma status_eqb_eq : forall a b, status_eqb a b = true -> a = b.
Proof. intros [] []; cbn; congruence. Qed.

Lemma status_eqb_refl : forall a, status_eqb a a = true.
Proof. intros []; reflexivity. Qed.

(** The status kept in [lastStatus] after a record is the status of that
    record, whether it changed or not. *)
Lemma lastStatus_after :
  forall s last,
    (if differs s last then Some s else last) = Some s.
Proof.
  intros s [l|]; cbn; [|reflexivity].
  destruct (status_eqb s l) eqn:E; cbn; [|reflexivity].
  apply status_eqb_eq in E. congruence.
Qed.

(** What any run of the polling loop did: it issued [k] status calls, fired
    the callback on the changes of status among the records it received,
    called no handler, read the clock at most once per status call, and
    ended in one of the ways of [pollExit]. *)
Lemma pollLoop_run :
  forall fuel last st out st',
    loop fuel last st = (out, st') ->
    exists k,
      st'.(requests) = (st.(requests) ++ repeat (statusRequest task) k)%list
      /\ st'.(updates)
         = (st.(updates)
            ++ (if options.(onUpdate)
                then changes last
                       (observedFrom world (List.length st.(requests)) k)
                else []))%list
      /\ st'.(waits) = st.(waits)
      /\ (st'.(clockReads) <= st.(clockReads) + k)%nat
      /\ pollExit world task options (List.length st.(requests)) k out.
Proof.
  induction fuel as [|fuel IH]; intros last st out st' Hrun.
  - inversion Hrun; subst. exists 0%nat. cbn.
    rewrite !app_nil_r. destruct (onUpdate options); rewrite ?app_nil_r.
    all: repeat split; auto; try lia.
    all: left; reflexivity.
  - cbn [pollLoop] in Hrun.
    apply bind_inv in Hrun.
    destruct Hrun as [(u & st0 & H0 & Hrun)|[(e & H0 & ->)|(H0 & ->)]];
      apply throwIfAborted_inv in H0;
      destruct H0 as [(L1 & L2 & L3 & L4) [Ho|(sig & Hsig & Ho)]];
      try discriminate.
    2:{ inversion Ho; subst. exists 0%nat. cbn.
        rewrite !app_nil_r, L1, L2, L3, L4.
        destruct (onUpdate options); rewrite ?app_nil_r.
        all: repeat split; auto; try lia.
        all: left; exists sig; repeat split; auto; left; reflexivity. }
    clear Ho u.
    apply bind_inv in Hrun.
    destruct Hrun as [(r & st1 & H1 & Hrun)|[(e & H1 & ->)|(H1 & ->)]];
      apply getTaskStatus_inv in H1;
      destruct H1 as [(-> & Hblank & Ho)|(R1 & R2 & R3 & R4 & Ho)];
      try discriminate.
    (* the call was issued and answered with [r] *)
    + rewrite L1 in Ho.
      destruct (http world (List.length (requests st))) as [r'|e'] eqn:Hh;
        inversion Ho; subst r'; clear Ho.
      apply bind_inv in Hrun.
      destruct Hrun as [(u & st2 & H2 & Hrun)|[(e & H2 & ->)|(H2 & ->)]];
        apply fireOnUpdate_inv in H2;
        destruct H2 as (Ho & U1 & U2 & U3 & U4); try discriminate.
      clear Ho u.
      change (has (orElse (terminalStatuses options) TERMINAL_STATUSES)
                (status r)
              || status_eqb (status r) WAITING
                 && orElse (exitOnWaiting options) false)
        with (stopping options r) in Hrun.
      change (orElse (maxWaitTimeMs options) DEFAULT_MAX_WAIT_TIME_MS)
        with (maxWaitOf options) in Hrun.
      assert (Hreq : requests st2 = (requests st ++ [statusRequest task])%list)
        by congruence.
      assert (Hupd : updates st2
                     = (updates st
                        ++ (if differs (status r) last && onUpdate options
                            then [r] else []))%list)
        by congruence.
      assert (Hwaits : waits st2 = waits st) by congruence.
      assert (Hclock : clockReads st2 = clockReads st) by congruence.
      clear L1 L2 L3 L4 R1 R2 R3 R4 U1 U2 U3 U4 st0 st1.
      destruct (stopping options r) eqn:Hstop.
      { (* a stopping status: the record is returned *)
        inversion Hrun; subst. exists 1%nat. cbn. rewrite Hh. cbn.
        rewrite Hreq, Hupd, Hwaits, Hclock.
        destruct (differs (status r) last), (onUpdate options); cbn.
        all: repeat split; auto; try lia.
        all: exists 0%nat; rewrite Nat.add_0_r; auto. }
      apply bind_inv in Hrun.
      destruct Hrun as [(t & st3 & H3 & Hrun)|[(e & H3 & ->)|(H3 & ->)]];
        apply dateNow_inv in H3;
        destruct H3 as (Ho & D1 & D2 & D3 & D4); try discriminate.
      clear Ho.
      destruct (t - startedAt >=? maxWaitOf options).
      { (* the deadline has passed *)
        inversion Hrun; subst. exists 1%nat. cbn. rewrite Hh. cbn.
        rewrite D1, D2, D3, D4, Hreq, Hupd, Hwaits, Hclock.
        destruct (differs (status r) last), (onUpdate options); cbn.
        all: repeat split; auto; try lia.
        all: right; right; right; exists 0%nat, r; rewrite Nat.add_0_r; auto. }
      apply bind_inv in Hrun.
      destruct Hrun as [(u & st4 & H4 & Hrun)|[(e & H4 & ->)|(H4 & ->)]];
        apply sleep_inv in H4;
        destruct H4 as [(S1 & S2 & S3 & S4) [Ho|(sig & Hsig & Ho)]];
        try discriminate.
      { (* the sleep ended: next iteration *)
        apply IH in Hrun.
        destruct Hrun as (k & K1 & K2 & K3 & K4 & K5).
        exists (S k).
        rewrite S1, D1, Hreq in K1. rewrite S1, D1, Hreq in K2, K5.
        rewrite S2, D2, Hupd in K2. rewrite S3, D3, Hwaits in K3.
        rewrite S4, D4, Hclock in K4.
        rewrite length_app, Nat.add_1_r in K2, K5.
        rewrite lastStatus_after in K2.
        split; [rewrite K1, <- app_assoc; reflexivity|].
        split.
        { rewrite K2, <- app_assoc. f_equal. cbn [observedFrom].
          rewrite Hh. cbn [changes].
          destruct (differs (status r) last), (onUpdate options);
            reflexivity. }
        split; [exact K3|]. split; [lia|].
        apply (pollExit_shift _ _ r); assumption. }
      { (* the sleep was interrupted *)
        inversion Ho; subst. exists 1%nat. cbn. rewrite Hh. cbn.
        rewrite S1, S2, S3, S4, D1, D2, D3, D4, Hreq, Hupd, Hwaits, Hclock.
        destruct (differs (status r) last), (onUpdate options); cbn.
        all: repeat split; auto; try lia.
        all: left; exists sig; repeat split; auto.
        all: right; exists 0%nat, r; rewrite Nat.add_0_r; auto. }
    + inversion Ho; subst. exists 0%nat. cbn.
      rewrite !app_nil_r, L1, L2, L3, L4.
      destruct (onUpdate options); rewrite ?app_nil_r.
      all: repeat split; auto; try lia.
      all: right; left; repeat split; auto; left; reflexivity.
    + rewrite L1 in Ho.
      destruct (http world (List.length (requests st))) as [r'|e'] eqn:Hh;
        inversion Ho; subst e'; clear Ho.
      exists 1%nat. cbn. rewrite Hh, R1, R2, R3, R4, L1, L2, L3, L4.
      destruct (onUpdate options); rewrite ?app_nil_r.
      all: repeat split; auto; try lia.
      all: right; right; left; exists 0%nat; rewrite Nat.add_0_r; auto.
    + rewrite L1 in Ho.
      destruct (http world (List.length (requests st))); discriminate.
Qed.

Lemma throwIfAborted_uncancelled :
  forall st,
    uncancelled world options.(signal) ->
    exists st',
      throwIfAborted world options st = (Returned tt, st') /\ sameLog st st'.
Proof.
  intros st Hq. unfold throwIfAborted.
  destruct (signal options) as [sig|].
  - destruct Hq as [Hq|Hq]; [discriminate|].
    unfold bind, lookAborted, ret. rewrite Hq.
    eexists. split; [reflexivity|repeat split].
  - unfold ret. eexists. split; [reflexivity|repeat split].
Qed.

(** One iteration up to the test of the status: the call is issued, the
    callback fired on a change. *)
Lemma iteration_head :
  forall fuel last st r,
    uncancelled world options.(signal) -> trim task <> "" ->
    world.(http) (List.length st.(requests)) = inl r ->
    exists st2,
      st2.(requests) = (st.(requests) ++ [statusRequest task])%list
      /\ st2.(updates)
         = (st.(updates)
            ++ (if differs r.(status) last && options.(onUpdate)
                then [r] else []))%list
      /\ st2.(waits) = st.(waits)
      /\ st2.(clockReads) = st.(clockReads)
      /\ loop (S fuel) last st
         = (if stopping options r then ret r
            else
              t <- dateNow world ;;
              if t - startedAt >=? maxWaitOf options then
                throw (pollTimeoutError (maxWaitOf options) task r.(status))
              else
                sleep world
                  (orElse options.(pollIntervalMs) DEFAULT_POLL_INTERVAL_MS)
                  options.(signal) ;;;
                loop fuel (Some r.(status))) st2.
Proof.
  intros fuel last st r Hq Hne Hh. cbn [pollLoop].
  destruct (throwIfAborted_uncancelled st Hq) as (st0 & E0 & (L1 & L2 & L3 & L4)).
  rewrite (bind_returned _ _ _ _ _ _ _ E0).
  rewrite <- L1 in Hh.
  destruct (getTaskStatus_returned world task st0 r Hne Hh)
    as (st1 & E1 & R1 & R2 & R3 & R4).
  rewrite (bind_returned _ _ _ _ _ _ _ E1).
  destruct ((if differs (status r) last
             then fireOnUpdate (onUpdate options) r else ret tt) st1)
    as [o2 st2] eqn:E2.
  pose proof (fireOnUpdate_inv _ _ _ _ _ _ E2) as (-> & U1 & U2 & U3 & U4).
  rewrite (bind_returned _ _ _ _ _ _ _ E2).
  rewrite lastStatus_after.
  exists st2. repeat split; try congruence.
Qed.

Lemma pollLoop_stops :
  forall fuel last st r,
    uncancelled world options.(signal) -> trim task <> "" ->
    world.(http) (List.length st.(requests)) = inl r ->
    stopping options r = true ->
    exists st',
      loop (S fuel) last st = (Returned r, st')
      /\ st'.(requests) = (st.(requests) ++ [statusRequest task])%list
      /\ st'.(updates)
         = (st.(updates)
            ++ (if differs r.(status) last && options.(onUpdate)
                then [r] else []))%list.
Proof.
  intros fuel last st r Hq Hne Hh Hstop.
  destruct (iteration_head fuel last st r Hq Hne Hh)
    as (st2 & Q1 & Q2 & Q3 & Q4 & ->).
  rewrite Hstop. exists st2. auto.
Qed.

Lemma pollLoop_continues :
  forall fuel last st r,
    uncancelled world options.(signal) -> trim task <> "" ->
    world.(http) (List.length st.(requests)) = inl r ->
    stopping options r = false ->
    world.(now) st.(clockReads) - startedAt < maxWaitOf options ->
    exists st',
      loop (S fuel) last st = loop fuel (Some r.(status)) st'
      /\ st'.(requests) = (st.(requests) ++ [statusRequest task])%list
      /\ st'.(updates)
         = (st.(updates)
            ++ (if differs r.(status) last && options.(onUpdate)
                then [r] else []))%list
      /\ st'.(clockReads) = S st.(clockReads).
Proof.
  intros fuel last st r Hq Hne Hh Hstop Hearly.
  destruct (iteration_head fuel last st r Hq Hne Hh)
    as (st2 & Q1 & Q2 & Q3 & Q4 & ->).
  rewrite Hstop. unfold bind at 1, dateNow at 1. cbn.
  rewrite Q4.
  replace (_ >=? _) with false by (symmetry; rewrite Z.geb_leb; apply Z.leb_gt; lia).
  match goal with
  | |- context [bind (sleep world ?ms ?sig) _ ?s] =>
      destruct (sleep_uncancelled world ms sig s Hq) as (st4 & E4 & S1 & S2 & S3 & S4)
  end.
  rewrite (bind_returned _ _ _ _ _ _ _ E4).
  exists st4. cbn in S1, S2, S4. repeat split; congruence.
Qed.

Lemma pollLoop_deadline :
  forall fuel last st r,
    uncancelled world options.(signal) -> trim task <> "" ->
    world.(http) (List.length st.(requests)) = inl r ->
    stopping options r = false ->
    world.(now) st.(clockReads) - startedAt >= maxWaitOf options ->
    exists st',
      loop (S fuel) last st
      = (Threw (pollTimeoutError (maxWaitOf options) task r.(status)), st')
      /\ st'.(requests) = (st.(requests) ++ [statusRequest task])%list.
Proof.
  intros fuel last st r Hq Hne Hh Hstop Hlate.
  destruct (iteration_head fuel last st r Hq Hne Hh)
    as (st2 & Q1 & Q2 & Q3 & Q4 & ->).
  rewrite Hstop. unfold bind at 1, dateNow at 1. cbn.
  rewrite Q4.
  replace (_ >=? _) with true by (symmetry; rewrite Z.geb_leb; apply Z.leb_le; lia).
  unfold throw. eexists. split; [reflexivity|]. cbn. exact Q1.
Qed.

(** Polls number 0 to [n] - 1 from the current state are answered with
    records that do not stop the wait and pass the deadline test; poll
    number [n] is answered with [r], which does not stop the wait either,
    and fails the deadline test: the loop throws the poll-timeout error
    that carries the status of [r]. *)
Lemma pollLoop_times_out :
  forall n fuel last st r,
    uncancelled world options.(signal) -> trim task <> "" ->
    (n < fuel)%nat ->
    (forall i, (i < n)%nat ->
       exists ri, world.(http) (List.length st.(requests) + i)%nat = inl ri
                  /\ stopping options ri = false
                  /\ world.(now) (st.(clockReads) + i)%nat - startedAt
                     < maxWaitOf options) ->
    world.(http) (List.length st.(requests) + n)%nat = inl r ->
    stopping options r = false ->
    world.(now) (st.(clockReads) + n)%nat - startedAt >= maxWaitOf options ->
    exists st',
      loop fuel last st
      = (Threw (pollTimeoutError (maxWaitOf options) task r.(status)), st')
      /\ List.length st'.(requests) = (List.length st.(requests) + S n)%nat.
Proof.
  induction n as [|n IH]; intros fuel last st r Hq Hne Hfuel Hbefore Hh Hs Hlate;
    (destruct fuel as [|fuel]; [lia|]).
  - rewrite Nat.add_0_r in Hh, Hlate.
    destruct (pollLoop_deadline fuel last st r Hq Hne Hh Hs Hlate)
      as (st' & E & R).
    exists st'. split; [exact E|]. rewrite R, length_app. reflexivity.
  - destruct (Hbefore 0%nat ltac:(lia)) as (r0 & Hh0 & Hs0 & Hearly).
    rewrite Nat.add_0_r in Hh0, Hearly.
    destruct (pollLoop_continues fuel last st r0 Hq Hne Hh0 Hs0 Hearly)
      as (st1 & E & R & U & C).
    assert (Hlen : List.length (requests st1) = S (List.length (requests st)))
      by (rewrite R, length_app, Nat.add_1_r; reflexivity).
    destruct (IH fuel (Some (status r0)) st1 r Hq Hne ltac:(lia)) as (st' & E' & R').
    + intros i Hi. destruct (Hbefore (S i) ltac:(lia)) as (ri & A & B & D).
      exists ri. rewrite Hlen, C. rewrite !Nat.add_succ_r in A, D. auto.
    + rewrite Hlen. rewrite Nat.add_succ_r in Hh. exact Hh.
    + exact Hs.
    + rewrite C. rewrite Nat.add_succ_r in Hlate. exact Hlate.
    + exists st'. split; [rewrite E; exact E'|]. rewrite R', Hlen. lia.
Qed.

End Poll.

Section Wait.

Variable world : World.

Lemma waitForCompletion_run :
  forall fuel task options st out st',
    waitForCompletion world fuel task options st = (out, st') ->
    exists k,
      st'.(requests) = (st.(requests) ++ repeat (statusRequest task) k)%list
      /\ st'.(updates)
         = (st.(updates)
            ++ (if options.(onUpdate)
                then changes None
                       (observedFrom world (List.length st.(requests)) k)
                else []))%list
      /\ st'.(waits) = st.(waits)
      /\ (st'.(clockReads) <= S st.(clockReads) + k)%nat
      /\ pollExit world task options (List.length st.(requests)) k out.
Proof.
  intros fuel task options st out st' Hrun. unfold waitForCompletion in Hrun.
  apply bind_inv in Hrun.
  destruct Hrun as [(u & st0 & H0 & Hrun)|[(e & H0 & ->)|(H0 & ->)]];
    apply assertString_inv in H0;
    destruct H0 as [-> [[Ho Hne]|[Ho Hblank]]]; try discriminate.
  - apply bind_inv in Hrun.
    destruct Hrun as [(t & st1 & H1 & Hrun)|[(e & H1 & ->)|(H1 & ->)]];
      apply dateNow_inv in H1;
      destruct H1 as (Ho1 & D1 & D2 & D3 & D4); try discriminate.
    apply pollLoop_run in Hrun.
    destruct Hrun as (k & K1 & K2 & K3 & K4 & K5).
    exists k. rewrite D1 in K1, K2, K5. rewrite D2 in K2. rewrite D3 in K3.
    rewrite D4 in K4. auto.
  - inversion Ho; subst. exists 0%nat. cbn. rewrite !app_nil_r.
    destruct (onUpdate options); rewrite ?app_nil_r.
    all: repeat split; auto; try lia.
    all: right; left; repeat split; auto; left; reflexivity.
Qed.

Lemma waitForCompletion_starts :
  forall fuel task options st,
    trim task <> "" ->
    exists st0,
      waitForCompletion world fuel task options st
      = pollLoop world task options (world.(now) st.(clockReads)) fuel None st0
      /\ st0.(requests) = st.(requests) /\ st0.(updates) = st.(updates)
      /\ st0.(clockReads) = S st.(clockReads).
Proof.
  intros fuel task options st Hne. unfold waitForCompletion.
  unfold bind at 1, assertString.
  destruct (String.eqb_spec (trim task) ""); [contradiction|].
  unfold ret. unfold bind at 1, dateNow at 1.
  eexists. split; [reflexivity|repeat split].
Qed.

Lemma bind_ext :
  forall (A B : Type) (m : M A) (k1 k2 : A -> M B) st,
    (forall a st1, k1 a st1 = k2 a st1) -> bind m k1 st = bind m k2 st.
Proof.
  intros A B m k1 k2 st H. unfold bind.
  destruct (m st) as [[a|e|] st1]; auto.
Qed.

(** Entered with [continuePolling] true, the loop never reaches what stands
    after it. *)
Lemma resumeLoop_independent :
  forall after1 after2 pollFuel task o fuel st,
    resumeLoop world after1 pollFuel task o fuel true st
    = resumeLoop world after2 pollFuel task o fuel true st.
Proof.
  intros after1 after2 pollFuel task o.
  induction fuel as [|fuel IH]; intros st; cbn [resumeLoop]; [reflexivity|].
  apply bind_ext. intros current st1.
  destruct (negb (status_eqb (status current) WAITING)); [reflexivity|].
  apply bind_ext. intros continuePolling st2.
  destruct continuePolling; cbn [negb]; [apply IH|reflexivity].
Qed.

Lemma callOnWaiting_inv :
  forall current st o st',
    callOnWaiting world current st = (o, st') ->
    o = Returned (world.(onWaiting) (List.length st.(waits)))
    /\ st'.(waits) = (st.(waits) ++ [current])%list.
Proof.
  intros current st o st'. unfold callOnWaiting.
  intros H; inversion H; subst. split; reflexivity.
Qed.

(** A record returned by the loop is the result of a wait that is not
    WAITING, or the WAITING record on which the handler answered false. *)
Lemma resumeLoop_returns :
  forall after pollFuel task o fuel st r st',
    resumeLoop world after pollFuel task o fuel true st = (Returned r, st') ->
    r.(status) <> WAITING
    \/ (r.(status) = WAITING
        /\ exists ws,
             st'.(waits) = (st.(waits) ++ ws ++ [r])%list
             /\ world.(onWaiting) (List.length (st.(waits) ++ ws)%list)
                = false).
Proof.
  intros after pollFuel task o.
  induction fuel as [|fuel IH]; intros st r st' Hrun; cbn [resumeLoop] in Hrun;
    [discriminate|].
  apply bind_inv in Hrun.
  destruct Hrun as [(current & st1 & H1 & Hrun)|[(e & _ & H)|(_ & H)]];
    try discriminate.
  apply waitForCompletion_run in H1. destruct H1 as (k & _ & _ & W1 & _).
  destruct (status_eqb (status current) WAITING) eqn:Hw; cbn [negb] in Hrun.
  - apply status_eqb_eq in Hw.
    apply bind_inv in Hrun.
    destruct Hrun as [(cp & st2 & H2 & Hrun)|[(e & _ & H)|(_ & H)]];
      try discriminate.
    apply callOnWaiting_inv in H2. destruct H2 as (Hcp & W2).
    inversion Hcp; subst cp; clear Hcp.
    destruct (onWaiting world (List.length (waits st1))) eqn:Hans;
      cbn [negb] in Hrun.
    + apply IH in Hrun. destruct Hrun as [Hn|(Hs & ws & Hws & Hf)]; [auto|].
      right. split; [exact Hs|]. exists (current :: ws).
      rewrite W2, W1 in Hws. rewrite W2, W1 in Hf.
      rewrite <- app_assoc in Hws, Hf. auto.
    + inversion Hrun; subst. right. split; [exact Hw|]. exists [].
      rewrite app_nil_r, W2, W1. rewrite W1 in Hans. auto.
  - inversion Hrun; subst. left. intros E. rewrite E in Hw. discriminate.
Qed.

(** A round that is followed by another one takes the loop to its next
    iteration, with [continuePolling] still true. *)
Lemma resumeLoop_resumes :
  forall after pollFuel task o fuel st st1,
    resumes world pollFuel task o st = Some st1 ->
    resumeLoop world after pollFuel task o (S fuel) true st
    = resumeLoop world after pollFuel task o fuel true st1.
Proof.
  intros after pollFuel task o fuel st st1 H.
  unfold resumes, roundWait in H. cbn [resumeLoop]. unfold bind at 1.
  destruct (waitForCompletion world pollFuel task (forceExitOnWaiting o) st)
    as [[w|e|] st0]; try discriminate.
  destruct (status_eqb (status w) WAITING); cbn [andb negb] in *;
    [|discriminate].
  destruct (onWaiting world (List.length (waits st0))) eqn:Hans;
    [|discriminate].
  inversion H; subst st1; clear H.
  unfold bind, callOnWaiting, handlerCalled. cbn [snd].
  rewrite Hans. reflexivity.
Qed.

Lemma resumeLoop_resumed :
  forall after pollFuel task o n fuel st st1,
    resumed world pollFuel task o n st = Some st1 ->
    resumeLoop world after pollFuel task o (n + fuel) true st
    = resumeLoop world after pollFuel task o fuel true st1.
Proof.
  intros after pollFuel task o.
  induction n as [|n IH]; intros fuel st st1 H; cbn [resumed] in H.
  - inversion H; subst. reflexivity.
  - destruct (resumes world pollFuel task o st) as [st0|] eqn:E;
      [|discriminate].
    cbn [Nat.add]. rewrite (resumeLoop_resumes _ _ _ _ _ _ _ E).
    apply IH. exact H.
Qed.

(** A round that is not followed by another one ends the loop with what
    the round gives. *)
Lemma resumeLoop_lastRound :
  forall after pollFuel task o fuel st,
    resumes world pollFuel task o st = None ->
    resumeLoop world after pollFuel task o (S fuel) true st
    = lastRound world pollFuel task o st.
Proof.
  intros after pollFuel task o fuel st H.
  unfold resumes, roundWait in H. unfold lastRound, roundWait.
  cbn [resumeLoop]. unfold bind at 1.
  destruct (waitForCompletion world pollFuel task (forceExitOnWaiting o) st)
    as [[w|e|] st0]; try reflexivity.
  destruct (status_eqb (status w) WAITING); cbn [andb negb] in *;
    [|reflexivity].
  destruct (onWaiting world (List.length (waits st0))) eqn:Hans;
    [discriminate|].
  unfold bind, callOnWaiting, handlerCalled. cbn [snd].
  rewrite Hans. reflexivity.
Qed.

(** Within [fuel] rounds, either some round is not followed by another
    one, or all of them are. *)
Lemma resumed_or_last :
  forall pollFuel task o fuel st,
    (exists n st1,
       (n < fuel)%nat /\ resumed world pollFuel task o n st = Some st1
       /\ resumes world pollFuel task o st1 = None)
    \/ (exists st1, resumed world pollFuel task o fuel st = Some st1).
Proof.
  intros pollFuel task o.
  induction fuel as [|fuel IH]; intros st.
  - right. exists st. reflexivity.
  - destruct (resumes world pollFuel task o st) as [st0|] eqn:E.
    + destruct (IH st0) as [(n & st1 & Hn & Hr & Hl)|(st1 & Hr)].
      * left. exists (S n), st1. cbn [resumed]. rewrite E.
        split; [lia|]. split; assumption.
      * right. exists st1. cbn [resumed]. rewrite E. exact Hr.
    + left. exists 0%nat, st. split; [lia|]. split; [reflexivity|exact E].
Qed.

End Wait.

Lemma repeat_three :
  forall (A : Type) (a : A), [a; a; a] = repeat a 3.
Proof. reflexivity. Qed.

(** C4.  A wait that is not cut short (valid task id, no signal or one never
    aborted, deadline not reached at the first two polls, fuel for three
    iterations), with the default terminal statuses and an [onUpdate]
    callback, whose status calls are answered PENDING, RUNNING, COMPLETED:
    exactly three status calls are issued, the callback receives the three
    records in that order, and the COMPLETED record is returned. *)
Theorem C4_poll_convergence :
  forall (world : World) (fuel : nat) (task : string)
         (options : WaitForCompletionOptions)
         (r1 r2 r3 : TaskStatusResponse),
    trim task <> "" ->
    options.(terminalStatuses) = None ->
    options.(onUpdate) = true ->
    uncancelled world options.(signal) ->
    world.(http) 0%nat = inl r1 -> r1.(status) = PENDING ->
    world.(http) 1%nat = inl r2 -> r2.(status) = RUNNING ->
    world.(http) 2%nat = inl r3 -> r3.(status) = COMPLETED ->
    world.(now) 1%nat - world.(now) 0%nat < maxWaitOf options ->
    world.(now) 2%nat - world.(now) 0%nat < maxWaitOf options ->
    (3 <= fuel)%nat ->
    exists st',
      waitForCompletion world fuel task options initial = (Returned r3, st')
      /\ st'.(requests) = repeat (statusRequest task) 3
      /\ st'.(updates) = [r1; r2; r3].
Proof.
  intros world fuel task options r1 r2 r3 Hne Hterm Hupd Hq
         H1 S1 H2 S2 H3 S3 T1 T2 Hfuel.
  destruct fuel as [|[|[|fuel]]]; try lia.
  destruct (waitForCompletion_starts world (S (S (S fuel))) task options
              initial Hne) as (st0 & -> & A1 & A2 & A3).
  cbn in A1, A2, A3. change (clockReads initial) with 0%nat.
  assert (N1 : stopping options r1 = false)
    by (unfold stopping; rewrite Hterm, S1; reflexivity).
  assert (N2 : stopping options r2 = false)
    by (unfold stopping; rewrite Hterm, S2; reflexivity).
  assert (N3 : stopping options r3 = true)
    by (unfold stopping; rewrite Hterm, S3; reflexivity).
  destruct (pollLoop_continues world task options (now world 0%nat)
              (S (S fuel)) None st0 r1 Hq Hne)
    as (st1 & -> & B1 & B2 & B3);
    [rewrite A1; exact H1 | exact N1 | rewrite A3; exact T1 |].
  rewrite A1 in B1. rewrite A2, Hupd in B2. rewrite A3 in B3. cbn in B1, B2.
  destruct (pollLoop_continues world task options (now world 0%nat)
              (S fuel) (Some (status r1)) st1 r2 Hq Hne)
    as (st2 & -> & C1 & C2 & C3);
    [rewrite B1; exact H2 | exact N2 | rewrite B3; exact T2 |].
  rewrite B1 in C1. rewrite B2, Hupd, S1, S2 in C2. cbn in C1, C2.
  destruct (pollLoop_stops world task options (now world 0%nat)
              fuel (Some (status r2)) st2 r3 Hq Hne)
    as (st3 & -> & D1 & D2);
    [rewrite C1; exact H3 | exact N3 |].
  rewrite C1 in D1. rewrite C2, Hupd, S2, S3 in D2. cbn in D1, D2.
  exists st3. auto.
Qed.

(** C5.  In any run of [waitForCompletion] with an [onUpdate] callback, the
    records passed to the callback are, in order, the records received from
    the status calls whose status differs from the status of the record
    received just before: a poll that repeats the preceding status fires
    nothing, a poll that changes it fires once. *)
Theorem C5_updates_follow_status_changes :
  forall (world : World) (fuel : nat) (task : string)
         (options : WaitForCompletionOptions)
         (out : Outcome TaskStatusResponse) (st' : St),
    options.(onUpdate) = true ->
    waitForCompletion world fuel task options initial = (out, st') ->
    st'.(updates)
    = changes None (observedFrom world 0 (List.length st'.(requests))).
Proof.
  intros world fuel task options out st' Hupd Hrun.
  apply waitForCompletion_run in Hrun.
  destruct Hrun as (k & K1 & K2 & _). cbn in K1, K2.
  rewrite Hupd in K2. rewrite K1, repeat_length. exact K2.
Qed.

(** C6.  Polls 0 to [n] of a wait (valid task id, no signal or one never
    aborted, fuel for [n] + 1 iterations) are answered with records that
    do not stop it; the elapsed time read after each of the polls 0 to
    [n] - 1 is below [maxWaitTimeMs], the one read after poll [n] has
    reached it.  The wait throws a [WorkflowAPIError] of status 0 and
    status text POLL_TIMEOUT whose data hold the task id and the status of
    the record of poll [n], the last one observed. *)
Theorem C6_poll_timeout_error :
  forall (world : World) (fuel : nat) (task : string)
         (options : WaitForCompletionOptions) (n : nat)
         (r : TaskStatusResponse),
    trim task <> "" ->
    uncancelled world options.(signal) ->
    (n < fuel)%nat ->
    (forall i, (i < n)%nat ->
       exists ri, world.(http) i = inl ri /\ stopping options ri = false
                  /\ world.(now) (S i) - world.(now) 0%nat
                     < maxWaitOf options) ->
    world.(http) n = inl r ->
    stopping options r = false ->
    world.(now) (S n) - world.(now) 0%nat >= maxWaitOf options ->
    exists message request st',
      waitForCompletion world fuel task options initial
      = (Threw (WorkflowAPIError message 0 "POLL_TIMEOUT" []
                  (JObj [("taskId", JStr task);
                         ("lastStatus", JStr (statusName r.(status)))])
                  request None),
         st')
      /\ List.length st'.(requests) = S n.
Proof.
  intros world fuel task options n r Hne Hq Hfuel Hbefore Hh Hs Hlate.
  destruct (waitForCompletion_starts world fuel task options initial Hne)
    as (st0 & -> & A1 & A2 & A3).
  cbn in A1, A3. change (clockReads initial) with 0%nat.
  destruct (pollLoop_times_out world task options (now world 0%nat)
              n fuel None st0 r Hq Hne Hfuel) as (st' & E & R).
  - intros i Hi. rewrite A1, A3. cbn. apply Hbefore. exact Hi.
  - rewrite A1. exact Hh.
  - exact Hs.
  - rewrite A3. exact Hlate.
  - do 2 eexists. exists st'. split; [exact E|].
    rewrite R, A1. reflexivity.
Qed.

Lemma isPollTimeout_abortedError :
  forall sig, isPollTimeout (abortedError sig) = false.
Proof.
  intros [reason]. unfold abortedError. cbn [Client.reason].
  destruct reason; cbn [isAbortError]; try reflexivity.
  destruct (String.eqb name "AbortError"); reflexivity.
Qed.

(** C7.  With an [onWaiting] handler, [executeAndWait] behaves the same
    whatever stands after its loop, so the throw that stands there in the
    source is never reached.  A record it returns is the result of a wait
    that is not WAITING, or the WAITING record that the handler was last
    called on and answered false to.  More precisely, once the trigger has
    returned, [n] rounds in which the wait returned a WAITING record and
    the handler answered true, followed by a round of another kind, end
    the operation with what that last round gives: the record of its wait,
    not WAITING or WAITING with the handler answering false, or the failure
    of its wait.  Every run that ends is of that form, or is a failure of
    the trigger. *)
Theorem C7_resume_loop_leaves_by_return :
  forall (world : World) (afterLoop : M TaskStatusResponse) (fuel : nat)
         (i : ExecuteWorkflowInput) (options : ExecuteAndWaitOptions)
         (st : St),
    options.(withOnWaiting) = true ->
    executeAndWaitWith world afterLoop fuel i options st
    = executeAndWait world fuel i options st
    /\ (forall r st',
          executeAndWait world fuel i options st = (Returned r, st') ->
          r.(status) <> WAITING
          \/ (r.(status) = WAITING
              /\ exists ws,
                   st'.(waits) = (st.(waits) ++ ws ++ [r])%list
                   /\ world.(onWaiting) (List.length (st.(waits) ++ ws)%list)
                      = false))
    /\ (forall started st0 n st1,
          executeWorkflow world i st = (Returned started, st0) ->
          (n < fuel)%nat ->
          resumed world fuel started.(taskId) options.(waitOptions) n st0
          = Some st1 ->
          resumes world fuel started.(taskId) options.(waitOptions) st1
          = None ->
          executeAndWait world fuel i options st
          = lastRound world fuel started.(taskId) options.(waitOptions) st1)
    /\ (forall out st',
          executeAndWait world fuel i options st = (out, st') ->
          out <> OutOfFuel ->
          (exists e, out = Threw e
                     /\ executeWorkflow world i st = (Threw e, st'))
          \/ exists started st0 n st1,
               executeWorkflow world i st = (Returned started, st0)
               /\ (n < fuel)%nat
               /\ resumed world fuel started.(taskId) options.(waitOptions)
                    n st0 = Some st1
               /\ resumes world fuel started.(taskId) options.(waitOptions)
                    st1 = None
               /\ lastRound world fuel started.(taskId)
                    options.(waitOptions) st1 = (out, st')).
Proof.
  intros world afterLoop fuel i options st Hhandler.
  unfold executeAndWait, executeAndWaitWith. rewrite Hhandler. cbn [negb].
  split; [|split; [|split]].
  - apply bind_ext. intros started st1. apply resumeLoop_independent.
  - intros r st' Hrun.
    apply bind_inv in Hrun.
    destruct Hrun as [(started & st1 & H1 & Hrun)|[(e & _ & H)|(_ & H)]];
      try discriminate.
    assert (W : waits st1 = waits st).
    { unfold executeWorkflow in H1.
      apply bind_inv in H1.
      destruct H1 as [(u & st0 & H0 & H1)|[(e & _ & H)|(_ & H)]];
        try discriminate.
      apply assertString_inv in H0. destruct H0 as [-> _].
      apply bind_inv in H1.
      destruct H1 as [(v & st2 & H2 & H1)|[(e & _ & H)|(_ & H)]];
        try discriminate.
      unfold ensureSerializable in H2.
      destruct (input i); inversion H2; subst.
      unfold httpRequest in H1.
      destruct (http world _); inversion H1; subst; reflexivity. }
    apply resumeLoop_returns in Hrun. rewrite W in Hrun. exact Hrun.
  - intros started st0 n st1 Htrigger Hn Hrounds Hlast.
    unfold bind at 1. rewrite Htrigger.
    replace fuel with (n + S (fuel - S n))%nat at 2 by lia.
    rewrite (resumeLoop_resumed world _ _ _ _ _ _ _ _ Hrounds).
    apply resumeLoop_lastRound. exact Hlast.
  - intros out st' Hrun Hout. unfold bind at 1 in Hrun.
    destruct (executeWorkflow world i st) as [[started|e|] st0] eqn:Htrigger.
    + right.
      destruct (resumed_or_last world fuel (taskId started)
                  (waitOptions options) fuel st0)
        as [(n & st1 & Hn & Hrounds & Hlast)|(st1 & Hrounds)].
      * exists started, st0, n, st1.
        repeat (split; [first [reflexivity|assumption]|]).
        replace fuel with (n + S (fuel - S n))%nat in Hrun at 2 by lia.
        rewrite (resumeLoop_resumed world _ _ _ _ _ _ _ _ Hrounds) in Hrun.
        rewrite (resumeLoop_lastRound world _ _ _ _ _ _ Hlast) in Hrun.
        exact Hrun.
      * exfalso. apply Hout.
        replace fuel with (fuel + 0)%nat in Hrun at 2 by lia.
        rewrite (resumeLoop_resumed world _ _ _ _ _ _ _ _ Hrounds) in Hrun.
        cbn [resumeLoop] in Hrun. inversion Hrun. reflexivity.
    + left. exists e. inversion Hrun; subst. split; reflexivity.
    + exfalso. apply Hout. inversion Hrun. reflexivity.
Qed.

(** C9.  [continueTask] with the decision REJECT and a message that is
    absent or empty throws a plain [Error], which is not a
    [WorkflowAPIError], and leaves the state as it was: no transport call
    has been issued. *)
Theorem C9_reject_without_message_fails_locally :
  forall (world : World) (task : string) (message : option string) (st : St),
    message = None \/ message = Some "" ->
    exists text,
      continueTask world
        {| ct_taskId := task; ct_decision := REJECT; ct_message := message |}
        st
      = (Threw (Error text), st)
      /\ isWorkflowAPIError (Error text) = false.
Proof.
  intros world task message st Hmsg.
  assert (Hmissing : missing message = true)
    by (destruct Hmsg as [-> | ->]; reflexivity).
  unfold continueTask, bind, assertString. cbn [ct_taskId ct_decision ct_message].
  destruct (String.eqb (trim task) ""); unfold throw, ret.
  - eexists. split; reflexivity.
  - rewrite Hmissing. eexists. split; reflexivity.
Qed.

(** C10.  In any run of [waitForCompletion] over a transport that throws no
    error of the poll-timeout shape: the clock is read once at the start
    and then at most once per status call issued, so no deadline is
    evaluated before a status call, whatever [maxWaitTimeMs] is; when the
    last status call was answered with a stopping record, that record is
    returned, whatever the clock says; and a poll-timeout error carries the
    status of the record of the last status call, which does not stop the
    wait. *)
Theorem C10_deadline_only_after_a_continuing_poll :
  forall (world : World) (fuel : nat) (task : string)
         (options : WaitForCompletionOptions)
         (out : Outcome TaskStatusResponse) (st' : St),
    (forall n e, world.(http) n = inr e -> isPollTimeout e = false) ->
    waitForCompletion world fuel task options initial = (out, st') ->
    (st'.(clockReads) <= 1 + List.length st'.(requests))%nat
    /\ (forall j r,
          List.length st'.(requests) = S j ->
          world.(http) j = inl r -> stopping options r = true ->
          out = Returned r)
    /\ (forall e,
          out = Threw e -> isPollTimeout e = true ->
          exists j r,
            List.length st'.(requests) = S j
            /\ world.(http) j = inl r
            /\ stopping options r = false
            /\ e = pollTimeoutError (maxWaitOf options) task r.(status)).
Proof.
  intros world fuel task options out st' Htransport Hrun.
  apply waitForCompletion_run in Hrun.
  destruct Hrun as (k & K1 & _ & _ & K4 & K5). cbn in K1, K4, K5.
  rewrite K1, repeat_length. split; [lia|]. split.
  - intros j r -> Hh Hstop.
    assert (Hnot : ~ lastContinues world options 0 (S j)).
    { intros [H|(j' & r' & Hj & Hh' & Hs')]; [discriminate|].
      inversion Hj; subst j'. cbn in Hh'. congruence. }
    destruct out as [r'|e|]; cbn [pollExit] in K5.
    + destruct K5 as (j' & Hj & Hh' & _). inversion Hj; subst j'.
      cbn in Hh'. congruence.
    + destruct K5 as [(sig & _ & _ & H)|[(_ & _ & H)
                     |[(j' & Hj & Hh')|(j' & r' & Hj & Hh' & Hs' & _)]]];
        try contradiction.
      * inversion Hj; subst j'. cbn in Hh'. congruence.
      * inversion Hj; subst j'. cbn in Hh'. congruence.
    + contradiction.
  - intros e -> Hshape. cbn [pollExit] in K5.
    destruct K5 as [(sig & _ & -> & _)|[(-> & _)
                   |[(j & -> & Hh)|(j & r & -> & Hh & Hs & ->)]]].
    + rewrite isPollTimeout_abortedError in Hshape. discriminate.
    + discriminate.
    + cbn in Hh. rewrite (Htransport _ _ Hh) in Hshape. discriminate.
    + exists j, r. cbn in Hh. auto.
Qed.

(** *** The theorems at concrete worlds *)

Lemma worldOf_transport :
  forall replies n e,
    (forall r, In r replies -> r = inr e -> isPollTimeout e = false) ->
    (worldOf replies).(http) n = inr e -> isPollTimeout e = false.
Proof.
  intros replies n e Hin. cbn [http worldOf].
  destruct (Nat.lt_ge_cases n (List.length replies)) as [Hlt|Hge].
  - intros H. apply (Hin (nth n replies (inr noMoreReplies))); [|exact H].
    apply nth_In. exact Hlt.
  - rewrite nth_overflow by exact Hge. intros H; inversion H; reflexivity.
Qed.

Lemma C4_poll_convergence_witness :
  exists st',
    waitForCompletion converging 3 "task-1" (waitOptionsOf None) initial
    = (Returned (record COMPLETED), st')
    /\ st'.(requests) = repeat (statusRequest "task-1") 3
    /\ st'.(updates) = [record PENDING; record RUNNING; record COMPLETED].
Proof.
  apply (C4_poll_convergence converging 3 "task-1" (waitOptionsOf None)
           (record PENDING) (record RUNNING) (record COMPLETED));
    first [ reflexivity | lia | right; intros n; reflexivity
          | vm_compute; discriminate ].
Defined.

Lemma C5_updates_follow_status_changes_witness :
  updates (snd (waitForCompletion stillRunning 5 "task-1"
                  (waitOptionsOf (Some 3)) initial))
  = [record PENDING; record RUNNING].
Proof.
  rewrite (C5_updates_follow_status_changes stillRunning 5 "task-1"
             (waitOptionsOf (Some 3))
             (fst (waitForCompletion stillRunning 5 "task-1"
                     (waitOptionsOf (Some 3)) initial))
             (snd (waitForCompletion stillRunning 5 "task-1"
                     (waitOptionsOf (Some 3)) initial))).
  - vm_compute. reflexivity.
  - reflexivity.
  - apply surjective_pairing.
Defined.

Lemma C6_poll_timeout_error_witness :
  exists message request st',
    waitForCompletion stillRunning 5 "task-1" (waitOptionsOf (Some 3)) initial
    = (Threw (WorkflowAPIError message 0 "POLL_TIMEOUT" []
                (JObj [("taskId", JStr "task-1");
                       ("lastStatus", JStr "RUNNING")])
                request None),
       st')
    /\ List.length st'.(requests) = 3%nat.
Proof.
  apply (C6_poll_timeout_error stillRunning 5 "task-1"
           (waitOptionsOf (Some 3)) 2 (record RUNNING));
    first [ reflexivity | lia | right; intros n; reflexivity
          | vm_compute; discriminate | idtac ].
  intros [|[|i]] Hi; [| |lia]; eexists; repeat split; reflexivity.
Defined.

Lemma C7_resume_loop_leaves_by_return_witness :
  executeAndWaitWith approval (ret (record FAILED)) 5 workflowInput
    {| waitOptions := waitOptionsOf None; withOnWaiting := true |} initial
  = executeAndWait approval 5 workflowInput
      {| waitOptions := waitOptionsOf None; withOnWaiting := true |} initial
  /\ fst (executeAndWait approval 5 workflowInput
            {| waitOptions := waitOptionsOf None; withOnWaiting := true |}
            initial)
     = Returned (record COMPLETED)
  /\ (snd (executeAndWait approval 5 workflowInput
             {| waitOptions := waitOptionsOf None; withOnWaiting := true |}
             initial)).(waits)
     = [record WAITING].
Proof.
  destruct (C7_resume_loop_leaves_by_return approval (ret (record FAILED)) 5
              workflowInput
              {| waitOptions := waitOptionsOf None; withOnWaiting := true |}
              initial eq_refl) as (Hsame & _ & Hrun & _).
  split; [exact Hsame|].
  rewrite (Hrun (record PENDING)
             (snd (executeWorkflow approval workflowInput initial)) 1%nat
             (handlerCalled approval (record WAITING)
                (snd (roundWait approval 5 "task-1" (waitOptionsOf None)
                        (snd (executeWorkflow approval workflowInput
                                initial)))))
             eq_refl ltac:(lia) eq_refl eq_refl).
  split; reflexivity.
Defined.

Lemma C9_reject_without_message_fails_locally_witness :
  exists text,
    continueTask approval
      {| ct_taskId := "task-1"; ct_decision := REJECT; ct_message := None |}
      initial
    = (Threw (Error text), initial)
    /\ isWorkflowAPIError (Error text) = false.
Proof.
  apply (C9_reject_without_message_fails_locally approval "task-1" None
           initial).
  left. reflexivity.
Defined.

Lemma C10_deadline_only_after_a_continuing_poll_witness :
  fst (waitForCompletion doneAtOnce 5 "task-1" (waitOptionsOf (Some 0)) initial)
  = Returned (record COMPLETED).
Proof.
  refine (proj1 (proj2
            (C10_deadline_only_after_a_continuing_poll doneAtOnce 5 "task-1"
               (waitOptionsOf (Some 0)) _ _ _ (surjective_pairing _)))
            0%nat (record COMPLETED) _ _ _); try reflexivity.
  intros n e. apply worldOf_transport.
  intros r [<-|[]] H. discriminate H.
Defined.

End ClientProofs.

(* ------------------------------------------------------------------ *)
(** ** Facts about strings *)

Module StringFacts.
Import Js.

Lemma prefix_refl : forall s, prefix s s = true.
Proof.
  induction s as [|c s IH]; cbn; [reflexivity|].
  destruct (ascii_dec c c); [exact IH|contradiction].
Qed.

Lemma prefix_append : forall s t, prefix s (s ++ t) = true.
Proof.
  induction s as [|c s IH]; intros t; cbn; [destruct t; reflexivity|].
  destruct (ascii_dec c c); [apply IH|contradiction].
Qed.

Lemma upper_ascii_not_lower : forall c, is_lower (upper_ascii c) = false.
Proof.
  intros [[] [] [] [] [] [] [] []]; vm_compute; reflexivity.
Qed.

Lemma lower_ascii_idem : forall c, lower_ascii (lower_ascii c) = lower_ascii c.
Proof.
  intros [[] [] [] [] [] [] [] []]; vm_compute; reflexivity.
Qed.

Lemma toLowerCase_idem : forall s, toLowerCase (toLowerCase s) = toLowerCase s.
Proof.
  induction s as [|c s IH]; cbn; [reflexivity|].
  rewrite lower_ascii_idem, IH. reflexivity.
Qed.

(** An upper-cased string contains no needle that starts with a small
    letter. *)
Lemma includes_upper_lower :
  forall c needle s,
    is_lower c = true ->
    includes (toUpperCase s) (String c needle) = false.
Proof.
  intros c needle s Hc.
  induction s as [|d s IH]; cbn; [reflexivity|].
  rewrite IH, orb_false_r.
  destruct (ascii_dec c (upper_ascii d)) as [E|]; [|reflexivity].
  rewrite E, upper_ascii_not_lower in Hc. discriminate.
Qed.

Lemma list_of_append :
  forall a b,
    list_ascii_of_string (a ++ b)
    = (list_ascii_of_string a ++ list_ascii_of_string b)%list.
Proof.
  induction a as [|c a IH]; intros b; cbn; [reflexivity|].
  rewrite IH. reflexivity.
Qed.

End StringFacts.

(* ------------------------------------------------------------------ *)
(** ** Further properties of the retry loop *)

Module RetryProperties.
Import Js Errors Http HttpSpec RetrySpec.

(** The list built from [start] with [count] elements holds the [count]
    integers from [start] on. *)
Lemma range_from_In :
  forall count x start,
    In x (range_from start count)
    <-> start <= x < start + Z.of_nat count.
Proof.
  induction count as [|count IH]; intros x start; cbn [range_from In].
  - lia.
  - rewrite IH. lia.
Qed.

(** [range(start, endInclusive)] holds exactly the integers from [start]
    to [endInclusive]; it is empty when the end is below the start. *)
Theorem range_members :
  forall start endInclusive x,
    In x (range start endInclusive) <-> start <= x <= endInclusive.
Proof.
  intros start e x. unfold range. rewrite range_from_In. lia.
Qed.

Lemma existsb_Zeqb_In :
  forall x l, existsb (Z.eqb x) l = true <-> In x l.
Proof.
  intros x l. rewrite existsb_exists. split.
  - intros (y & Hin & E). apply Z.eqb_eq in E. subst. exact Hin.
  - intros Hin. exists x. split; [exact Hin|apply Z.eqb_refl].
Qed.

(** Under the policy that applies when none is configured, a failure
    status is retried exactly when it is 408, 425, 429 or in 500..599. *)
Theorem default_policy_retries :
  forall status,
    shouldRetry status (normalizeRetryConfig None None) = true
    <-> status = 408 \/ status = 425 \/ status = 429
        \/ 500 <= status <= 599.
Proof.
  intros status. unfold shouldRetry, normalizeRetryConfig. cbn [orElse].
  rewrite existsb_Zeqb_In. unfold builtinRetry. cbn [retryOnStatuses].
  rewrite in_app_iff. unfold range. rewrite range_from_In.
  unfold DEFAULT_RETRYABLE_STATUSES.
  cbn [In]. intuition lia.
Qed.

(** Over a base policy that retries some status, no override yields a
    policy with fewer than one attempt or with no retried status; an empty
    [retryOnStatuses] array stands for the list of the base. *)
Theorem normalizeRetryConfig_override_keeps_policy_usable :
  forall (r : WorkflowClientRetryConfig) (fallback : option RetryConfig),
    (orElse fallback builtinRetry).(retryOnStatuses) <> [] ->
    1 <= (normalizeRetryConfig (Some r) fallback).(maxAttempts)
    /\ (normalizeRetryConfig (Some r) fallback).(retryOnStatuses) <> []
    /\ (r.(opt_retryOnStatuses) = Some [] ->
        (normalizeRetryConfig (Some r) fallback).(retryOnStatuses)
        = (orElse fallback builtinRetry).(retryOnStatuses)).
Proof.
  intros r fallback Hbase. unfold normalizeRetryConfig.
  cbn [maxAttempts retryOnStatuses].
  split; [lia|]. split.
  - destruct (opt_retryOnStatuses r) as [[|s l]|]; try exact Hbase.
    discriminate.
  - intros ->. reflexivity.
Qed.

Lemma normalizeRetryConfig_override_keeps_policy_usable_witness :
  1 <= (normalizeRetryConfig
          (Some {| opt_maxAttempts := Some 0; opt_initialDelayMs := None;
                   opt_backoffFactor := None; opt_maxDelayMs := None;
                   opt_retryOnStatuses := Some [] |}) None).(maxAttempts)
  /\ (normalizeRetryConfig
        (Some {| opt_maxAttempts := Some 0; opt_initialDelayMs := None;
                 opt_backoffFactor := None; opt_maxDelayMs := None;
                 opt_retryOnStatuses := Some [] |}) None).(retryOnStatuses)
     <> [].
Proof.
  refine (let H := normalizeRetryConfig_override_keeps_policy_usable
                     {| opt_maxAttempts := Some 0; opt_initialDelayMs := None;
                        opt_backoffFactor := None; opt_maxDelayMs := None;
                        opt_retryOnStatuses := Some [] |} None _ in
          conj (proj1 H) (proj1 (proj2 H))).
  vm_compute. discriminate.
Defined.

(** With a non-negative initial delay and a factor of at least 1, the
    backoff delay does not decrease from one attempt to a later one, and
    never exceeds [maxDelayMs]. *)
Theorem backoffDelay_grows_to_cap :
  forall (retry : RetryConfig) (a b : Z),
    0 <= retry.(initialDelayMs) ->
    1 <= retry.(backoffFactor) ->
    1 <= a <= b ->
    backoffDelay a retry <= backoffDelay b retry
    /\ backoffDelay b retry <= retry.(maxDelayMs).
Proof.
  intros retry a b Hi Hf Hab. unfold backoffDelay.
  split; [|apply Z.le_min_r].
  apply Z.min_le_compat_r.
  rewrite !Z.max_r by lia.
  apply Z.mul_le_mono_nonneg_l; [exact Hi|].
  apply Z.pow_le_mono_r; lia.
Qed.

Lemma backoffDelay_grows_to_cap_witness :
  backoffDelay 4 builtinRetry <= backoffDelay 6 builtinRetry
  /\ backoffDelay 6 builtinRetry <= 30000.
Proof.
  apply (backoffDelay_grows_to_cap builtinRetry 4 6); vm_compute;
    try discriminate. split; discriminate.
Defined.

(** Every policy a client built by the constructor works with allows at
    least one attempt. *)
Lemma constructed_maxAttempts :
  forall options init,
    1 <= (normalizeInit (newHttpClient options) init).(n_retry).(maxAttempts).
Proof.
  intros options init. unfold normalizeInit, newHttpClient.
  cbn [n_retry defaultRetry]. unfold normalizeRetryConfig at 1.
  cbn [orElse].
  destruct (ro_retry init) as [r|]; cbn [maxAttempts]; [lia|].
  unfold normalizeRetryConfig. cbn [orElse].
  destruct (opt_retry options) as [r|]; cbn [maxAttempts builtinRetry]; lia.
Qed.

Section LoopTrace.

Variable fetchImpl : Fetch.
Variable url : string.
Variable headers : Headers.t.
Variable resolved : NormalizedRequestInit.
Variable requestDescriptor : WorkflowAPIErrorRequest.

Local Abbreviation loop :=
  (attemptLoop fetchImpl url headers resolved requestDescriptor).
Local Abbreviation thisCall :=
  {| call_url := url; call_method := resolved.(n_method);
     call_headers := headers |}.
Local Abbreviation retry := (resolved.(n_retry)).

(** What any run of the loop that starts within the attempt budget does:
    it makes between one and the remaining number of calls, all alike,
    sleeps the backoff delay of each attempt but the last, and ends. *)
Lemma attemptLoop_trace :
  forall fuel attempt t out t',
    attempt <= retry.(maxAttempts) ->
    retry.(maxAttempts) - attempt + 1 <= Z.of_nat fuel ->
    loop fuel attempt t = (out, t') ->
    exists n,
      (1 <= Z.of_nat n <= retry.(maxAttempts) - attempt + 1)
      /\ t'.(calls) = (t.(calls) ++ repeat thisCall n)%list
      /\ t'.(sleeps)
         = (t.(sleeps)
            ++ map (fun i => backoffDelay i retry)
                 (range_from attempt (Nat.pred n)))%list
      /\ out <> OutOfFuel.
Proof.
  induction fuel as [|fuel IH]; intros attempt t out t' Hle Hfuel Hrun;
    [lia|].
  cbn [attemptLoop] in Hrun.
  replace (attempt <=? maxAttempts retry) with true in Hrun
    by (symmetry; apply Z.leb_le; lia).
  assert (Hstop : forall o, (o, logCall thisCall t) = (out, t') ->
                    o <> OutOfFuel ->
                    exists n,
                      (1 <= Z.of_nat n <= maxAttempts retry - attempt + 1)
                      /\ calls t' = (calls t ++ repeat thisCall n)%list
                      /\ sleeps t'
                         = (sleeps t
                            ++ map (fun i => backoffDelay i retry)
                                 (range_from attempt (Nat.pred n)))%list
                      /\ out <> OutOfFuel).
  { intros o E Ho. inversion E; subst. exists 1%nat. cbn.
    rewrite app_nil_r. repeat split; auto; lia. }
  assert (Hnext : attempt < maxAttempts retry ->
                  loop fuel (attempt + 1)
                    (delayWithBackoff attempt retry (logCall thisCall t))
                  = (out, t') ->
                  exists n,
                    (1 <= Z.of_nat n <= maxAttempts retry - attempt + 1)
                    /\ calls t' = (calls t ++ repeat thisCall n)%list
                    /\ sleeps t'
                       = (sleeps t
                          ++ map (fun i => backoffDelay i retry)
                               (range_from attempt (Nat.pred n)))%list
                    /\ out <> OutOfFuel).
  { intros Hlt E. apply IH in E; [|lia|lia].
    destruct E as (n & Hn & Hc & Hs & Ho). exists (S n).
    cbn [calls sleeps delayWithBackoff logCall] in Hc, Hs.
    split; [lia|]. split; [rewrite Hc, <- app_assoc; reflexivity|].
    split; [|exact Ho].
    rewrite Hs, <- app_assoc. f_equal.
    destruct n as [|n]; [lia|]. reflexivity. }
  destruct (tryAttempt url resolved requestDescriptor attempt _)
    as [v| |error] eqn:Htry.
  - apply (Hstop (Returned v)); [exact Hrun|discriminate].
  - apply Hnext; [|exact Hrun].
    unfold tryAttempt in Htry.
    destruct (performRequest _ _ _ _ _) as [r|e]; [|discriminate].
    destruct (ok r); [destruct (parseSuccessResponse _ _); discriminate|].
    destruct (attempt <? maxAttempts retry) eqn:E; [|discriminate].
    apply Z.ltb_lt in E. exact E.
  - destruct (isWorkflowAPIError error).
    + apply (Hstop (Threw error)); [exact Hrun|discriminate].
    + destruct (attempt <? maxAttempts retry) eqn:E; cbn [andb] in Hrun.
      * apply Z.ltb_lt in E.
        destruct (isRetryableNetworkError error && _).
        -- apply Hnext; assumption.
        -- eapply Hstop; [exact Hrun|discriminate].
      * eapply Hstop; [exact Hrun|discriminate].
Qed.

Lemma attemptLoop_retried :
  forall fuel attempt t,
    1 <= attempt < retry.(maxAttempts) ->
    retried url resolved (fetchImpl (List.length t.(calls))) = true ->
    loop (S fuel) attempt t
    = loop fuel (attempt + 1)
        (delayWithBackoff attempt retry (logCall thisCall t)).
Proof.
  intros fuel attempt t Hlt Hre. cbn [attemptLoop].
  replace (attempt <=? maxAttempts retry) with true
    by (symmetry; apply Z.leb_le; lia).
  unfold retried in Hre. unfold tryAttempt.
  destruct (performRequest _ _ _ _ _) as [r|e].
  - apply andb_prop in Hre. destruct Hre as [Hok Hs].
    apply negb_true_iff in Hok. rewrite Hok, Hs.
    replace (attempt <? maxAttempts retry) with true
      by (symmetry; apply Z.ltb_lt; lia).
    reflexivity.
  - apply andb_prop in Hre. destruct Hre as [Hw Hn].
    apply negb_true_iff in Hw. rewrite Hw, Hn.
    replace (attempt <? maxAttempts retry) with true
      by (symmetry; apply Z.ltb_lt; lia).
    replace (maxAttempts retry >? 1) with true
      by (symmetry; apply Z.gtb_lt; lia).
    reflexivity.
Qed.

Lemma attemptLoop_gives_up :
  forall fuel t,
    retried url resolved (fetchImpl (List.length t.(calls))) = true ->
    loop (S fuel) retry.(maxAttempts) t
    = (Threw (finalError url resolved requestDescriptor
                (fetchImpl (List.length t.(calls)))),
       logCall thisCall t).
Proof.
  intros fuel t Hre. cbn [attemptLoop]. rewrite Z.leb_refl.
  unfold retried in Hre. unfold tryAttempt, finalError.
  destruct (performRequest _ _ _ _ _) as [r|e].
  - apply andb_prop in Hre. destruct Hre as [Hok Hs].
    apply negb_true_iff in Hok. rewrite Hok, Z.ltb_irrefl. reflexivity.
  - apply andb_prop in Hre. destruct Hre as [Hw Hn].
    apply negb_true_iff in Hw. rewrite Hw, Z.ltb_irrefl. reflexivity.
Qed.

Lemma attemptLoop_success :
  forall fuel attempt t response value,
    attempt <= retry.(maxAttempts) ->
    (fetchImpl (List.length t.(calls))).(settled) = inl response ->
    ok response = true ->
    parseSuccessResponse response requestDescriptor = inl value ->
    loop (S fuel) attempt t = (Returned value, logCall thisCall t).
Proof.
  intros fuel attempt t response value Hle Hset Hok Hparse.
  cbn [attemptLoop].
  replace (attempt <=? maxAttempts retry) with true
    by (symmetry; apply Z.leb_le; lia).
  unfold tryAttempt, performRequest. rewrite Hset, Hok, Hparse.
  reflexivity.
Qed.

Lemma attemptLoop_raises_WorkflowAPIError :
  forall fuel attempt t error,
    attempt <= retry.(maxAttempts) ->
    tryAttempt url resolved requestDescriptor attempt
      (fetchImpl (List.length t.(calls))) = Raised error ->
    isWorkflowAPIError error = true ->
    loop (S fuel) attempt t = (Threw error, logCall thisCall t).
Proof.
  intros fuel attempt t error Hle Htry Hw. cbn [attemptLoop].
  replace (attempt <=? maxAttempts retry) with true
    by (symmetry; apply Z.leb_le; lia).
  rewrite Htry, Hw. reflexivity.
Qed.

(** [k] retried failures in a row, from an attempt that leaves room for
    them: the loop is then at attempt [attempt + k], having made [k] calls
    and slept the [k] delays. *)
Lemma attemptLoop_after_retries :
  forall k fuel attempt t,
    1 <= attempt ->
    attempt + Z.of_nat k <= retry.(maxAttempts) ->
    (forall i, (i < k)%nat ->
       retried url resolved (fetchImpl (List.length t.(calls) + i)%nat) = true) ->
    exists t',
      loop (k + fuel) attempt t = loop fuel (attempt + Z.of_nat k) t'
      /\ t'.(calls) = (t.(calls) ++ repeat thisCall k)%list
      /\ t'.(sleeps)
         = (t.(sleeps)
            ++ map (fun i => backoffDelay i retry) (range_from attempt k))%list.
Proof.
  induction k as [|k IH]; intros fuel attempt t H1 Hroom Hre.
  - exists t. rewrite Z.add_0_r, !app_nil_r. auto.
  - cbn [Nat.add].
    rewrite attemptLoop_retried;
      [|lia|rewrite <- (Nat.add_0_r (List.length _)); apply Hre; lia].
    destruct (IH fuel (attempt + 1)
                (delayWithBackoff attempt retry (logCall thisCall t)))
      as (t' & E & Hc & Hs); [lia|lia| |].
    + intros i Hi. cbn [calls delayWithBackoff logCall].
      rewrite length_app. cbn [List.length].
      replace (List.length (calls t) + 1 + i)%nat
        with (List.length (calls t) + S i)%nat by lia.
      apply Hre. lia.
    + exists t'. split; [rewrite E; f_equal; lia|].
      cbn [calls sleeps delayWithBackoff logCall] in Hc, Hs.
      split; [rewrite Hc, <- app_assoc; reflexivity|].
      rewrite Hs, <- app_assoc. reflexivity.
Qed.

End LoopTrace.

(** A request of a client built by the constructor always ends; it makes
    at least one fetch call and at most [maxAttempts]; and it sleeps once
    between two consecutive calls, the delay after call number i being the
    backoff delay of attempt i. *)
Theorem request_stays_within_attempt_budget :
  forall (options : HttpClientOptions) (fetchImpl : Fetch) (path : string)
         (init : RequestOptions),
    let this := newHttpClient options in
    let retry := (normalizeInit this init).(n_retry) in
    let run := request this fetchImpl path init start in
    fst run <> OutOfFuel
    /\ (1 <= Z.of_nat (List.length (snd run).(calls)) <= retry.(maxAttempts))
    /\ (snd run).(sleeps)
       = map (fun i => backoffDelay i retry)
           (range 1 (Z.of_nat (List.length (snd run).(calls)) - 1)).
Proof.
  intros options fetchImpl path init this retry run.
  pose proof (constructed_maxAttempts options init) as Hmax.
  fold this in Hmax. fold retry in Hmax.
  destruct run as [out t] eqn:Hrun. subst run. unfold request in Hrun.
  apply attemptLoop_trace in Hrun; [|fold retry; lia|fold retry; lia].
  destruct Hrun as (n & Hn & Hc & Hs & Ho). fold retry in Hn, Hs.
  cbn [fst snd]. cbn [calls sleeps start app] in Hc, Hs.
  rewrite Hc, repeat_length. split; [exact Ho|]. split; [lia|].
  rewrite Hs. unfold range. f_equal. f_equal. lia.
Qed.

Lemma parseSuccessResponse_value :
  forall response d d' value,
    parseSuccessResponse response d = inl value ->
    parseSuccessResponse response d' = inl value.
Proof.
  intros response d d' value. unfold parseSuccessResponse.
  destruct (resp_status response =? 204); [auto|].
  destruct (negb (isJsonResponse response)); [auto|].
  destruct (resp_json response); [auto|discriminate].
Qed.

(** When the first [k] attempts fail in a retried way ([k] below
    [maxAttempts]) and the next one gets a success response whose body
    parses, the request returns the parsed body after [k] + 1 calls, having
    slept the backoff delays of the attempts 1 to [k]. *)
Theorem request_succeeds_after_retried_failures :
  forall (this : HttpClient) (fetchImpl : Fetch) (path : string)
         (init : RequestOptions) (k : nat) (response : Response)
         (value : Json),
    let resolved := normalizeInit this init in
    Z.of_nat k < resolved.(n_retry).(maxAttempts) ->
    (forall i, (i < k)%nat ->
       retried (resolveUrl this path) resolved (fetchImpl i) = true) ->
    (fetchImpl k).(settled) = inl response ->
    ok response = true ->
    parseSuccessResponse response (descriptorOf this path init) = inl value ->
    exists t,
      request this fetchImpl path init start = (Returned value, t)
      /\ List.length t.(calls) = S k
      /\ t.(sleeps)
         = map (fun i => backoffDelay i resolved.(n_retry))
             (range 1 (Z.of_nat k)).
Proof.
  intros this fetchImpl path init k response value resolved
         Hk Hre Hset Hok Hparse.
  unfold request. fold resolved.
  replace (Z.to_nat (maxAttempts (n_retry resolved)))
    with (k + S (Z.to_nat (maxAttempts (n_retry resolved)) - S k))%nat by lia.
  destruct (attemptLoop_after_retries fetchImpl (resolveUrl this path)
              (mergeHeaders this (ro_headers init) (ro_body init)) resolved
              (descriptorOf this path init) k
              (S (Z.to_nat (maxAttempts (n_retry resolved)) - S k)) 1 start)
    as (t' & E & Hc & Hs); [lia|lia|exact Hre|].
  unfold descriptorOf in E. fold resolved in E. rewrite E.
  cbn [calls sleeps start app] in Hc, Hs.
  rewrite (attemptLoop_success _ _ _ _ _ _ _ t' response value);
    [|lia|rewrite Hc, repeat_length; exact Hset|exact Hok|exact Hparse].
  eexists. split; [reflexivity|].
  cbn [calls sleeps logCall]. rewrite Hc, Hs, length_app, repeat_length.
  split; [cbn; lia|]. unfold range. f_equal. f_equal. lia.
Qed.

(** When every one of the [maxAttempts] attempts fails in a retried way,
    the request makes exactly [maxAttempts] calls, sleeps between them, and
    throws the error of the last attempt: the error of its response, or the
    status-0 NETWORK_ERROR error that wraps what it threw. *)
Theorem request_gives_up_after_last_attempt :
  forall (this : HttpClient) (fetchImpl : Fetch) (path : string)
         (init : RequestOptions) (k : nat),
    let resolved := normalizeInit this init in
    resolved.(n_retry).(maxAttempts) = Z.of_nat (S k) ->
    (forall i, (i <= k)%nat ->
       retried (resolveUrl this path) resolved (fetchImpl i) = true) ->
    exists t,
      request this fetchImpl path init start
      = (Threw (finalError (resolveUrl this path) resolved
                  (descriptorOf this path init) (fetchImpl k)), t)
      /\ List.length t.(calls) = S k
      /\ t.(sleeps)
         = map (fun i => backoffDelay i resolved.(n_retry))
             (range 1 (Z.of_nat k)).
Proof.
  intros this fetchImpl path init k resolved Hmax Hre.
  unfold request. fold resolved. rewrite Hmax, Nat2Z.id.
  replace (S k) with (k + 1)%nat by lia.
  destruct (attemptLoop_after_retries fetchImpl (resolveUrl this path)
              (mergeHeaders this (ro_headers init) (ro_body init)) resolved
              (descriptorOf this path init) k 1 1 start)
    as (t' & E & Hc & Hs); [lia|lia|intros i Hi; apply Hre; cbn; lia|].
  unfold descriptorOf in E. fold resolved in E. rewrite E.
  cbn [calls sleeps start app] in Hc, Hs.
  replace (1 + Z.of_nat k) with (maxAttempts (n_retry resolved)) by lia.
  rewrite attemptLoop_gives_up;
    [|rewrite Hc, repeat_length; apply Hre; lia].
  rewrite Hc, repeat_length.
  eexists. split; [reflexivity|].
  cbn [calls sleeps logCall]. rewrite Hc, Hs, length_app, repeat_length.
  split; [cbn; lia|]. unfold range. f_equal. f_equal. lia.
Qed.

Lemma request_succeeds_after_retried_failures_witness :
  exists t,
    request Scenario.plainClient recovers Scenario.statusPath
      (Scenario.getOptions false) start
    = (Returned (JObj [("taskId", JStr "task-1")]), t)
    /\ List.length t.(calls) = 3%nat
    /\ t.(sleeps) = [1000; 2000].
Proof.
  apply (request_succeeds_after_retried_failures Scenario.plainClient
           recovers Scenario.statusPath (Scenario.getOptions false) 2
           (okJson (JObj [("taskId", JStr "task-1")]))
           (JObj [("taskId", JStr "task-1")]));
    try reflexivity.
  intros [|[|i]] Hi; [reflexivity|reflexivity|lia].
Defined.

Lemma request_gives_up_after_last_attempt_witness :
  exists t,
    request Scenario.plainClient alwaysReset Scenario.statusPath
      (Scenario.getOptions false) start
    = (Threw (WorkflowAPIError "read ECONNRESET" 0 "NETWORK_ERROR" [] JNull
                (descriptorOf Scenario.plainClient Scenario.statusPath
                   (Scenario.getOptions false))
                (Some (Error "read ECONNRESET"))), t)
    /\ List.length t.(calls) = 3%nat
    /\ t.(sleeps) = [1000; 2000].
Proof.
  apply (request_gives_up_after_last_attempt Scenario.plainClient
           alwaysReset Scenario.statusPath (Scenario.getOptions false) 2);
    try reflexivity.
Defined.

(** A failure response whose status is not in [retryOnStatuses] ends
    the request at once, whatever attempts remain: one call, no sleep, and
    the error built from that response. *)
Theorem request_fails_at_once_on_unlisted_status :
  forall (this : HttpClient) (fetchImpl : Fetch) (path : string)
         (init : RequestOptions) (response : Response),
    let resolved := normalizeInit this init in
    1 <= resolved.(n_retry).(maxAttempts) ->
    (fetchImpl 0%nat).(settled) = inl response ->
    ok response = false ->
    shouldRetry response.(resp_status) resolved.(n_retry) = false ->
    exists t,
      request this fetchImpl path init start
      = (Threw (toWorkflowError response (descriptorOf this path init)), t)
      /\ List.length t.(calls) = 1%nat
      /\ t.(sleeps) = [].
Proof.
  intros this fetchImpl path init response resolved Hmax Hset Hok Hno.
  unfold request. fold resolved.
  destruct (Z.to_nat (maxAttempts (n_retry resolved))) as [|fuel] eqn:E;
    [lia|].
  rewrite (attemptLoop_raises_WorkflowAPIError _ _ _ _ _ fuel 1 start
             (toWorkflowError response (descriptorOf this path init)));
    [ |lia| |reflexivity].
  - eexists. split; [reflexivity|]. split; reflexivity.
  - unfold tryAttempt, performRequest. cbn [calls start List.length].
    rewrite Hset, Hok, Hno, andb_false_r. reflexivity.
Qed.

Lemma request_fails_at_once_on_unlisted_status_witness :
  exists t,
    request Scenario.plainClient notFound Scenario.statusPath
      (Scenario.getOptions false) start
    = (Threw (WorkflowAPIError "404 Not Found: no such task" 404 "Not Found"
                [("content-type", "text/plain")] (JStr "no such task")
                (descriptorOf Scenario.plainClient Scenario.statusPath
                   (Scenario.getOptions false))
                None), t)
    /\ List.length t.(calls) = 1%nat
    /\ t.(sleeps) = [].
Proof.
  apply (request_fails_at_once_on_unlisted_status Scenario.plainClient
           notFound Scenario.statusPath (Scenario.getOptions false)
           (response 404 "Not Found" "no such task"));
    first [reflexivity | vm_compute; discriminate].
Defined.

(** A success response (not 204) that announces JSON and whose body does
    not parse is never retried: the request throws, after that one call, a
    [WorkflowAPIError] with the status, status text and headers of the
    response, [null] data and the parse error as cause. *)
Theorem request_does_not_retry_unparseable_success :
  forall (this : HttpClient) (fetchImpl : Fetch) (path : string)
         (init : RequestOptions) (response : Response) (cause : JsError),
    let resolved := normalizeInit this init in
    1 <= resolved.(n_retry).(maxAttempts) ->
    (fetchImpl 0%nat).(settled) = inl response ->
    ok response = true ->
    response.(resp_status) <> 204 ->
    isJsonResponse response = true ->
    response.(resp_json) = inr cause ->
    exists t,
      request this fetchImpl path init start
      = (Threw (WorkflowAPIError "Failed to parse JSON response"
                  response.(resp_status) response.(resp_statusText)
                  (normalizeHeaders (Some (AsHeaders response.(resp_headers))))
                  JNull (descriptorOf this path init) (Some cause)), t)
      /\ List.length t.(calls) = 1%nat
      /\ t.(sleeps) = [].
Proof.
  intros this fetchImpl path init response cause resolved
         Hmax Hset Hok H204 Hjson Hcause.
  unfold request. fold resolved.
  destruct (Z.to_nat (maxAttempts (n_retry resolved))) as [|fuel] eqn:E;
    [lia|].
  rewrite (attemptLoop_raises_WorkflowAPIError _ _ _ _ _ fuel 1 start
             (WorkflowAPIError "Failed to parse JSON response"
                response.(resp_status) response.(resp_statusText)
                (normalizeHeaders (Some (AsHeaders response.(resp_headers))))
                JNull (descriptorOf this path init) (Some cause)));
    [ |lia| |reflexivity].
  - eexists. split; [reflexivity|]. split; reflexivity.
  - unfold tryAttempt, performRequest. cbn [calls start List.length].
    rewrite Hset, Hok. unfold parseSuccessResponse.
    replace (resp_status response =? 204) with false
      by (symmetry; apply Z.eqb_neq; exact H204).
    rewrite Hjson, Hcause. cbn [negb]. reflexivity.
Qed.

Lemma request_does_not_retry_unparseable_success_witness :
  exists t,
    request Scenario.plainClient (fun _ => answered garbled)
      Scenario.statusPath (Scenario.getOptions false) start
    = (Threw (WorkflowAPIError "Failed to parse JSON response" 200 "OK"
                [("content-type", "application/json; charset=utf-8")]
                JNull
                (descriptorOf Scenario.plainClient Scenario.statusPath
                   (Scenario.getOptions false))
                (Some (Error "Unexpected end of JSON input"))), t)
    /\ List.length t.(calls) = 1%nat
    /\ t.(sleeps) = [].
Proof.
  apply (request_does_not_retry_unparseable_success Scenario.plainClient
           (fun _ => answered garbled) Scenario.statusPath
           (Scenario.getOptions false) garbled
           (Error "Unexpected end of JSON input"));
    first [reflexivity | vm_compute; discriminate].
Defined.



End RetryProperties.

(* ------------------------------------------------------------------ *)
(** ** Further properties of headers, bodies, URLs and errors *)

Module HeaderProperties.
Import Js Errors Http HttpSpec MergeSpec StringFacts HeadersProofs.

(** An [Error] is classified as a transient network error exactly when
    its message, upper-cased, contains ECONNRESET, ENOTFOUND, EAI_AGAIN or
    ETIMEDOUT.  The entry [socket hang up] of [retryableMessages] never
    matches, since it is compared with the upper-cased message. *)
Theorem network_error_classification :
  forall message,
    isRetryableNetworkError (Error message)
    = existsb (fun marker => includes (toUpperCase message) marker)
        upperMarkers.
Proof.
  intros message. unfold isRetryableNetworkError, retryableMessages.
  cbn [isAbortError message_of existsb upperMarkers].
  rewrite (includes_upper_lower "s" "ocket hang up" message eq_refl).
  reflexivity.
Qed.

(** The message of an error built from a response always starts with the
    status, a space and the status text, whatever the parsed body is. *)
Theorem buildErrorMessage_starts_with_status :
  forall (response : Response) (data : Json),
    prefix (numberToString response.(resp_status) ++ " "
            ++ response.(resp_statusText))
      (buildErrorMessage response data) = true.
Proof.
  intros response data. unfold buildErrorMessage.
  set (plain := numberToString (resp_status response) ++ " "
                ++ resp_statusText response).
  assert (P1 : prefix plain plain = true) by apply prefix_refl.
  assert (P2 : forall t, prefix plain (plain ++ t) = true)
    by (intros; apply prefix_append).
  destruct data as [| | |[|c s]| |fields]; auto.
  destruct (match field "message" fields with
            | Some JNull | None => field "error" fields
            | Some m => Some m
            end) as [[| | |[|c s]| |]|]; auto.
Qed.

Lemma dropSlashes_head :
  forall l r, dropSlashes l <> "/"%char :: r.
Proof.
  induction l as [|c l IH]; intros r; cbn; [discriminate|].
  destruct (Ascii.eqb c "/") eqn:E; [apply IH|].
  intros H. inversion H; subst. rewrite Ascii.eqb_refl in E. discriminate.
Qed.

Lemma stripTrailingSlashes_end :
  forall s r, stripTrailingSlashes s <> r ++ "/".
Proof.
  intros s r H. unfold stripTrailingSlashes in H.
  apply (f_equal list_ascii_of_string) in H.
  rewrite list_ascii_of_string_of_list_ascii, list_of_append in H.
  apply (f_equal (@rev ascii)) in H.
  rewrite rev_involutive, rev_app_distr in H. cbn in H.
  exact (dropSlashes_head _ _ H).
Qed.

Lemma startsWith_slash : forall p, startsWith ("/" ++ p) "/" = true.
Proof. intros [|c p]; reflexivity. Qed.

Lemma startsWith_slash_lower :
  forall p, startsWith (toLowerCase ("/" ++ p)) "http://" = false
            /\ startsWith (toLowerCase ("/" ++ p)) "https://" = false.
Proof. intros p. split; reflexivity. Qed.

(** For a client built by the constructor, the stored base URL never
    ends with a slash, and a relative path resolves to the same URL with
    and without its leading slash: the base URL, one slash, the path. *)
Theorem resolveUrl_joins_with_one_slash :
  forall (options : HttpClientOptions) (p : string),
    let this := newHttpClient options in
    startsWith (toLowerCase p) "http://" = false ->
    startsWith (toLowerCase p) "https://" = false ->
    startsWith p "/" = false ->
    resolveUrl this p = this.(baseUrl) ++ "/" ++ p
    /\ resolveUrl this ("/" ++ p) = this.(baseUrl) ++ "/" ++ p
    /\ forall r, this.(baseUrl) <> r ++ "/".
Proof.
  intros options p this H1 H2 H3. unfold resolveUrl.
  rewrite H1, H2, H3.
  destruct (startsWith_slash_lower p) as [-> ->]. cbn [orb].
  rewrite startsWith_slash.
  split; [reflexivity|]. split; [reflexivity|].
  intros r. apply stripTrailingSlashes_end.
Qed.

Lemma resolveUrl_joins_with_one_slash_witness :
  resolveUrl (newHttpClient
                {| opt_baseUrl := "https://api.example.com///";
                   opt_apiKey := "sts_test_key"; opt_timeoutMs := None;
                   opt_defaultHeaders := None; opt_retry := None;
                   opt_userAgentSuffix := None |}) "api/v1"
  = "https://api.example.com/api/v1".
Proof.
  apply (proj1 (resolveUrl_joins_with_one_slash
                  {| opt_baseUrl := "https://api.example.com///";
                     opt_apiKey := "sts_test_key"; opt_timeoutMs := None;
                     opt_defaultHeaders := None; opt_retry := None;
                     opt_userAgentSuffix := None |} "api/v1"
                  eq_refl eq_refl eq_refl)).
Defined.

Lemma per_call_header_wins_witness :
  Headers.get
    (mergeHeaders Scenario.lowerAcceptClient
       (Some (HArray [("ACCEPT", "text/csv"); ("accept", "text/html")])) None)
    "Accept" = Some "text/html".
Proof.
  apply (proj1 (HttpProofs.per_call_header_wins Scenario.lowerAcceptClient
                  [("ACCEPT", "text/csv"); ("accept", "text/html")] None
                  "Accept" "text/html" eq_refl)).
Defined.

(** A body that is an object for [typeof] and none of the binary classes
    is always sent with a content type: the one that the default and
    per-call headers give when there is one, [application/json]
    otherwise. *)
Theorem structured_body_gets_content_type :
  forall (this : HttpClient) (customHeaders : option HeadersInit)
         (body : option Body),
    structured body = true ->
    Headers.get (mergeHeaders this customHeaders body) "content-type"
    = Some (orElse
              (Headers.get (mergeHeaders this customHeaders None)
                 "content-type")
              "application/json").
Proof.
  intros this customHeaders body Hs. unfold structured in Hs.
  apply andb_prop in Hs. destruct Hs as [Hobj Hbin].
  assert (Hnull : isNullish body = false)
    by (destruct body as [[[]| | | |]|]; try reflexivity; discriminate).
  unfold mergeHeaders. rewrite Hnull, Hobj, Hbin. cbn [negb andb isNullish].
  set (h := match customHeaders with
            | Some (HInstance h0) => setAll _ (Headers.iteration h0)
            | Some (HArray pairs) => setAll _ pairs
            | Some (HRecord o) => setAll _ (JsObject.entries o)
            | None => _
            end).
  destruct (Headers.get h "content-type") as [v|] eqn:E.
  - rewrite E. reflexivity.
  - rewrite get_values, values_of_set. reflexivity.
Qed.

Lemma structured_body_gets_content_type_witness :
  Headers.get
    (mergeHeaders Scenario.plainClient None (Some (BJson (JObj []))))
    "content-type" = Some "application/json".
Proof.
  apply (structured_body_gets_content_type Scenario.plainClient None
           (Some (BJson (JObj []))) eq_refl).
Defined.

(** Whatever the headers are, [serializeBody] sends nothing for [null],
    a string as it is, and any other JSON value as its [JSON.stringify]
    text: the content type does not change how a JSON body is encoded. *)
Theorem serializeBody_json_values :
  forall (stringify : Json -> string) (headers : Headers.t) (j : Json),
    serializeBody stringify (Some (BJson j)) headers
    = match j with
      | JNull => None
      | JStr text =>
          Some (SentText text)
      | _ => Some (SentText (stringify j))
      end.
Proof.
  intros stringify headers j. unfold serializeBody.
  destruct j; cbn [typeofObject andb]; try reflexivity;
    destruct (Headers.get headers "Content-Type") as [ct|];
    try reflexivity; destruct (includes ct "application/json"); reflexivity.
Qed.

(** *** Default headers of a constructed client *)

Lemma values_of_app :
  forall (h1 h2 : Headers.t) name,
    Headers.values_of (h1 ++ h2)%list name
    = (Headers.values_of h1 name ++ Headers.values_of h2 name)%list.
Proof.
  intros h1 h2 name. unfold Headers.values_of.
  rewrite filter_app, map_app. reflexivity.
Qed.

Lemma values_of_append :
  forall h n v name,
    Headers.values_of (Headers.append h n v) name
    = (Headers.values_of h name
       ++ (if Headers.name_eqb n name then [v] else []))%list.
Proof.
  intros h n v name. unfold Headers.append.
  destruct (find (Headers.matches n) h) as [[n' x]|] eqn:F.
  - apply find_some in F. destruct F as [_ F].
    unfold Headers.matches in F. cbn [fst] in F.
    rewrite values_of_app, values_of_cons, (name_eqb_left _ _ name F).
    destruct (Headers.name_eqb n name); reflexivity.
  - rewrite values_of_app, values_of_cons.
    destruct (Headers.name_eqb n name); reflexivity.
Qed.

(** [new Headers(record)] holds, under each name, the values of the keys
    of the record that match the name, in order. *)
Lemma values_of_ofRecord :
  forall o name,
    Headers.values_of (Headers.ofRecord o) name
    = map snd (filter (Headers.matches name) o).
Proof.
  intros o name. unfold Headers.ofRecord, JsObject.entries.
  assert (G : forall entries h,
            Headers.values_of
              (fold_left (fun h kv => Headers.append h (fst kv) (snd kv))
                 entries h)
              name
            = (Headers.values_of h name
               ++ map snd (filter (Headers.matches name) entries))%list).
  { clear o. intros entries.
    induction entries as [|[k v] o IH]; intros h; cbn [fold_left fst snd].
    - cbn [filter map]. rewrite app_nil_r. reflexivity.
    - rewrite IH, values_of_append. cbn [filter].
      unfold Headers.matches at 2. cbn [fst].
      destruct (Headers.name_eqb k name); cbn [map snd];
        rewrite <- app_assoc; reflexivity. }
  rewrite G. reflexivity.
Qed.

Lemma filter_assign_other :
  forall o k v name,
    Headers.name_eqb k name = false ->
    filter (Headers.matches name) (JsObject.assign o k v)
    = filter (Headers.matches name) o.
Proof.
  intros o k v name Hk.
  induction o as [|[k' v'] o IH]; cbn [JsObject.assign filter].
  - unfold Headers.matches. cbn [fst]. rewrite Hk. reflexivity.
  - destruct (String.eqb_spec k' k) as [->|Hne]; cbn [filter].
    + assert (E : forall x, Headers.matches name (k, x) = false)
        by (intros x; exact Hk).
      rewrite !E. reflexivity.
    + rewrite IH. reflexivity.
Qed.

Lemma filter_assign_all :
  forall pairs o name,
    mentions name pairs = false ->
    filter (Headers.matches name)
      (fold_left (fun hs kv => JsObject.assign hs (fst kv) (snd kv)) pairs o)
    = filter (Headers.matches name) o.
Proof.
  induction pairs as [|[k v] pairs IH]; intros o name Hm;
    cbn [fold_left fst snd]; [reflexivity|].
  unfold mentions in Hm. cbn [existsb fst] in Hm.
  apply orb_false_elim in Hm. destruct Hm as [Hk Hrest].
  rewrite IH by exact Hrest. apply filter_assign_other. exact Hk.
Qed.

Lemma lastValue_unmentioned :
  forall name pairs, mentions name pairs = false -> lastValue name pairs = None.
Proof.
  intros name pairs. unfold lastValue.
  induction pairs as [|[k v] pairs IH] using rev_ind; [reflexivity|].
  unfold mentions. rewrite existsb_app, fold_left_app. cbn [existsb fold_left fst].
  intros H. apply orb_false_elim in H. destruct H as [H1 H2].
  rewrite orb_false_r in H2. rewrite H2. apply IH. exact H1.
Qed.

(** A [WorkflowClient] is only built with a non-empty API key, and every
    request of the client carries that key under [x-api-key], unless the
    client-wide or the per-call headers name that header themselves. *)
Theorem api_key_header_is_sent :
  forall (options : Construct.WorkflowClientOptions) (client : HttpClient)
         (pairs : list (string * string)) (body : option Body),
    Construct.newWorkflowClient options = inl client ->
    mentions "x-api-key" (orElse options.(Construct.wc_defaultHeaders) [])
    = false ->
    mentions "x-api-key" pairs = false ->
    options.(Construct.wc_apiKey) <> ""
    /\ Headers.get (mergeHeaders client None body) "x-api-key"
       = Some options.(Construct.wc_apiKey)
    /\ Headers.get (mergeHeaders client (Some (HArray pairs)) body)
         "x-api-key"
       = Some options.(Construct.wc_apiKey).
Proof.
  intros options client pairs body Hnew Hdef Hcall.
  unfold Construct.newWorkflowClient in Hnew.
  destruct (String.eqb_spec (Construct.wc_apiKey options) "") as [|Hkey];
    [discriminate|].
  inversion Hnew; subst client; clear Hnew.
  split; [exact Hkey|].
  assert (Hbase :
    Headers.values_of
      (Headers.ofRecord
         (defaultHeaders
            (newHttpClient
               {| opt_baseUrl :=
                    orElse (Construct.wc_baseUrl options)
                      Construct.DEFAULT_BASE_URL;
                  opt_apiKey := Construct.wc_apiKey options;
                  opt_timeoutMs := Construct.wc_timeoutMs options;
                  opt_defaultHeaders := Construct.wc_defaultHeaders options;
                  opt_retry := Construct.wc_retry options;
                  opt_userAgentSuffix := Construct.wc_userAgentSuffix options
               |}))) "x-api-key"
    = [Construct.wc_apiKey options]).
  { rewrite values_of_ofRecord. unfold newHttpClient.
    cbn [defaultHeaders opt_apiKey opt_defaultHeaders opt_userAgentSuffix].
    unfold buildDefaultHeaders.
    destruct (Construct.wc_defaultHeaders options) as [o|];
      cbn [orElse] in Hdef.
    - unfold JsObject.entries. rewrite filter_assign_all by exact Hdef.
      reflexivity.
    - reflexivity. }
  assert (G : forall h,
            Headers.values_of h "x-api-key" = [Construct.wc_apiKey options] ->
            Headers.get
              (if negb (isNullish body) && typeofObject body
                  && negb (isBinary body)
                  && match Headers.get h "content-type" with
                     | None => true
                     | Some _ => false
                     end
               then Headers.set h "Content-Type" "application/json"
               else h) "x-api-key" = Some (Construct.wc_apiKey options)).
  { intros h Hv.
    destruct (negb (isNullish body) && typeofObject body
              && negb (isBinary body)
              && match Headers.get h "content-type" with
                 | None => true
                 | Some _ => false
                 end).
    - rewrite get_values, values_of_set. cbn. rewrite Hv. reflexivity.
    - rewrite get_values, Hv. reflexivity. }
  split; unfold mergeHeaders; apply G.
  - exact Hbase.
  - rewrite HttpProofs.values_of_setAll, (lastValue_unmentioned _ _ Hcall).
    exact Hbase.
Qed.

Lemma api_key_header_is_sent_witness :
  Headers.get
    (mergeHeaders
       (newHttpClient
          {| opt_baseUrl := Construct.DEFAULT_BASE_URL;
             opt_apiKey := "sts_test_key"; opt_timeoutMs := None;
             opt_defaultHeaders := None; opt_retry := None;
             opt_userAgentSuffix := None |})
       (Some (HArray [("Accept", "text/csv")])) None)
    "x-api-key" = Some "sts_test_key".
Proof.
  apply (proj2 (proj2
           (api_key_header_is_sent (keyOnly "sts_test_key") _
              [("Accept", "text/csv")] None eq_refl eq_refl eq_refl))).
Defined.

(** *** The headers of an error *)

Lemma lookup_assign :
  forall o k v k',
    JsObject.lookup (JsObject.assign o k v) k'
    = if String.eqb k k' then Some v else JsObject.lookup o k'.
Proof.
  intros o k v k'.
  induction o as [|[a x] o IH]; cbn [JsObject.assign JsObject.lookup].
  - reflexivity.
  - destruct (String.eqb_spec a k) as [->|Hne]; cbn [JsObject.lookup].
    + destruct (String.eqb k k'); reflexivity.
    + rewrite IH. destruct (String.eqb_spec a k') as [->|]; [|reflexivity].
      destruct (String.eqb_spec k k'); [congruence|reflexivity].
Qed.

(** After a run of assignments, a key whose assigned values are all [v]
    and that was assigned at least once holds [v]; a key that was not
    assigned holds what it held. *)
Lemma lookup_assigned :
  forall pairs o k v,
    (forall x, In (k, x) pairs -> x = v) ->
    (exists x, In (k, x) pairs) ->
    JsObject.lookup
      (fold_left (fun acc kv => JsObject.assign acc (fst kv) (snd kv)) pairs o)
      k = Some v.
Proof.
  induction pairs as [|[a x] pairs IH] using rev_ind; intros o k v Hall Hex.
  - destruct Hex as (x & []).
  - rewrite fold_left_app. cbn [fold_left fst snd]. rewrite lookup_assign.
    destruct (String.eqb_spec a k) as [->|Hne].
    + f_equal. apply Hall. apply in_or_app. right. left. reflexivity.
    + apply IH.
      * intros y Hy. apply Hall. apply in_or_app. left. exact Hy.
      * destruct Hex as (y & Hy). apply in_app_or in Hy.
        destruct Hy as [Hy|[Hy|[]]]; [eauto|]. congruence.
Qed.

Lemma lookup_unassigned :
  forall pairs o k,
    (forall x, ~ In (k, x) pairs) ->
    JsObject.lookup
      (fold_left (fun acc kv => JsObject.assign acc (fst kv) (snd kv)) pairs o)
      k = JsObject.lookup o k.
Proof.
  induction pairs as [|[a x] pairs IH]; intros o k Hno;
    cbn [fold_left fst snd]; [reflexivity|].
  rewrite IH by (intros y Hy; apply (Hno y); right; exact Hy).
  rewrite lookup_assign.
  destruct (String.eqb_spec a k) as [->|]; [|reflexivity].
  exfalso. apply (Hno x). left. reflexivity.
Qed.

Lemma In_insert_sorted :
  forall x n l, In x (Headers.insert_sorted n l) <-> x = n \/ In x l.
Proof.
  intros x n l. induction l as [|m l IH]; cbn [Headers.insert_sorted In].
  - intuition.
  - destruct (String.eqb_spec n m) as [->|Hne]; cbn [In]; [intuition|].
    destruct (String.ltb n m); cbn [In]; [intuition|].
    rewrite IH. intuition.
Qed.

Lemma In_sorted_names :
  forall h x,
    In x (Headers.sorted_names h)
    <-> exists p, In p h /\ x = toLowerCase (fst p).
Proof.
  intros h x. unfold Headers.sorted_names.
  assert (G : forall acc,
            In x (fold_left
                    (fun acc p =>
                       Headers.insert_sorted (toLowerCase (fst p)) acc) h acc)
            <-> In x acc \/ exists p, In p h /\ x = toLowerCase (fst p)).
  { induction h as [|q h IH]; intros acc; cbn [fold_left].
    - split; [auto|]. intros [H|(p & [] & _)]. exact H.
    - rewrite IH, In_insert_sorted. split.
      + intros [[->|H]|(p & Hp & E)]; eauto.
        * right. exists q. split; [left; reflexivity|reflexivity].
        * right. exists p. split; [right; exact Hp|exact E].
      + intros [H|(p & [<-|Hp] & E)]; eauto. }
  rewrite G. cbn [In]. intuition.
Qed.

(** The headers object of an error built from a [Headers] instance is
    keyed by lower-cased names: reading it at the lower-cased name gives
    what [headers.get(name)] gives on the response ([set-cookie] aside). *)
Theorem normalizeHeaders_lookup :
  forall (h : Headers.t) (name : string),
    toLowerCase name <> "set-cookie" ->
    JsObject.lookup (normalizeHeaders (Some (AsHeaders h))) (toLowerCase name)
    = Headers.get h name.
Proof.
  intros h name Hcookie. set (k := toLowerCase name).
  assert (Hk : Headers.name_eqb k name = true).
  { unfold Headers.name_eqb, k. rewrite toLowerCase_idem.
    apply String.eqb_refl. }
  assert (Hget : Headers.get h name = Headers.get h k).
  { rewrite !get_values, (HttpProofs.values_of_name h k name Hk).
    reflexivity. }
  rewrite Hget. unfold normalizeHeaders, Headers.iteration.
  assert (Hpairs : forall x,
            In (k, x)
              (flat_map
                 (fun n =>
                    if String.eqb n "set-cookie"
                    then map (fun v => (n, v)) (Headers.values_of h n)
                    else match Headers.get h n with
                         | Some v => [(n, v)]
                         | None => []
                         end) (Headers.sorted_names h))
            -> Headers.get h k = Some x).
  { intros x Hin. apply in_flat_map in Hin. destruct Hin as (n & _ & Hn).
    cbn beta in Hn.
    destruct (String.eqb_spec n "set-cookie") as [En|_].
    - apply in_map_iff in Hn. destruct Hn as (v & E & _).
      injection E as E1 E2. exfalso. apply Hcookie. rewrite <- En.
      symmetry. exact E1.
    - destruct (Headers.get h n) eqn:G; [|destruct Hn].
      destruct Hn as [E|[]]. injection E as E1 E2. rewrite <- E1, <- E2.
      exact G. }
  destruct (Headers.get h k) as [v|] eqn:G.
  - apply lookup_assigned.
    + intros x Hx. apply Hpairs in Hx. congruence.
    + exists v. apply in_flat_map. exists k. split.
      * apply In_sorted_names.
        unfold Headers.get in G.
        destruct (Headers.contains h k) eqn:C; [|discriminate].
        unfold Headers.contains in C. apply existsb_exists in C.
        destruct C as (p & Hp & Hm). exists p. split; [exact Hp|].
        unfold Headers.matches, Headers.name_eqb in Hm.
        apply String.eqb_eq in Hm. unfold k in Hm.
        rewrite toLowerCase_idem in Hm. symmetry. exact Hm.
      * destruct (String.eqb_spec k "set-cookie"); [contradiction|].
        rewrite G. left. reflexivity.
  - rewrite lookup_unassigned; [reflexivity|].
    intros x Hx. apply Hpairs in Hx. discriminate.
Qed.

Lemma normalizeHeaders_lookup_witness :
  JsObject.lookup
    (normalizeHeaders
       (Some (AsHeaders [("Content-Type", "text/plain"); ("X-Trace", "a");
                         ("x-trace", "b")])))
    "x-trace" = Some "a, b".
Proof.
  apply (normalizeHeaders_lookup
           [("Content-Type", "text/plain"); ("X-Trace", "a"); ("x-trace", "b")]
           "X-Trace").
  vm_compute. discriminate.
Defined.

End HeaderProperties.

(* ------------------------------------------------------------------ *)
(** ** Further properties of the workflow client *)

Module ClientProperties.
Import Js Errors Client ClientSpec OperationSpec ClientProofs.

(** [executeWorkflow] with a non-blank workflow id and a serializable
    input issues exactly one transport call, the POST of the payload to
    [/api/v1], and returns or throws what that call settles to; it fires no
    callback and starts no timer. *)
Theorem executeWorkflow_issues_one_post :
  forall (world : World) (i : ExecuteWorkflowInput) (value : Json) (st : St),
    trim i.(workflowId) <> "" ->
    i.(input) = Some value ->
    exists st',
      executeWorkflow world i st
      = (settle (world.(http) (List.length st.(requests))), st')
      /\ st'.(requests) = (st.(requests) ++ [triggerRequest i value])%list
      /\ st'.(updates) = st.(updates) /\ st'.(waits) = st.(waits)
      /\ st'.(slept) = st.(slept).
Proof.
  intros world i value st Hid Hin.
  unfold executeWorkflow, bind, assertString, ensureSerializable.
  destruct (String.eqb_spec (trim (workflowId i)) ""); [contradiction|].
  unfold ret. rewrite Hin. unfold httpRequest.
  destruct (http world (List.length (requests st)));
    eexists; (split; [reflexivity|repeat split]).
Qed.

(** With a blank workflow id or an input that is not serializable,
    [executeWorkflow] throws a plain [Error] and leaves the state as it
    was, and so does [executeAndWait]: nothing is triggered or polled. *)
Theorem executeWorkflow_rejects_locally :
  forall (world : World) (fuel : nat) (i : ExecuteWorkflowInput)
         (options : ExecuteAndWaitOptions) (st : St),
    trim i.(workflowId) = "" \/ i.(input) = None ->
    exists text,
      executeWorkflow world i st = (Threw (Error text), st)
      /\ executeAndWait world fuel i options st = (Threw (Error text), st).
Proof.
  intros world fuel i options st Hbad.
  unfold executeAndWait, executeAndWaitWith.
  unfold executeWorkflow, bind, assertString, ensureSerializable.
  destruct (String.eqb_spec (trim (workflowId i)) "") as [Hb|Hn].
  - unfold throw. eexists. split; reflexivity.
  - destruct Hbad as [Hb|Hb]; [contradiction|]. rewrite Hb.
    unfold ret, throw. eexists. split; reflexivity.
Qed.

(** [continueTask] with a non-blank task id and either APPROVE or a
    non-empty message issues exactly one transport call, the POST of the
    decision to [/api/v1/continue], and returns or throws what it settles
    to. *)
Theorem continueTask_issues_one_post :
  forall (world : World) (params : ContinueTaskInput) (st : St),
    trim params.(ct_taskId) <> "" ->
    params.(ct_decision) = APPROVE \/ missing params.(ct_message) = false ->
    exists st',
      continueTask world params st
      = (settle (world.(http) (List.length st.(requests))), st')
      /\ st'.(requests) = (st.(requests) ++ [continueRequest params])%list.
Proof.
  intros world params st Hid Hok.
  unfold continueTask, bind, assertString.
  destruct (String.eqb_spec (trim (ct_taskId params)) ""); [contradiction|].
  unfold ret, throw, httpRequest.
  destruct Hok as [Hd|Hm].
  - rewrite Hd.
    destruct (http world (List.length (requests st)));
      eexists; (split; [reflexivity|unfold continueRequest; rewrite Hd;
                                    reflexivity]).
  - rewrite Hm.
    destruct (ct_decision params) eqn:Hd;
      destruct (http world (List.length (requests st)));
      eexists; (split; [reflexivity|unfold continueRequest; rewrite Hd;
                                    reflexivity]).
Qed.

(** With a task id that is empty or white space only, [getTaskStatus],
    [waitForCompletion] and [continueTask] throw the same plain [Error] and
    leave the state as it was: no transport call, no clock reading. *)
Theorem blank_task_id_is_refused :
  forall (world : World) (fuel : nat) (task : string)
         (options : WaitForCompletionOptions) (decision : ApprovalDecision)
         (message : option string) (st : St),
    trim task = "" ->
    getTaskStatus world task st = (Threw blankTaskId, st)
    /\ waitForCompletion world fuel task options st = (Threw blankTaskId, st)
    /\ continueTask world
         {| ct_taskId := task; ct_decision := decision;
            ct_message := message |} st
       = (Threw blankTaskId, st).
Proof.
  intros world fuel task options decision message st Hblank.
  unfold getTaskStatus, waitForCompletion, continueTask, bind, assertString.
  cbn [ct_taskId]. rewrite Hblank. cbn. repeat split.
Qed.

(** [abortedError] always gives a [DOMException] named AbortError: the
    reason of the signal when it is one, and otherwise a fresh one with
    the message [The operation was aborted]. *)
Theorem abortedError_is_AbortError :
  forall (sig : AbortSignal),
    isAbortError (abortedError sig) = true
    /\ (isAbortError sig.(reason) = true -> abortedError sig = sig.(reason))
    /\ (isAbortError sig.(reason) = false ->
        abortedError sig
        = DOMException "AbortError" "The operation was aborted").
Proof.
  intros [r]. unfold abortedError. cbn [reason].
  destruct (isAbortError r) eqn:E; repeat split;
    first [exact E | reflexivity | discriminate].
Qed.

Lemma getTaskStatus_threw :
  forall (world : World) task st e,
    trim task <> "" ->
    world.(http) (List.length st.(requests)) = inr e ->
    exists st',
      getTaskStatus world task st = (Threw e, st')
      /\ st'.(requests) = (st.(requests) ++ [statusRequest task])%list.
Proof.
  intros world task st e Hne Hh. unfold getTaskStatus, bind, assertString.
  destruct (String.eqb_spec (trim task) ""); [contradiction|].
  unfold ret, httpRequest. rewrite Hh.
  eexists. split; reflexivity.
Qed.

Section PollMore.

Variable world : World.
Variable task : string.
Variable options : WaitForCompletionOptions.
Variable startedAt : Z.

Local Abbreviation loop := (pollLoop world task options startedAt).

Lemma pollLoop_fails :
  forall fuel last st e,
    uncancelled world options.(signal) -> trim task <> "" ->
    world.(http) (List.length st.(requests)) = inr e ->
    exists st',
      loop (S fuel) last st = (Threw e, st')
      /\ st'.(requests) = (st.(requests) ++ [statusRequest task])%list.
Proof.
  intros fuel last st e Hq Hne Hh. cbn [pollLoop].
  destruct (throwIfAborted_uncancelled world options st Hq)
    as (st0 & E0 & (L1 & L2 & L3 & L4)).
  rewrite (bind_returned _ _ _ _ _ _ _ E0).
  rewrite <- L1 in Hh.
  destruct (getTaskStatus_threw world task st0 e Hne Hh) as (st1 & E1 & R1).
  unfold bind at 1. rewrite E1.
  exists st1. split; [reflexivity|]. rewrite R1, L1. reflexivity.
Qed.

(** [n] polls in a row that do not stop the wait and pass the deadline
    test. *)
Lemma pollLoop_after_continuing :
  forall n fuel last st,
    uncancelled world options.(signal) -> trim task <> "" ->
    (forall i, (i < n)%nat ->
       exists ri, world.(http) (List.length st.(requests) + i)%nat = inl ri
                  /\ stopping options ri = false
                  /\ world.(now) (st.(clockReads) + i)%nat - startedAt
                     < maxWaitOf options) ->
    exists last' st1,
      loop (n + fuel) last st = loop fuel last' st1
      /\ st1.(requests)
         = (st.(requests) ++ repeat (statusRequest task) n)%list
      /\ st1.(clockReads) = (st.(clockReads) + n)%nat.
Proof.
  induction n as [|n IH]; intros fuel last st Hq Hne Hpolls.
  - exists last, st. rewrite app_nil_r, Nat.add_0_r. auto.
  - destruct (Hpolls 0%nat ltac:(lia)) as (r0 & Hh0 & Hs0 & Hearly).
    rewrite Nat.add_0_r in Hh0, Hearly. cbn [Nat.add].
    destruct (pollLoop_continues world task options startedAt (n + fuel)
                last st r0 Hq Hne Hh0 Hs0 Hearly) as (st1 & E & R & U & C).
    assert (Hlen : List.length (requests st1) = S (List.length (requests st)))
      by (rewrite R, length_app, Nat.add_1_r; reflexivity).
    destruct (IH fuel (Some (status r0)) st1 Hq Hne) as (last' & st2 & E' & R' & C').
    + intros i Hi. destruct (Hpolls (S i) ltac:(lia)) as (ri & A & B & D).
      exists ri. rewrite Hlen, C. rewrite !Nat.add_succ_r in A, D. auto.
    + exists last', st2. split; [rewrite E; exact E'|].
      split; [rewrite R', R, <- app_assoc; reflexivity|].
      rewrite C', C. lia.
Qed.

End PollMore.

Lemma continuing_from_initial :
  forall (world : World) (options : WaitForCompletionOptions) (n : nat)
         (st0 : St),
    st0.(requests) = [] -> st0.(clockReads) = 1%nat ->
    (forall i, (i < n)%nat ->
       exists ri, world.(http) i = inl ri /\ stopping options ri = false
                  /\ world.(now) (S i) - world.(now) 0%nat
                     < maxWaitOf options) ->
    forall i, (i < n)%nat ->
      exists ri, world.(http) (List.length st0.(requests) + i)%nat = inl ri
                 /\ stopping options ri = false
                 /\ world.(now) (st0.(clockReads) + i)%nat - world.(now) 0%nat
                    < maxWaitOf options.
Proof.
  intros world options n st0 A1 A3 H i Hi. rewrite A1, A3. cbn.
  apply H. exact Hi.
Qed.

(** When the polls 0 to [n] - 1 of an uncancelled wait are answered with
    records that do not stop it, each within the deadline, and poll [n] is
    answered with a stopping record, the wait returns that record after
    exactly [n] + 1 status calls. *)
Theorem wait_returns_first_stopping_record :
  forall (world : World) (fuel : nat) (task : string)
         (options : WaitForCompletionOptions) (n : nat)
         (r : TaskStatusResponse),
    trim task <> "" ->
    uncancelled world options.(signal) ->
    (n < fuel)%nat ->
    (forall i, (i < n)%nat ->
       exists ri, world.(http) i = inl ri /\ stopping options ri = false
                  /\ world.(now) (S i) - world.(now) 0%nat
                     < maxWaitOf options) ->
    world.(http) n = inl r ->
    stopping options r = true ->
    exists st',
      waitForCompletion world fuel task options initial = (Returned r, st')
      /\ st'.(requests) = repeat (statusRequest task) (S n).
Proof.
  intros world fuel task options n r Hne Hq Hfuel Hpolls Hh Hs.
  destruct (waitForCompletion_starts world fuel task options initial Hne)
    as (st0 & -> & A1 & A2 & A3).
  cbn in A1, A3. change (clockReads initial) with 0%nat.
  replace fuel with (n + S (fuel - S n))%nat by lia.
  destruct (pollLoop_after_continuing world task options (now world 0%nat)
              n (S (fuel - S n)) None st0 Hq Hne
              (continuing_from_initial world options n st0 A1 A3 Hpolls))
    as (last' & st1 & -> & R1 & C1).
  destruct (pollLoop_stops world task options (now world 0%nat)
              (fuel - S n) last' st1 r Hq Hne) as (st' & E & R & _);
    [rewrite R1, A1; cbn [app]; rewrite repeat_length; exact Hh|exact Hs|].
  exists st'. split; [exact E|].
  rewrite R, R1, A1. cbn [app].
  change [statusRequest task] with (repeat (statusRequest task) 1).
  rewrite <- repeat_app. f_equal. lia.
Qed.

(** When poll [n] of such a wait fails, the wait throws the error of
    that transport call unchanged after exactly [n] + 1 status calls: the
    client does not poll again. *)
Theorem wait_ends_on_failed_poll :
  forall (world : World) (fuel : nat) (task : string)
         (options : WaitForCompletionOptions) (n : nat) (e : JsError),
    trim task <> "" ->
    uncancelled world options.(signal) ->
    (n < fuel)%nat ->
    (forall i, (i < n)%nat ->
       exists ri, world.(http) i = inl ri /\ stopping options ri = false
                  /\ world.(now) (S i) - world.(now) 0%nat
                     < maxWaitOf options) ->
    world.(http) n = inr e ->
    exists st',
      waitForCompletion world fuel task options initial = (Threw e, st')
      /\ st'.(requests) = repeat (statusRequest task) (S n).
Proof.
  intros world fuel task options n e Hne Hq Hfuel Hpolls Hh.
  destruct (waitForCompletion_starts world fuel task options initial Hne)
    as (st0 & -> & A1 & A2 & A3).
  cbn in A1, A3. change (clockReads initial) with 0%nat.
  replace fuel with (n + S (fuel - S n))%nat by lia.
  destruct (pollLoop_after_continuing world task options (now world 0%nat)
              n (S (fuel - S n)) None st0 Hq Hne
              (continuing_from_initial world options n st0 A1 A3 Hpolls))
    as (last' & st1 & -> & R1 & C1).
  destruct (pollLoop_fails world task options (now world 0%nat)
              (fuel - S n) last' st1 e Hq Hne) as (st' & E & R);
    [rewrite R1, A1; cbn [app]; rewrite repeat_length; exact Hh|].
  exists st'. split; [exact E|].
  rewrite R, R1, A1. cbn [app].
  change [statusRequest task] with (repeat (statusRequest task) 1).
  rewrite <- repeat_app. f_equal. lia.
Qed.

(** A wait whose signal is seen aborted at the head of its loop throws
    the abort error without a status call and without a callback. *)
Theorem wait_cancelled_before_first_poll :
  forall (world : World) (fuel : nat) (task : string)
         (options : WaitForCompletionOptions) (sig : AbortSignal) (st : St),
    trim task <> "" ->
    options.(signal) = Some sig ->
    world.(aborted) st.(signalLooks) = true ->
    exists st',
      waitForCompletion world (S fuel) task options st
      = (Threw (abortedError sig), st')
      /\ st'.(requests) = st.(requests)
      /\ st'.(updates) = st.(updates).
Proof.
  intros world fuel task options sig st Hne Hsig Hab.
  unfold waitForCompletion, bind, assertString.
  destruct (String.eqb_spec (trim task) ""); [contradiction|].
  unfold ret, dateNow. cbn [pollLoop]. unfold bind, throwIfAborted.
  rewrite Hsig. unfold bind, lookAborted, throw. cbn [signalLooks].
  rewrite Hab. eexists. split; [reflexivity|]. split; reflexivity.
Qed.

(** When the signal is aborted at the start of, or during, the sleep that
    follows a poll, the wait throws the abort error after that one status
    call, and the timer of the sleep does not run to its end. *)
Theorem wait_cancelled_during_sleep :
  forall (world : World) (fuel : nat) (task : string)
         (options : WaitForCompletionOptions) (sig : AbortSignal)
         (r : TaskStatusResponse) (st : St),
    trim task <> "" ->
    options.(signal) = Some sig ->
    world.(aborted) st.(signalLooks) = false ->
    world.(http) (List.length st.(requests)) = inl r ->
    stopping options r = false ->
    world.(now) (S st.(clockReads)) - world.(now) st.(clockReads)
    < maxWaitOf options ->
    world.(aborted) (S st.(signalLooks)) = true
    \/ world.(aborted) (S (S st.(signalLooks))) = true ->
    exists st',
      waitForCompletion world (S fuel) task options st
      = (Threw (abortedError sig), st')
      /\ st'.(requests) = (st.(requests) ++ [statusRequest task])%list
      /\ st'.(slept) = st.(slept).
Proof.
  intros world fuel task options sig r st Hne Hsig Hhead Hh Hs Hearly Hslept.
  unfold stopping, maxWaitOf in Hs, Hearly.
  unfold waitForCompletion. cbn [pollLoop].
  unfold bind, assertString, throwIfAborted, getTaskStatus, sleep.
  rewrite Hsig.
  unfold bind, assertString, ret, throw, dateNow, lookAborted, httpRequest,
    fireOnUpdate, timerElapsed.
  destruct (String.eqb_spec (trim task) ""); [contradiction|].
  cbn [requests updates waits slept clockReads signalLooks].
  rewrite Hhead. cbn [requests updates waits slept clockReads signalLooks].
  rewrite Hh, Hs.
  destruct (differs (status r) None), (onUpdate options);
    cbn [requests updates waits slept clockReads signalLooks];
    (replace (_ >=? _) with false
       by (symmetry; rewrite Z.geb_leb; apply Z.leb_gt; lia)).
  all: cbn [requests updates waits slept clockReads signalLooks].
  all: destruct Hslept as [Ha|Ha];
    [rewrite Ha
    |destruct (aborted world (S (signalLooks st)));
     [|cbn [requests updates waits slept clockReads signalLooks];
       rewrite Ha]].
  all: cbn [requests updates waits slept clockReads signalLooks].
  all: eexists; (split; [reflexivity|split; reflexivity]).
Qed.

Section Ending.

Variable world : World.
Variable task : string.
Variable options : WaitForCompletionOptions.
Variable startedAt : Z.

Local Abbreviation loop := (pollLoop world task options startedAt).

(** An iteration that does not end the loop has read the clock once and
    found the deadline not reached. *)
Lemma pollLoop_goes_on :
  forall fuel last st st',
    loop (S fuel) last st = (OutOfFuel, st') ->
    exists last' st1,
      loop fuel last' st1 = (OutOfFuel, st')
      /\ st1.(clockReads) = S st.(clockReads)
      /\ world.(now) st.(clockReads) - startedAt < maxWaitOf options.
Proof.
  intros fuel last st st' Hrun. cbn [pollLoop] in Hrun.
  apply bind_inv in Hrun.
  destruct Hrun as [(u & st0 & H0 & Hrun)|[(e & _ & H)|(H0 & _)]];
    [|discriminate|];
    apply throwIfAborted_inv in H0;
    destruct H0 as [(L1 & L2 & L3 & L4) [Ho|(sig & _ & Ho)]];
    try discriminate.
  apply bind_inv in Hrun.
  destruct Hrun as [(r & st1 & H1 & Hrun)|[(e & _ & H)|(H1 & _)]];
    [|discriminate|];
    apply getTaskStatus_inv in H1;
    destruct H1 as [(_ & _ & Ho1)|(R1 & R2 & R3 & R4 & Ho1)];
    try discriminate;
    [|destruct (http world _); discriminate].
  apply bind_inv in Hrun.
  destruct Hrun as [(u2 & st2 & H2 & Hrun)|[(e & _ & H)|(H2 & _)]];
    [|discriminate|];
    apply fireOnUpdate_inv in H2;
    destruct H2 as (Ho2 & U1 & U2 & U3 & U4); try discriminate.
  destruct (has _ _ || _); [discriminate|].
  apply bind_inv in Hrun.
  destruct Hrun as [(t & st3 & H3 & Hrun)|[(e & _ & H)|(H3 & _)]];
    [|discriminate|];
    apply dateNow_inv in H3;
    destruct H3 as (Ho3 & D1 & D2 & D3 & D4); try discriminate.
  inversion Ho3; subst t; clear Ho3.
  change (orElse (maxWaitTimeMs options) DEFAULT_MAX_WAIT_TIME_MS)
    with (maxWaitOf options) in Hrun.
  destruct (_ >=? _) eqn:Hcmp; [discriminate|].
  rewrite Z.geb_leb in Hcmp. apply Z.leb_gt in Hcmp.
  apply bind_inv in Hrun.
  destruct Hrun as [(u4 & st4 & H4 & Hrun)|[(e & _ & H)|(H4 & _)]];
    [|discriminate|];
    apply sleep_inv in H4;
    destruct H4 as [(S1 & S2 & S3 & S4) [Ho4|(sig & _ & Ho4)]];
    try discriminate.
  eexists _, st4. split; [exact Hrun|].
  split; [congruence|].
  replace (clockReads st) with (clockReads st2) by congruence. exact Hcmp.
Qed.

Lemma pollLoop_ends :
  forall fuel last st,
    (forall i, world.(now) i - startedAt >= Z.of_nat i) ->
    (1 <= fuel)%nat ->
    maxWaitOf options - Z.of_nat st.(clockReads) < Z.of_nat fuel ->
    fst (loop fuel last st) <> OutOfFuel.
Proof.
  induction fuel as [|fuel IH]; intros last st Hclock H1 Hfuel; [lia|].
  destruct (loop (S fuel) last st) as [out st'] eqn:Hrun. cbn [fst].
  intros ->. apply pollLoop_goes_on in Hrun.
  destruct Hrun as (last' & st1 & Hrun & C & Hearly).
  pose proof (Hclock (clockReads st)) as Hc.
  apply (IH last' st1 Hclock); [lia|rewrite C; lia|].
  rewrite Hrun. reflexivity.
Qed.

End Ending.

(** When every reading of the clock is at least one millisecond after
    the one before, a wait ends within max(1, [maxWaitTimeMs]) iterations
    of its loop, whatever the transport answers. *)
Theorem wait_ends_when_clock_advances :
  forall (world : World) (fuel : nat) (task : string)
         (options : WaitForCompletionOptions),
    (forall i, world.(now) i - world.(now) 0%nat >= Z.of_nat i) ->
    Z.max 1 (maxWaitOf options) <= Z.of_nat fuel ->
    fst (waitForCompletion world fuel task options initial) <> OutOfFuel.
Proof.
  intros world fuel task options Hclock Hfuel.
  unfold waitForCompletion, bind at 1, assertString.
  destruct (String.eqb (trim task) ""); [discriminate|].
  unfold ret, bind at 1, dateNow at 1. cbn [clockReads initial].
  apply pollLoop_ends; [exact Hclock|lia|cbn [clockReads]; lia].
Qed.

Section WaitMore.

Variable world : World.

(** In any run, [waitForCompletion] issues status calls for its task id
    and nothing else, and never calls the [onWaiting] handler; a record it
    returns has a stopping status, which under the default options is
    COMPLETED, FAILED or CANCELED. *)
Theorem wait_only_polls_and_returns_stopping_record :
  forall (fuel : nat) (task : string) (options : WaitForCompletionOptions)
         (st : St) (out : Outcome TaskStatusResponse) (st' : St),
    waitForCompletion world fuel task options st = (out, st') ->
    (exists k,
       st'.(requests) = (st.(requests) ++ repeat (statusRequest task) k)%list)
    /\ st'.(waits) = st.(waits)
    /\ forall r,
         out = Returned r ->
         stopping options r = true
         /\ (options.(terminalStatuses) = None ->
             orElse options.(exitOnWaiting) false = false ->
             In r.(status) [COMPLETED; FAILED; CANCELED]).
Proof.
  intros fuel task options st out st' Hrun.
  apply waitForCompletion_run in Hrun.
  destruct Hrun as (k & K1 & _ & K3 & _ & K5).
  split; [exists k; exact K1|]. split; [exact K3|].
  intros r ->. cbn [pollExit] in K5. destruct K5 as (j & _ & _ & Hs).
  split; [exact Hs|]. intros Hterm Hexit. unfold stopping in Hs.
  rewrite Hterm, Hexit, andb_false_r, orb_false_r in Hs. cbn in Hs.
  destruct (status r); cbn in Hs; try discriminate; cbn; auto.
Qed.

(** A trigger that the transport answers returns that answer, having
    logged its one call. *)
Lemma executeWorkflow_returned :
  forall (i : ExecuteWorkflowInput) (value : Json)
         (started : TaskStatusResponse) (st : St),
    trim i.(workflowId) <> "" ->
    i.(input) = Some value ->
    world.(http) (List.length st.(requests)) = inl started ->
    exists st1,
      executeWorkflow world i st = (Returned started, st1)
      /\ st1.(requests) = (st.(requests) ++ [triggerRequest i value])%list
      /\ st1.(waits) = st.(waits).
Proof.
  intros i value started st Hid Hin Hh.
  unfold executeWorkflow, bind, assertString, ensureSerializable.
  destruct (String.eqb_spec (trim (workflowId i)) ""); [contradiction|].
  unfold ret. rewrite Hin. unfold httpRequest. rewrite Hh.
  eexists. split; [reflexivity|]. split; reflexivity.
Qed.

(** What any run of the resume loop did: status calls for the task only,
    and handler calls on WAITING records only. *)
Lemma resumeLoop_run :
  forall pollFuel task o fuel continuePolling st out st',
    resumeLoop world (throw unexpectedExit) pollFuel task o fuel
      continuePolling st = (out, st') ->
    exists k ws,
      st'.(requests) = (st.(requests) ++ repeat (statusRequest task) k)%list
      /\ st'.(waits) = (st.(waits) ++ ws)%list
      /\ Forall (fun r => r.(status) = WAITING) ws.
Proof.
  intros pollFuel task o.
  induction fuel as [|fuel IH]; intros cp st out st' Hrun;
    cbn [resumeLoop] in Hrun.
  - exists 0%nat, (@nil TaskStatusResponse). cbn. rewrite !app_nil_r.
    destruct cp; inversion Hrun; subst; auto.
  - destruct cp.
    2:{ inversion Hrun; subst. exists 0%nat, (@nil TaskStatusResponse). cbn.
        rewrite !app_nil_r. auto. }
    apply bind_inv in Hrun.
    destruct Hrun as [(current & st1 & H1 & Hrun)|[(e & H1 & _)|(H1 & _)]];
      apply waitForCompletion_run in H1;
      destruct H1 as (k1 & K1 & _ & W1 & _).
    2,3: exists k1, (@nil TaskStatusResponse); rewrite app_nil_r; auto.
    destruct (status_eqb (status current) WAITING) eqn:Hw; cbn [negb] in Hrun.
    + apply status_eqb_eq in Hw.
      apply bind_inv in Hrun.
      destruct Hrun as [(cp & st2 & H2 & Hrun)|[(e & H2 & _)|(H2 & _)]];
        try (unfold callOnWaiting in H2; discriminate).
      unfold callOnWaiting in H2. inversion H2; subst cp st2; clear H2.
      destruct (onWaiting world (List.length (waits st1))); cbn [negb] in Hrun.
      * apply IH in Hrun. destruct Hrun as (k & ws & Hr & Hwt & Hall).
        cbn [requests waits] in Hr, Hwt.
        exists (k1 + k)%nat, (current :: ws).
        rewrite Hr, K1, Hwt, W1, repeat_app, <- !app_assoc.
        repeat split; auto.
      * inversion Hrun; subst. exists k1, [current]. cbn [requests waits].
        rewrite K1, W1. repeat split; auto.
    + inversion Hrun; subst. exists k1, (@nil TaskStatusResponse).
      rewrite app_nil_r. auto.
Qed.

(** In any run of [executeAndWait] that gets past its trigger, the
    transport calls are the trigger POST followed by status calls for the
    task id that the trigger returned; the [onWaiting] handler is called on
    WAITING records only, and not at all when none was supplied. *)
Theorem executeAndWait_calls :
  forall (fuel : nat) (i : ExecuteWorkflowInput) (value : Json)
         (started : TaskStatusResponse) (options : ExecuteAndWaitOptions)
         (st : St) (out : Outcome TaskStatusResponse) (st' : St),
    trim i.(workflowId) <> "" ->
    i.(input) = Some value ->
    world.(http) (List.length st.(requests)) = inl started ->
    executeAndWait world fuel i options st = (out, st') ->
    exists k ws,
      st'.(requests)
      = (st.(requests) ++ triggerRequest i value
           :: repeat (statusRequest started.(taskId)) k)%list
      /\ st'.(waits) = (st.(waits) ++ ws)%list
      /\ Forall (fun r => r.(status) = WAITING) ws
      /\ (options.(withOnWaiting) = false -> ws = []).
Proof.
  intros fuel i value started options st out st' Hid Hin Hh Hrun.
  unfold executeAndWait, executeAndWaitWith in Hrun.
  destruct (executeWorkflow_returned i value started st Hid Hin Hh)
    as (st1 & E & R & W).
  rewrite (bind_returned _ _ _ _ _ _ _ E) in Hrun.
  destruct (withOnWaiting options); cbn [negb] in Hrun.
  - apply resumeLoop_run in Hrun. destruct Hrun as (k & ws & Hr & Hw & Hall).
    exists k, ws. rewrite Hr, R, Hw, W, <- app_assoc.
    repeat split; auto. discriminate.
  - apply waitForCompletion_run in Hrun.
    destruct Hrun as (k & K1 & _ & W1 & _).
    exists k, (@nil TaskStatusResponse).
    rewrite K1, R, W1, W, <- app_assoc, app_nil_r.
    repeat split; auto.
Qed.

End WaitMore.

(** *** The theorems at concrete worlds *)

Lemma executeWorkflow_issues_one_post_witness :
  exists st',
    executeWorkflow approval workflowInput initial
    = (Returned (record PENDING), st')
    /\ st'.(requests) = [triggerRequest workflowInput (JObj [])]
    /\ st'.(updates) = [] /\ st'.(waits) = [] /\ st'.(slept) = [].
Proof.
  apply (executeWorkflow_issues_one_post approval workflowInput (JObj [])
           initial); first [reflexivity | vm_compute; discriminate].
Defined.

Lemma executeWorkflow_rejects_locally_witness :
  exists text,
    executeWorkflow approval
      {| workflowId := "  "; input := Some (JObj []); uniqueId := None |}
      initial = (Threw (Error text), initial)
    /\ executeAndWait approval 5
         {| workflowId := "  "; input := Some (JObj []); uniqueId := None |}
         {| waitOptions := waitOptionsOf None; withOnWaiting := true |}
         initial = (Threw (Error text), initial).
Proof.
  apply (executeWorkflow_rejects_locally approval 5
           {| workflowId := "  "; input := Some (JObj []); uniqueId := None |}
           {| waitOptions := waitOptionsOf None; withOnWaiting := true |}
           initial).
  left. reflexivity.
Defined.

Lemma continueTask_issues_one_post_witness :
  exists st',
    continueTask approval approveTask initial
    = (Returned (record PENDING), st')
    /\ st'.(requests) = [continueRequest approveTask].
Proof.
  apply (continueTask_issues_one_post approval approveTask initial).
  - vm_compute. discriminate.
  - left. reflexivity.
Defined.

Lemma blank_task_id_is_refused_witness :
  getTaskStatus approval "" initial = (Threw blankTaskId, initial)
  /\ waitForCompletion approval 5 "" (waitOptionsOf None) initial
     = (Threw blankTaskId, initial)
  /\ continueTask approval
       {| ct_taskId := ""; ct_decision := APPROVE; ct_message := None |}
       initial
     = (Threw blankTaskId, initial).
Proof.
  apply (blank_task_id_is_refused approval 5 "" (waitOptionsOf None) APPROVE
           None initial).
  reflexivity.
Defined.

Lemma wait_returns_first_stopping_record_witness :
  exists st',
    waitForCompletion converging 5 "task-1" (waitOptionsOf None) initial
    = (Returned (record COMPLETED), st')
    /\ st'.(requests) = repeat (statusRequest "task-1") 3.
Proof.
  apply (wait_returns_first_stopping_record converging 5 "task-1"
           (waitOptionsOf None) 2 (record COMPLETED));
    first [ reflexivity | lia | left; reflexivity
          | vm_compute; discriminate | idtac ].
  intros [|[|i]] Hi; [| |lia]; eexists; repeat split; reflexivity.
Defined.

Lemma wait_ends_on_failed_poll_witness :
  exists st',
    waitForCompletion (worldOf [inl (record PENDING)]) 5 "task-1"
      (waitOptionsOf None) initial
    = (Threw noMoreReplies, st')
    /\ st'.(requests) = repeat (statusRequest "task-1") 2.
Proof.
  apply (wait_ends_on_failed_poll (worldOf [inl (record PENDING)]) 5 "task-1"
           (waitOptionsOf None) 1 noMoreReplies);
    first [ reflexivity | lia | left; reflexivity
          | vm_compute; discriminate | idtac ].
  intros [|i] Hi; [|lia]; eexists; repeat split; reflexivity.
Defined.

Lemma wait_cancelled_before_first_poll_witness :
  exists st',
    waitForCompletion (abortedFrom 0 [inl (record PENDING)]) 1 "task-1"
      signalledOptions initial
    = (Threw (DOMException "AbortError" "cancelled by the user"), st')
    /\ st'.(requests) = []
    /\ st'.(updates) = [].
Proof.
  apply (wait_cancelled_before_first_poll
           (abortedFrom 0 [inl (record PENDING)]) 0 "task-1" signalledOptions
           userAbort initial);
    first [ reflexivity | vm_compute; discriminate ].
Defined.

Lemma wait_cancelled_during_sleep_witness :
  exists st',
    waitForCompletion (abortedFrom 2 [inl (record PENDING)]) 1 "task-1"
      signalledOptions initial
    = (Threw (DOMException "AbortError" "cancelled by the user"), st')
    /\ st'.(requests) = [statusRequest "task-1"]
    /\ st'.(slept) = [].
Proof.
  apply (wait_cancelled_during_sleep
           (abortedFrom 2 [inl (record PENDING)]) 0 "task-1" signalledOptions
           userAbort (record PENDING) initial);
    first [ reflexivity | vm_compute; discriminate
          | right; reflexivity ].
Defined.

Lemma wait_ends_when_clock_advances_witness :
  fst (waitForCompletion stillRunning 3 "task-1" (waitOptionsOf (Some 3))
         initial) <> OutOfFuel.
Proof.
  apply (wait_ends_when_clock_advances stillRunning 3 "task-1"
           (waitOptionsOf (Some 3))).
  - intros i. cbn. lia.
  - vm_compute. discriminate.
Defined.

Lemma wait_only_polls_and_returns_stopping_record_witness :
  (exists k,
     (snd (waitForCompletion converging 5 "task-1" (waitOptionsOf None)
             initial)).(requests)
     = repeat (statusRequest "task-1") k)
  /\ (snd (waitForCompletion converging 5 "task-1" (waitOptionsOf None)
             initial)).(waits) = [].
Proof.
  pose proof
    (wait_only_polls_and_returns_stopping_record converging 5 "task-1"
       (waitOptionsOf None) initial
       (fst (waitForCompletion converging 5 "task-1" (waitOptionsOf None)
               initial))
       (snd (waitForCompletion converging 5 "task-1" (waitOptionsOf None)
               initial))
       (surjective_pairing _)) as H.
  exact (conj (proj1 H) (proj1 (proj2 H))).
Defined.

Lemma executeAndWait_calls_witness :
  exists k ws,
    (snd (executeAndWait approval 5 workflowInput
            {| waitOptions := waitOptionsOf None; withOnWaiting := true |}
            initial)).(requests)
    = triggerRequest workflowInput (JObj [])
        :: repeat (statusRequest "task-1") k
    /\ (snd (executeAndWait approval 5 workflowInput
               {| waitOptions := waitOptionsOf None; withOnWaiting := true |}
               initial)).(waits) = ws
    /\ Forall (fun r => r.(status) = WAITING) ws
    /\ (true = false -> ws = []).
Proof.
  apply (executeAndWait_calls approval 5 workflowInput (JObj [])
           (record PENDING)
           {| waitOptions := waitOptionsOf None; withOnWaiting := true |}
           initial
           (fst (executeAndWait approval 5 workflowInput
                   {| waitOptions := waitOptionsOf None;
                      withOnWaiting := true |} initial))
           (snd (executeAndWait approval 5 workflowInput
                   {| waitOptions := waitOptionsOf None;
                      withOnWaiting := true |} initial)));
    first [ reflexivity | vm_compute; discriminate
          | apply surjective_pairing ].
Defined.

End ClientProperties.
